(** * Confidence-gated breadth-first reorganisation engine ([bfs_v2.py])

    A shallow embedding of the decision engine of [src/bfs_v2.py] and of the
    shared types of [src/classify_v2.py] (imported by [bfs_v2.py] under the
    module name [classify_v1]), with the properties the specification states
    about it.

    Modelling conventions.
    - A Python [str] is a Rocq [string]; each character stands for the code
      point of the same number, so the model covers strings whose code points
      are below 256.  [os.path] is [posixpath].
    - A [Dict[str, V]] whose iteration order is observed by the engine
      ([FolderNode.children], [ext_counts]) is an association list in
      insertion order; the dictionaries that are only read by key
      ([classifications], [mappings], [folder_decisions],
      [ancestor_desc_map], [file_index]) are [gmap string V]; the [seen] set
      is a [gset string].
    - A [float] confidence is a rational number; only [>=] is used on it.
    - The classifier and the database are external collaborators: each is an
      abstract state with operations that return the next state, or [None]
      when the call raises.  Logging is not modelled. *)

From Stdlib Require Import Ascii String QArith.
From stdpp Require Import gmap strings list fin_maps sorting.

Local Open Scope string_scope.
Local Open Scope list_scope.
Local Open Scope nat_scope.

(** ** Python string operations *)

Module PyStr.

Definition slash : ascii := "/"%char.
Definition backslash : ascii := "\"%char.
Definition dot : ascii := "."%char.

(** [s.replace(a, b)] for one-character [a] and [b]. *)
Fixpoint replace_char (a b : ascii) (s : string) : string :=
match s with
| EmptyString => EmptyString
| String c r => String (if Ascii.eqb c a then b else c) (replace_char a b r)
end.

(** [s.split(sep)] for a one-character separator: never the empty list. *)
Fixpoint split (sep : ascii) (s : string) : list string :=
match s with
| EmptyString => [EmptyString]
| String c r =>
    if Ascii.eqb c sep then EmptyString :: split sep r
    else match split sep r with
         | h :: t => String c h :: t
         | [] => [String c EmptyString]
         end
end.

(** [sep.join(parts)]. *)
Fixpoint join (sep : string) (parts : list string) : string :=
match parts with
| [] => EmptyString
| [x] => x
| x :: rest => x +:+ sep +:+ join sep rest
end.

(** [str.isspace] on one character (code points below 256). *)
Definition is_space (c : ascii) : bool :=
let n := nat_of_ascii c in
(((9 <=? n) && (n <=? 13)) || ((28 <=? n) && (n <=? 32))
 || (n =? 133) || (n =? 160))%nat.

(** Drop the leading characters that satisfy [p]. *)
Fixpoint lstrip_by (p : ascii -> bool) (s : string) : string :=
match s with
| EmptyString => EmptyString
| String c r => if p c then lstrip_by p r else s
end.

(** Drop the trailing characters that satisfy [p]. *)
Fixpoint rstrip_by (p : ascii -> bool) (s : string) : string :=
match s with
| EmptyString => EmptyString
| String c r =>
    match rstrip_by p r with
    | EmptyString => if p c then EmptyString else String c EmptyString
    | r' => String c r'
    end
end.

(** [s.strip()]. *)
Definition strip (s : string) : string := rstrip_by is_space (lstrip_by is_space s).

(** [s.lstrip("/")] and [s.rstrip("/")]. *)
Definition lstrip_slash (s : string) : string := lstrip_by (Ascii.eqb slash) s.
Definition rstrip_slash (s : string) : string := rstrip_by (Ascii.eqb slash) s.

(** [s[n:]]. *)
Fixpoint drop (n : nat) (s : string) : string :=
match n, s with
| O, _ => s
| S _, EmptyString => EmptyString
| S m, String _ r => drop m r
end.

(** [c.lower()] on one character (code points below 256): the ASCII capitals
  and the Latin-1 capitals, all of which sit 32 below their lower case. *)
Definition lower_char (c : ascii) : ascii :=
let n := nat_of_ascii c in
if (((65 <=? n) && (n <=? 90))
    || ((192 <=? n) && (n <=? 222) && negb (n =? 215)))%nat
then ascii_of_nat (n + 32) else c.

(** [s.lower()] for a string of code points below 256: in that range the
  lower case of a character depends on no other character and is one
  character, so the string is lowered character by character. *)
Fixpoint lower (s : string) : string :=
match s with
| EmptyString => EmptyString
| String c r => String (lower_char c) (lower r)
end.

(** Python truthiness of a string. *)
Definition nonempty (s : string) : bool :=
match s with EmptyString => false | _ => true end.

(** [(p[:i], p[i:])] with [i = p.rfind(c) + 1]. *)
Fixpoint rpartition (c : ascii) (p : string) : string * string :=
match p with
| EmptyString => (EmptyString, EmptyString)
| String a r =>
    let '(h, t) := rpartition c r in
    match h with
    | EmptyString =>
        if Ascii.eqb a c then (String a EmptyString, r)
        else (EmptyString, String a r)
    | _ => (String a h, t)
    end
end.

Fixpoint all_char (c : ascii) (s : string) : bool :=
match s with
| EmptyString => true
| String a r => Ascii.eqb a c && all_char c r
end.

(** [os.path.dirname]: the head up to the last slash, its trailing slashes
  removed unless it consists of slashes only. *)
Definition dirname (p : string) : string :=
let head := fst (rpartition slash p) in
if nonempty head && negb (all_char slash head) then rstrip_slash head else head.

(** [os.path.basename]. *)
Definition basename (p : string) : string := snd (rpartition slash p).

(** Remove the last character. *)
Fixpoint chop (s : string) : string :=
match s with
| EmptyString => EmptyString
| String _ EmptyString => EmptyString
| String c r => String c (chop r)
end.

(** [os.path.splitext(p)[1]]: the suffix from the last dot of the last path
  component, provided a character other than a dot precedes it there. *)
Definition splitext_ext (p : string) : string :=
let name := basename p in
let '(h, t) := rpartition dot name in
match h with
| EmptyString => EmptyString
| _ => if all_char dot (chop h) then EmptyString else String dot t
end.

End PyStr.

Import PyStr.

(** ** An insertion-ordered dictionary

    [FolderNode.children] and [ext_counts] are iterated, so the order of
    first insertion is kept: assigning to a present key replaces the value in
    place, assigning to an absent key appends. *)

Section Dict.
Context {V : Type}.

Fixpoint dict_get (k : string) (d : list (string * V)) : option V :=
  match d with
  | [] => None
  | (k', v) :: r => if String.eqb k k' then Some v else dict_get k r
  end.

Fixpoint dict_set (k : string) (v : V) (d : list (string * V)) : list (string * V) :=
  match d with
  | [] => [(k, v)]
  | (k', v') :: r =>
      if String.eqb k k' then (k', v) :: r else (k', v') :: dict_set k v r
  end.

Definition dict_keys (d : list (string * V)) : list string := map fst d.
Definition dict_values (d : list (string * V)) : list V := map snd d.
End Dict.

(** [sorted(l, key=...)]: a stable sort, [le x y] deciding [key x <= key y]. *)
Section Sorted.
Context {A : Type} (le : A -> A -> bool).

Fixpoint insert_sorted (x : A) (l : list A) : list A :=
  match l with
  | [] => [x]
  | y :: r => if le x y then x :: l else y :: insert_sorted x r
  end.

Definition sorted (l : list A) : list A := foldr insert_sorted [] l.
End Sorted.

(** ** Shared data structures ([classify_v2.py]) *)

Inductive Category := STUDY | PRACTICE | SUPPORT | SKIP.

#[global] Instance Category_eq_dec : EqDecision Category.
Proof. solve_decision. Defined.

(** [Category.value]. *)
Definition category_value (c : Category) : string :=
  match c with
  | STUDY => "study"
  | PRACTICE => "practice"
  | SUPPORT => "support"
  | SKIP => "skip"
  end.

Record FileMeta := {
  source_path : string;
  folder_path : string;
  file_name : string;
  description : option string;
}.

#[warnings="-register-all"]
Inductive FolderNode :=
  Build_FolderNode (path name : string) (files : list FileMeta)
                   (children : list (string * FolderNode)).

Definition path (n : FolderNode) : string :=
  match n with Build_FolderNode p _ _ _ => p end.
Definition name (n : FolderNode) : string :=
  match n with Build_FolderNode _ m _ _ => m end.
Definition files (n : FolderNode) : list FileMeta :=
  match n with Build_FolderNode _ _ fs _ => fs end.
Definition children (n : FolderNode) : list (string * FolderNode) :=
  match n with Build_FolderNode _ _ _ ch => ch end.

Record FileIndexEntry := {
  uuid : string;
  fie_file_name : string;
  fie_description : string;
  original_path : option string;
  relative_path : option string;
  extra_info : option string;
}.

Record FolderStats := {
  total_file_count : nat;
  immediate_file_count : nat;
  subfolder_count : nat;
  subfolder_names : list string;
  extension_counts : list (string * nat);
  is_homogeneous : bool;
  primary_extensions : list string;
}.

Definition DEFAULT_CONFIDENCE_THRESHOLD : Q := 75 # 100.

Record ClassificationResult := {
  category : Category;
  confidence : Q;
  reason : string;
  is_mixed : bool;
  folder_description : string;
}.

(** [ClassificationResult.is_confident]. *)
Definition is_confident (r : ClassificationResult) (threshold : Q) : bool :=
  Qle_bool threshold (confidence r) && negb (is_mixed r).

(** Number of folders in a subtree; the fuel of [collect_all_files]. *)
Fixpoint folder_count (n : FolderNode) : nat :=
  match n with
  | Build_FolderNode _ _ _ ch =>
      S (list_sum (map (fun kc => folder_count (snd kc)) ch))
  end.

(** The [while queue] loop of [collect_all_files]; every turn removes one
    folder of the tree from the queue, so [fuel] bounds the turns. *)
Fixpoint collect_loop (fuel : nat) (queue : list FolderNode)
    (acc : list FileMeta) : list FileMeta :=
  match fuel, queue with
  | S k, cur :: rest =>
      collect_loop k (rest ++ dict_values (children cur)) (acc ++ files cur)
  | _, _ => acc
  end.

Definition collect_all_files (node : FolderNode) : list FileMeta :=
  collect_loop (folder_count node) [node] [].

(** ** Constants and records of [bfs_v2.py] *)

Definition MAX_ANCESTOR_DEPTH : nat := 10.

Record Classification := {
  cl_path : string;
  cl_category : Category;
  cl_confidence : Q;
  cl_reason : string;
  classified_at_level : string;
  parent_folder : option string;
  ancestor_descriptions : list string;
}.

Record FileMapping := {
  source_rel : string;
  dest_rel : string;
  top_folder : string;
  fm_category : string;
  fm_reason : string;
}.

Record TraversalResult := {
  res_classifications : gmap string Classification;
  res_folder_decisions : gmap string ClassificationResult;
  res_skipped_folders : list string;
  res_mappings : gmap string FileMapping;
  files_classified_individually : nat;
  files_classified_via_folder : nat;
}.

(** ** Tree building and utility functions *)

Definition add_file (fm : FileMeta) (node : FolderNode) : FolderNode :=
  Build_FolderNode (path node) (name node) (files node ++ [fm]) (children node).

Definition set_children (ch : list (string * FolderNode)) (node : FolderNode)
    : FolderNode :=
  Build_FolderNode (path node) (name node) (files node) ch.

(** The walk of [build_tree] down [parts] from [node], creating the folders
    that are missing, and the append of the file at its end.  [agg] holds the
    segments already walked. *)
Fixpoint insert_at (parts agg : list string) (fm : FileMeta)
    (node : FolderNode) {struct parts} : FolderNode :=
  match parts with
  | [] => add_file fm node
  | p :: rest =>
      let agg' := agg ++ [p] in
      let ppath := join "/" agg' in
      let child :=
        match dict_get p (children node) with
        | Some c => c
        | None => Build_FolderNode ppath p [] []
        end in
      set_children (dict_set p (insert_at rest agg' fm child) (children node)) node
  end.

(** [os.path.dirname(rel_path).replace("\\", "/") or "."]. *)
Definition folder_of (rel_path : string) : string :=
  let d := replace_char backslash slash (dirname rel_path) in
  if nonempty d then d else ".".

Definition make_file_meta (file_index : gmap string FileIndexEntry)
    (rel_path : string) : FileMeta :=
  let fname := basename rel_path in
  {| source_path := rel_path;
     folder_path := folder_of rel_path;
     file_name := fname;
     description := fie_description <$> file_index !! fname |}.

(** One turn of the loop of [build_tree]. *)
Definition build_tree_step (file_index : gmap string FileIndexEntry)
    (root : FolderNode) (rel_path : string) : FolderNode :=
  let folder := folder_of rel_path in
  let fm := make_file_meta file_index rel_path in
  if String.eqb folder "." then add_file fm root
  else insert_at (split slash folder) [] fm root.

Definition build_tree (_root_dir : string) (files_on_disk : list string)
    (file_index : gmap string FileIndexEntry) : FolderNode :=
  foldl (build_tree_step file_index) (Build_FolderNode "." "root" [] [])
        files_on_disk.

Definition metadata_exts : list string :=
  [".yaml"; ".yml"; ".json"; ".md"; ".txt"; ".toml"; ".ini"].

(** [os.path.splitext(f.file_name)[1].lower() or "(no ext)"]. *)
Definition file_ext (f : FileMeta) : string :=
  let e := lower (splitext_ext (file_name f)) in
  if nonempty e then e else "(no ext)".

Definition count_ext (d : list (string * nat)) (f : FileMeta) : list (string * nat) :=
  let ext := file_ext f in
  dict_set ext (default 0 (dict_get ext d) + 1) d.

Definition is_metadata_ext (e : string) : bool :=
  existsb (String.eqb e) metadata_exts.

Definition compute_folder_stats (node : FolderNode) : FolderStats :=
  let all_files := collect_all_files node in
  let ext_counts := foldl count_ext [] all_files in
  let sorted_exts := sorted (fun x y => Nat.leb (snd y) (snd x)) ext_counts in
  let primary := map fst (take 3 sorted_exts) in
  let content_exts : gset string :=
    list_to_set (filter (fun e => is_metadata_ext e = false) (dict_keys ext_counts)) in
  {| total_file_count := length all_files;
     immediate_file_count := length (files node);
     subfolder_count := length (children node);
     subfolder_names := sorted String.leb (dict_keys (children node));
     extension_counts := ext_counts;
     is_homogeneous := Nat.leb (size content_exts) 1;
     primary_extensions := primary |}.

(** FIX #5 of the source: the first segment, or the empty string for a path
    without a separator. *)
Definition top_level_folder (source_path : string) : string :=
  match split slash (replace_char backslash slash source_path) with
  | p0 :: _ :: _ => p0
  | _ => ""
  end.

Definition _join_rel (parts : list string) : string :=
  let clean :=
    map (fun p => replace_char backslash slash (strip p))
        (filter (fun p => (nonempty p && nonempty (strip p)) = true) parts) in
  join "/" clean.

Definition build_dest_rel (category top_folder tail : string) : string :=
  if String.eqb category "practice" then _join_rel ["practice"; top_folder; tail]
  else if String.eqb category "support" then _join_rel ["support"; top_folder; tail]
  else if String.eqb category "study" then
    if String.eqb top_folder "lecture" then _join_rel ["study"; "lecture"; tail]
    else _join_rel ["study"; "lecture"; top_folder; tail]
  else _join_rel [top_folder; tail].

(** [tail = source_path; if top: tail = source_path[len(top):].lstrip("/")]. *)
Definition tail_of (source_path top : string) : string :=
  if nonempty top then lstrip_slash (drop (String.length top) source_path)
  else source_path.

(** ** The traversal engine ([BFSTraverser]) *)

(** An element of [task_queue]: [Union[FolderNode, FileMeta]]. *)
Inductive Item :=
  | ItemFolder (node : FolderNode)
  | ItemFile (f : FileMeta).

(** [item.source_path if isinstance(item, FileMeta) else item.path]. *)
Definition item_key (it : Item) : string :=
  match it with
  | ItemFolder n => path n
  | ItemFile f => source_path f
  end.

(** One consultation of the classifier: the item, and the decision it
    returned ([None] when the call raised). *)
Definition OracleCall : Type := Item * option ClassificationResult.

(** One call of [update_folder_description_bulk]: the folder being assigned,
    the identifiers and the description passed. *)
Definition DbCall : Type := string * list string * string.

Section Engine.

(** The collaborators.  [Oracle] and [DB] are their states; an operation
    returns [None] when it raises.  [build_concat_desc] only prepares an
    argument of the classifier, so it is kept abstract. *)
Context {Oracle DB : Type}.
Variable classify_folder :
  Oracle -> FolderNode -> gmap string FileIndexEntry -> FolderStats ->
  string -> list string -> option (Oracle * ClassificationResult).
Variable classify_file :
  Oracle -> FileMeta -> gmap string FileIndexEntry -> list string ->
  option (Oracle * ClassificationResult).
Variable get_uuids_for_files : DB -> list string -> option (list string).
Variable update_folder_description_bulk :
  DB -> list string -> string -> option (DB * nat).
Variable build_concat_desc :
  list FileMeta -> gmap string FileIndexEntry -> string.

(** [self.confidence_threshold]. *)
Variable confidence_threshold : Q.

(** The local variables of [_bfs_classify], the states of the two
    collaborators, and two ghost logs: the classifier calls and the bulk
    description updates, in the order they were made. *)
Record State := {
  task_queue : list Item;
  seen : gset string;
  ancestor_desc_map : gmap string (list string);
  classifications : gmap string Classification;
  folder_decisions : gmap string ClassificationResult;
  skipped_folders : list string;
  mappings : gmap string FileMapping;
  oracle : Oracle;
  db : DB;
  oracle_log : list OracleCall;
  db_log : list DbCall;
}.

Definition set_task_queue (q : list Item) (s : State) : State :=
  {| task_queue := q; seen := seen s; ancestor_desc_map := ancestor_desc_map s;
     classifications := classifications s; folder_decisions := folder_decisions s;
     skipped_folders := skipped_folders s; mappings := mappings s;
     oracle := oracle s; db := db s; oracle_log := oracle_log s; db_log := db_log s |}.

Definition set_seen (x : gset string) (s : State) : State :=
  {| task_queue := task_queue s; seen := x; ancestor_desc_map := ancestor_desc_map s;
     classifications := classifications s; folder_decisions := folder_decisions s;
     skipped_folders := skipped_folders s; mappings := mappings s;
     oracle := oracle s; db := db s; oracle_log := oracle_log s; db_log := db_log s |}.

Definition set_ancestor_desc_map (x : gmap string (list string)) (s : State) : State :=
  {| task_queue := task_queue s; seen := seen s; ancestor_desc_map := x;
     classifications := classifications s; folder_decisions := folder_decisions s;
     skipped_folders := skipped_folders s; mappings := mappings s;
     oracle := oracle s; db := db s; oracle_log := oracle_log s; db_log := db_log s |}.

Definition set_classifications (x : gmap string Classification) (s : State) : State :=
  {| task_queue := task_queue s; seen := seen s; ancestor_desc_map := ancestor_desc_map s;
     classifications := x; folder_decisions := folder_decisions s;
     skipped_folders := skipped_folders s; mappings := mappings s;
     oracle := oracle s; db := db s; oracle_log := oracle_log s; db_log := db_log s |}.

Definition set_folder_decisions (x : gmap string ClassificationResult) (s : State) : State :=
  {| task_queue := task_queue s; seen := seen s; ancestor_desc_map := ancestor_desc_map s;
     classifications := classifications s; folder_decisions := x;
     skipped_folders := skipped_folders s; mappings := mappings s;
     oracle := oracle s; db := db s; oracle_log := oracle_log s; db_log := db_log s |}.

Definition set_skipped_folders (x : list string) (s : State) : State :=
  {| task_queue := task_queue s; seen := seen s; ancestor_desc_map := ancestor_desc_map s;
     classifications := classifications s; folder_decisions := folder_decisions s;
     skipped_folders := x; mappings := mappings s;
     oracle := oracle s; db := db s; oracle_log := oracle_log s; db_log := db_log s |}.

Definition set_mappings (x : gmap string FileMapping) (s : State) : State :=
  {| task_queue := task_queue s; seen := seen s; ancestor_desc_map := ancestor_desc_map s;
     classifications := classifications s; folder_decisions := folder_decisions s;
     skipped_folders := skipped_folders s; mappings := x;
     oracle := oracle s; db := db s; oracle_log := oracle_log s; db_log := db_log s |}.

Definition set_oracle (x : Oracle) (s : State) : State :=
  {| task_queue := task_queue s; seen := seen s; ancestor_desc_map := ancestor_desc_map s;
     classifications := classifications s; folder_decisions := folder_decisions s;
     skipped_folders := skipped_folders s; mappings := mappings s;
     oracle := x; db := db s; oracle_log := oracle_log s; db_log := db_log s |}.

Definition set_db (x : DB) (s : State) : State :=
  {| task_queue := task_queue s; seen := seen s; ancestor_desc_map := ancestor_desc_map s;
     classifications := classifications s; folder_decisions := folder_decisions s;
     skipped_folders := skipped_folders s; mappings := mappings s;
     oracle := oracle s; db := x; oracle_log := oracle_log s; db_log := db_log s |}.

Definition log_oracle (c : OracleCall) (s : State) : State :=
  {| task_queue := task_queue s; seen := seen s; ancestor_desc_map := ancestor_desc_map s;
     classifications := classifications s; folder_decisions := folder_decisions s;
     skipped_folders := skipped_folders s; mappings := mappings s;
     oracle := oracle s; db := db s; oracle_log := oracle_log s ++ [c];
     db_log := db_log s |}.

Definition log_db (c : DbCall) (s : State) : State :=
  {| task_queue := task_queue s; seen := seen s; ancestor_desc_map := ancestor_desc_map s;
     classifications := classifications s; folder_decisions := folder_decisions s;
     skipped_folders := skipped_folders s; mappings := mappings s;
     oracle := oracle s; db := db s; oracle_log := oracle_log s;
     db_log := db_log s ++ [c] |}.

(** How a call ends: it returns, or an exception leaves it; the state is
    the one reached at that point. *)
Inductive Outcome :=
  | Returned (s : State)
  | Raised (s : State).

Definition outcome_state (o : Outcome) : State :=
  match o with Returned s | Raised s => s end.

(** The classification and the mapping a file inherits from its folder:
    one turn of [for f in folder_files]. *)
Definition inherited_classification (item : FolderNode)
    (result : ClassificationResult) (child_ancestors : list string)
    (f : FileMeta) : Classification :=
  {| cl_path := source_path f;
     cl_category := category result;
     cl_confidence := confidence result;
     cl_reason := "Inherited from folder '" +:+ path item +:+ "': " +:+ reason result;
     classified_at_level := "folder";
     parent_folder := Some (path item);
     ancestor_descriptions := child_ancestors |}.

(** The [FileMapping] built from a source path and a decision, the same
    lines in [_process_folder] and in [_process_file]. *)
Definition make_mapping (result : ClassificationResult) (src : string)
    : FileMapping :=
  let top := top_level_folder src in
  let tail := tail_of src top in
  {| source_rel := src;
     dest_rel := build_dest_rel (category_value (category result)) top tail;
     top_folder := top;
     fm_category := category_value (category result);
     fm_reason := reason result |}.

Definition assign_file (item : FolderNode) (result : ClassificationResult)
    (child_ancestors : list string) (s : State) (f : FileMeta) : State :=
  set_mappings (<[source_path f := make_mapping result (source_path f)]> (mappings s))
    (set_classifications
       (<[source_path f := inherited_classification item result child_ancestors f]>
          (classifications s)) s).

(** FIX #2 of the source: the write of the folder description, made from
    the confident assignment only. *)
Definition propagate_description (item : FolderNode)
    (result : ClassificationResult) (folder_files : list FileMeta)
    (s : State) : Outcome :=
  if nonempty (folder_description result) then
    match get_uuids_for_files (db s) (map file_name folder_files) with
    | None => Raised s
    | Some [] => Returned s
    | Some uuids =>
        let s := log_db (path item, uuids, folder_description result) s in
        match update_folder_description_bulk (db s) uuids (folder_description result) with
        | None => Raised s
        | Some (db', _) => Returned (set_db db' s)
        end
    end
  else Returned s.

Definition folder_classification (item : FolderNode) (cat : Category)
    (result : ClassificationResult) (note : string)
    (my_ancestors : list string) : Classification :=
  {| cl_path := path item;
     cl_category := cat;
     cl_confidence := confidence result;
     cl_reason := reason result +:+ note;
     classified_at_level := "folder";
     parent_folder := None;
     ancestor_descriptions := my_ancestors |}.

Definition _process_folder (item : FolderNode)
    (file_index : gmap string FileIndexEntry) (s : State) : Outcome :=
  let my_ancestors := default [] (ancestor_desc_map s !! path item) in
  let folder_files := collect_all_files item in
  let folder_stats := compute_folder_stats item in
  let concat_desc := build_concat_desc folder_files file_index in
  match classify_folder (oracle s) item file_index folder_stats concat_desc
                        my_ancestors with
  | None => Raised (log_oracle (ItemFolder item, None) s)
  | Some (o', result) =>
      let s := set_oracle o' (log_oracle (ItemFolder item, Some result) s) in
      let s := set_folder_decisions (<[path item := result]> (folder_decisions s)) s in
      let child_ancestors :=
        if nonempty (folder_description result)
           && Nat.ltb (length my_ancestors) MAX_ANCESTOR_DEPTH
        then my_ancestors ++ [folder_description result]
        else my_ancestors in
      (* FIX #1: confident skip prunes the subtree *)
      if bool_decide (category result = SKIP)
         && Qle_bool confidence_threshold (confidence result)
      then
        let s := set_skipped_folders (skipped_folders s ++ [path item]) s in
        Returned
          (set_classifications
             (<[path item := folder_classification item SKIP result "" my_ancestors]>
                (classifications s)) s)
      else
        let should_descend :=
          negb (is_confident result confidence_threshold) || is_mixed result in
        let s :=
          if bool_decide (category result = SKIP)
          then set_skipped_folders (skipped_folders s ++ [path item]) s
          else s in
        let should_descend :=
          if bool_decide (category result = SKIP) then true else should_descend in
        let descent_note := if should_descend then " [descended]" else "" in
        let s :=
          set_classifications
            (<[path item :=
                 folder_classification item (category result) result descent_note
                   my_ancestors]> (classifications s)) s in
        if should_descend then
          let kids := dict_values (children item) in
          let adm :=
            foldl (fun m child => <[path child := child_ancestors]> m)
                  (ancestor_desc_map s) kids in
          let s := set_ancestor_desc_map (<[path item := child_ancestors]> adm) s in
          Returned
            (set_task_queue
               (task_queue s ++ map ItemFolder kids ++ map ItemFile (files item)) s)
        else
          match propagate_description item result folder_files s with
          | Raised s' => Raised s'
          | Returned s' =>
              Returned (foldl (assign_file item result child_ancestors) s' folder_files)
          end
  end.

Definition file_classification (item : FileMeta)
    (result : ClassificationResult) (file_ancestors : list string)
    : Classification :=
  {| cl_path := source_path item;
     cl_category := category result;
     cl_confidence := confidence result;
     cl_reason := reason result;
     classified_at_level := "file";
     parent_folder := None;
     ancestor_descriptions := file_ancestors |}.

Definition _process_file (item : FileMeta)
    (file_index : gmap string FileIndexEntry) (s : State) : Outcome :=
  let file_ancestors := default [] (ancestor_desc_map s !! folder_path item) in
  match classify_file (oracle s) item file_index file_ancestors with
  | None => Raised (log_oracle (ItemFile item, None) s)
  | Some (o', result) =>
      let s := set_oracle o' (log_oracle (ItemFile item, Some result) s) in
      if bool_decide (category result = SKIP) then Returned s
      else
        let s :=
          set_classifications
            (<[source_path item := file_classification item result file_ancestors]>
               (classifications s)) s in
        Returned
          (set_mappings
             (<[source_path item := make_mapping result (source_path item)]>
                (mappings s)) s)
  end.

(** The body of [while task_queue], after the [popleft]: [s] already has
    the item removed from its queue. *)
Definition visit (item : Item) (file_index : gmap string FileIndexEntry)
    (s : State) : Outcome :=
  if bool_decide (item_key item ∈ seen s) then Returned s
  else
    let s := set_seen ({[item_key item]} ∪ seen s) s in
    match item with
    | ItemFolder node => _process_folder node file_index s
    | ItemFile f => _process_file f file_index s
    end.

(** The loop; [None] when the fuel runs out before the queue does. *)
Fixpoint bfs_loop (fuel : nat) (file_index : gmap string FileIndexEntry)
    (s : State) : option Outcome :=
  match task_queue s with
  | [] => Some (Returned s)
  | item :: rest =>
      match fuel with
      | O => None
      | S k =>
          match visit item file_index (set_task_queue rest s) with
          | Returned s' => bfs_loop k file_index s'
          | Raised s' => Some (Raised s')
          end
      end
  end.

(** Number of folders and files in a subtree, the node included. *)
Fixpoint node_weight (n : FolderNode) : nat :=
  match n with
  | Build_FolderNode _ _ fs ch =>
      S (length fs + list_sum (map (fun kc => node_weight (snd kc)) ch))
  end.

Definition item_weight (it : Item) : nat :=
  match it with
  | ItemFolder n => node_weight n
  | ItemFile _ => 1
  end.

Definition queue_weight (q : list Item) : nat := list_sum (map item_weight q).

(** The state in which [_bfs_classify] enters its loop. *)
Definition initial_state (root : FolderNode) (o : Oracle) (d : DB) : State :=
  let kids := dict_values (children root) in
  {| task_queue := map ItemFolder kids ++ map ItemFile (files root);
     seen := ∅;
     ancestor_desc_map := foldl (fun m child => <[path child := []]> m) ∅ kids;
     classifications := ∅;
     folder_decisions := ∅;
     skipped_folders := [];
     mappings := ∅;
     oracle := o;
     db := d;
     oracle_log := [];
     db_log := [] |}.

(** The loop of [_bfs_classify] run from the initial state. *)
Definition bfs_run (root : FolderNode) (file_index : gmap string FileIndexEntry)
    (o : Oracle) (d : DB) : option Outcome :=
  let s0 := initial_state root o d in
  bfs_loop (queue_weight (task_queue s0)) file_index s0.

(** The record [_bfs_classify] returns after the loop. *)
Definition traversal_result (s : State) : TraversalResult :=
  let cls := map_to_list (classifications s) in
  {| res_classifications := classifications s;
     res_folder_decisions := folder_decisions s;
     res_skipped_folders := skipped_folders s;
     res_mappings := mappings s;
     files_classified_individually :=
       length (filter (fun kc => classified_at_level (snd kc) = "file") cls);
     files_classified_via_folder :=
       length (filter (fun kc => classified_at_level (snd kc) = "folder"
                                 ∧ parent_folder (snd kc) ≠ None) cls) |}.

(** [_bfs_classify]: the result, or [None] when an exception ended the
    run. *)
Definition _bfs_classify (root : FolderNode)
    (file_index : gmap string FileIndexEntry) (o : Oracle) (d : DB)
    : option (option TraversalResult) :=
  match bfs_run root file_index o d with
  | None => None
  | Some (Returned s) => Some (Some (traversal_result s))
  | Some (Raised _) => Some None
  end.

End Engine.

(** ** Notions used to state the properties *)

(** A path segment that [_join_rel] keeps as it is: not empty, no white space
    at either end, no backslash. *)
Definition clean_segment (s : string) : bool :=
  nonempty s && String.eqb (strip s) s
  && String.eqb (replace_char backslash slash s) s.

(** The first segment of a relative path, as the glossary of the
    specification words it. *)
Definition first_segment (source_path : string) : string :=
  hd "" (split slash (replace_char backslash slash source_path)).

(** The files of a subtree, folder by folder (depth first). *)
Fixpoint tree_files (n : FolderNode) : list FileMeta :=
  match n with
  | Build_FolderNode _ _ fs ch => fs ++ flat_map (fun kc => tree_files (snd kc)) ch
  end.

(** The queue keys of everything strictly below a folder: the path of each
    folder and the source path of each file of its subtree. *)
Fixpoint tree_keys (n : FolderNode) : list string :=
  match n with
  | Build_FolderNode _ _ fs ch =>
      flat_map (fun kc => path (snd kc) :: tree_keys (snd kc)) ch
      ++ map source_path fs
  end.

(** The keys an item of the queue stands for: its own and those below it. *)
Definition item_closure (it : Item) : list string :=
  match it with
  | ItemFolder n => path n :: tree_keys n
  | ItemFile f => [source_path f]
  end.

Definition closure_keys (q : list Item) : list string := flat_map item_closure q.

(** The files an item of the queue stands for. *)
Definition item_files (it : Item) : list FileMeta :=
  match it with
  | ItemFolder n => tree_files n
  | ItemFile f => [f]
  end.

(** A check that the elements of a list are all different. *)
Fixpoint all_distinct (l : list string) : bool :=
  match l with
  | [] => true
  | x :: r => negb (existsb (String.eqb x) r) && all_distinct r
  end.

(** The key under which a classifier call was made. *)
Definition call_key (c : OracleCall) : string := item_key (fst c).

(** A decision that prunes: Skip with confidence at or above the
    threshold. *)
Definition confident_skip (threshold : Q) (r : ClassificationResult) : bool :=
  bool_decide (category r = SKIP) && Qle_bool threshold (confidence r).

(** The test [_process_folder] ends up making before it descends: the
    decision is not confident, or mixed, or Skip. *)
Definition descends (threshold : Q) (r : ClassificationResult) : bool :=
  negb (is_confident r threshold) || is_mixed r || bool_decide (category r = SKIP).

(** The ancestor context handed to what lies below a folder. *)
Definition child_ancestors_of (my_ancestors : list string)
    (r : ClassificationResult) : list string :=
  if nonempty (folder_description r)
     && Nat.ltb (length my_ancestors) MAX_ANCESTOR_DEPTH
  then my_ancestors ++ [folder_description r]
  else my_ancestors.

(** The writes of the confident assignment, map by map. *)
Definition assign_classifications (n : FolderNode) (r : ClassificationResult)
    (ca : list string) (fs : list FileMeta)
    (m : gmap string Classification) : gmap string Classification :=
  foldl (fun m f => <[source_path f := inherited_classification n r ca f]> m) m fs.

Definition assign_mappings (r : ClassificationResult) (fs : list FileMeta)
    (m : gmap string FileMapping) : gmap string FileMapping :=
  foldl (fun m f => <[source_path f := make_mapping r (source_path f)]> m) m fs.

(** ** Invariants of the traversal loop *)

Section Invariants.
Context {Oracle DB : Type}.
Implicit Type s : @State Oracle DB.

(** The keys under which the classifier was called, in call order. *)
Definition log_keys s : list string := map call_key (oracle_log s).

(** Visited discipline: the classifier was called once for each key of the
    visited set and for no other key. *)
Definition inv_visited s : Prop :=
  NoDup (log_keys s) ∧ ∀ k, k ∈ seen s ↔ k ∈ log_keys s.

(** The queue holds disjoint subtrees, and nothing in them has been
    visited or written yet. *)
Definition inv_frontier s : Prop :=
  NoDup (closure_keys (task_queue s))
  ∧ ∀ k, k ∈ closure_keys (task_queue s) →
         (k ∉ seen s) ∧ classifications s !! k = None ∧ mappings s !! k = None.

(** Below a folder pruned by a confident Skip nothing is visited, queued
    or written, and the folder keeps its terminal Skip record. *)
Definition inv_pruned (threshold : Q) s : Prop :=
  ∀ n r, (ItemFolder n, Some r) ∈ oracle_log s →
         confident_skip threshold r = true →
         classifications s !! path n
         = Some (folder_classification n SKIP r ""
                   (ancestor_descriptions
                      (default (folder_classification n SKIP r "" [])
                               (classifications s !! path n))))
         ∧ mappings s !! path n = None
         ∧ ∀ k, k ∈ tree_keys n →
                (k ∉ seen s) ∧ (k ∉ closure_keys (task_queue s))
                ∧ classifications s !! k = None ∧ mappings s !! k = None.

(** A file the classifier marked Skip leaves no record. *)
Definition inv_dropped s : Prop :=
  ∀ f r, (ItemFile f, Some r) ∈ oracle_log s → category r = SKIP →
         classifications s !! source_path f = None
         ∧ mappings s !! source_path f = None.

(** Every description update was made for a folder whose decision was a
    confident assignment. *)
Definition inv_db (threshold : Q) s : Prop :=
  ∀ p u d, (p, u, d) ∈ db_log s →
           ∃ n r, (ItemFolder n, Some r) ∈ oracle_log s ∧ path n = p
                  ∧ confident_skip threshold r = false
                  ∧ descends threshold r = false.

(** A terminal record of a file: made for the file itself, or inherited
    from a folder. *)
Definition file_terminal (c : Classification) : Prop :=
  classified_at_level c = "file" ∨ parent_folder c ≠ None.

(** Every mapping is keyed by its own source path, belongs to a file of the
    tree, and comes with a terminal record of the same category, which is
    not Skip. *)
Definition inv_mappings (root : FolderNode) s : Prop :=
  (∀ f, f ∈ flat_map item_files (task_queue s) → f ∈ tree_files root)
  ∧ ∀ k m, mappings s !! k = Some m →
           source_rel m = k
           ∧ (∃ f, f ∈ tree_files root ∧ source_path f = k)
           ∧ ∃ c, classifications s !! k = Some c
                  ∧ cl_category c ≠ SKIP
                  ∧ fm_category m = category_value (cl_category c)
                  ∧ file_terminal c.

(** Whatever the tree, every mapping is keyed by its own source path, which
      is the path of a file of the tree, and its category is not Skip. *)
Definition inv_sources (root : FolderNode) s : Prop :=
    (∀ f, f ∈ flat_map item_files (task_queue s) → f ∈ tree_files root)
    ∧ ∀ k m, mappings s !! k = Some m →
             source_rel m = k
             ∧ (∃ f, f ∈ tree_files root ∧ source_path f = k)
             ∧ fm_category m ≠ "skip".

Definition inv_all (root : FolderNode) (threshold : Q) s : Prop :=
  inv_visited s ∧ inv_frontier s ∧ inv_pruned threshold s ∧ inv_dropped s
  ∧ inv_db threshold s ∧ inv_mappings root s.
End Invariants.

(** The call a turn of the loop makes to the classifier for an item, with the
    arguments [_process_folder] and [_process_file] prepare for it. *)
Definition consult {Oracle DB : Type}
    (classify_folder :
       Oracle -> FolderNode -> gmap string FileIndexEntry -> FolderStats ->
       string -> list string -> option (Oracle * ClassificationResult))
    (classify_file :
       Oracle -> FileMeta -> gmap string FileIndexEntry -> list string ->
       option (Oracle * ClassificationResult))
    (build_concat_desc : list FileMeta -> gmap string FileIndexEntry -> string)
    (file_index : gmap string FileIndexEntry)
    (item : Item) (s : @State Oracle DB) : option (Oracle * ClassificationResult) :=
  match item with
  | ItemFolder n =>
      classify_folder (oracle s) n file_index (compute_folder_stats n)
        (build_concat_desc (collect_all_files n) file_index)
        (default [] (ancestor_desc_map s !! path n))
  | ItemFile f =>
      classify_file (oracle s) f file_index
        (default [] (ancestor_desc_map s !! folder_path f))
  end.

(** ** Test doubles

    A deterministic classifier and two description stores, used to run the
    engine on a small tree. *)

Module Sample.

Definition decision (c : Category) (q : Q) (mixed : bool) (d : string)
    : ClassificationResult :=
  {| category := c; confidence := q; reason := "by name";
     is_mixed := mixed; folder_description := d |}.

(** "hw" is practice for sure, "tmp" is a confident but mixed Skip, any
    other folder is a hesitant support. *)
Definition stub_classify_folder (o : unit) (n : FolderNode)
    (_ : gmap string FileIndexEntry) (_ : FolderStats) (_ : string)
    (_ : list string) : option (unit * ClassificationResult) :=
  if String.eqb (path n) "hw" then Some (o, decision PRACTICE (9 # 10) false "homework")
  else if String.eqb (path n) "tmp" then Some (o, decision SKIP (9 # 10) true "junk")
  else Some (o, decision SUPPORT (4 # 10) false "misc").

(** Lock files are skipped, any other file is study material. *)
Definition stub_classify_file (o : unit) (f : FileMeta)
    (_ : gmap string FileIndexEntry) (_ : list string)
    : option (unit * ClassificationResult) :=
  if String.eqb (file_name f) "generated.lock"
  then Some (o, decision SKIP (1 # 1) false "")
  else Some (o, decision STUDY (8 # 10) false "").

(** A store in which every file name is its own identifier. *)
Definition stub_get_uuids (d : unit) (names : list string) : option (list string) :=
  Some names.

Definition stub_update (d : unit) (uuids : list string) (_ : string)
    : option (unit * nat) :=
  Some (d, length uuids).

(** A store that cannot be reached when the description is written. *)
Definition failing_update (d : unit) (_ : list string) (_ : string)
    : option (unit * nat) :=
  None.

Definition no_concat_desc (_ : list FileMeta) (_ : gmap string FileIndexEntry)
    : string := "".

Definition paths : list string :=
  ["hw/1/a.pdf"; "hw/b.md"; "r.txt"; "misc/x.pdf"; "misc/generated.lock";
   "tmp/o/a.o"; "misc/sub/y.txt"].

Definition tree : FolderNode := build_tree "" paths ∅.

Definition threshold : Q := DEFAULT_CONFIDENCE_THRESHOLD.

(** The whole traversal of [tree] with the store that works. *)
Definition traversal : option (@Outcome unit unit) :=
  bfs_run stub_classify_folder stub_classify_file stub_get_uuids stub_update
    no_concat_desc threshold tree ∅ tt tt.

(** The same traversal with the store that fails. *)
Definition failing_traversal : option (@Outcome unit unit) :=
  bfs_run stub_classify_folder stub_classify_file stub_get_uuids failing_update
    no_concat_desc threshold tree ∅ tt tt.

Definition hw_folder : FolderNode :=
  default (Build_FolderNode "" "" [] []) (dict_get "hw" (children tree)).
Definition tmp_folder : FolderNode :=
  default (Build_FolderNode "" "" [] []) (dict_get "tmp" (children tree)).
(** A folder of metadata files only. *)
Definition docs_folder : FolderNode :=
  Build_FolderNode "docs" "docs"
    [ {| source_path := "docs/a.md"; folder_path := "docs";
         file_name := "a.md"; description := None |};
      {| source_path := "docs/b.json"; folder_path := "docs";
         file_name := "b.json"; description := None |} ] [].
Definition root_file : FileMeta :=
  {| source_path := "r.txt"; folder_path := "."; file_name := "r.txt";
     description := None |}.

(** The state in which the loop starts on [tree]. *)
Definition start : @State unit unit := initial_state tree tt tt.

(** The turn of the loop that visits "tmp", taken alone. *)
Definition tmp_visit : @Outcome unit unit :=
    visit stub_classify_folder stub_classify_file stub_get_uuids stub_update
      no_concat_desc threshold (ItemFolder tmp_folder) ∅ (set_task_queue [] start).

(** What [_bfs_classify] returns with the store that fails. *)
Definition failing_result : option (option TraversalResult) :=
    _bfs_classify stub_classify_folder stub_classify_file stub_get_uuids
      failing_update no_concat_desc threshold tree ∅ tt tt.

End Sample.

(** The homogeneity test as the specification words it: metadata
    extensions are left out of the count of distinct extensions unless the
    folder holds nothing else, in which case they are what is counted. *)
Definition spec_is_homogeneous (node : FolderNode) : bool :=
  let exts := map file_ext (tree_files node) in
  let content := filter (fun e => is_metadata_ext e = false) exts in
  let counted := match content with [] => exts | _ => content end in
  Nat.leb (size (list_to_set counted : gset string)) 1.

(** A segment of a path: a string without a slash. *)
Fixpoint no_slash (s : string) : bool :=
  match s with
  | EmptyString => true
  | String c r => negb (Ascii.eqb c slash) && no_slash r
  end.

(** The node found by following the names [pos] downwards. *)
Inductive at_pos : FolderNode → list string → FolderNode → Prop :=
  | at_here (n : FolderNode) : at_pos n [] n
  | at_below (n : FolderNode) (k : string) (c : FolderNode)
      (pos : list string) (m : FolderNode) :
      (k, c) ∈ children n → at_pos c pos m → at_pos n (k :: pos) m.

(** The path [build_tree] gives the folder reached by the names [pos]. *)
Definition path_at (pos : list string) : string :=
  match pos with
  | [] => "."
  | _ => join "/" pos
  end.

(** The shape [build_tree] maintains, for the folder at [pos]: it carries
    the path of its position, its files name it as their folder, and its
    children are keyed by their own, distinct, names. *)
Fixpoint tree_ok (pos : list string) (n : FolderNode) : Prop :=
  match n with
  | Build_FolderNode p _ fs ch =>
      p = path_at pos
      ∧ Forall (fun f => folder_path f = p) fs
      ∧ NoDup (map fst ch)
      ∧ Forall (fun kc => no_slash (fst kc) = true) ch
      ∧ (fix all (l : list (string * FolderNode)) : Prop :=
           match l with
           | [] => True
           | kc :: l' =>
               name (snd kc) = fst kc ∧ tree_ok (pos ++ [fst kc]) (snd kc) ∧ all l'
           end) ch
  end.

(** The paths of the folders strictly below a folder. *)
Fixpoint tree_folder_paths (n : FolderNode) : list string :=
  match n with
  | Build_FolderNode _ _ _ ch =>
      flat_map (fun kc => path (snd kc) :: tree_folder_paths (snd kc)) ch
  end.

(** The prefixes of a list, the empty one left out. *)
Fixpoint prefixes {A : Type} (l : list A) : list (list A) :=
  match l with
  | [] => []
  | x :: r => [x] :: map (cons x) (prefixes r)
  end.

(** The position of the folder a relative path names. *)
Definition position_of (rel_path : string) : list string :=
  if String.eqb (folder_of rel_path) "." then [] else split slash (folder_of rel_path).

(** The paths of the directories a relative path lies in. *)
Definition dir_paths (rel_path : string) : list string :=
  map (join "/") (prefixes (position_of rel_path)).

(** What a scan of a directory tree yields: paths that are all different,
    none of which is also the path of a directory of the scan. *)
Definition scan_ok (files_on_disk : list string) : bool :=
  all_distinct files_on_disk
  && forallb (fun rel => negb (existsb (String.eqb rel)
                                 (flat_map dir_paths files_on_disk)))
       files_on_disk.

(** ** Further functions of the two files *)

(** [FolderNode.is_leaf]. *)
Definition is_leaf (n : FolderNode) : bool := Nat.eqb (length (children n)) 0.

(** [FolderNode.total_file_count]: the method, which recurses through the
    children. *)
Fixpoint FolderNode_total_file_count (n : FolderNode) : nat :=
  match n with
  | Build_FolderNode _ _ fs ch =>
      foldl (fun count kc => count + FolderNode_total_file_count (snd kc))
            (length fs) ch
  end.

(** The files of the folders of a queue, level by level: those of the
    folders of the queue, then those of their children, and so on for [d]
    levels. *)
Fixpoint level_files (d : nat) (q : list FolderNode) : list FileMeta :=
  match d, q with
  | S d', _ :: _ =>
      flat_map files q
      ++ level_files d' (flat_map (fun c => dict_values (children c)) q)
  | _, _ => []
  end.

(** The number of files of a list that carry the extension [e]. *)
Definition count_of_ext (e : string) (fs : list FileMeta) : nat :=
  length (filter (fun f => file_ext f = e) fs).

Section Turns.
Context {Oracle DB : Type}.
Variable classify_folder :
  Oracle -> FolderNode -> gmap string FileIndexEntry -> FolderStats ->
  string -> list string -> option (Oracle * ClassificationResult).
Variable classify_file :
  Oracle -> FileMeta -> gmap string FileIndexEntry -> list string ->
  option (Oracle * ClassificationResult).
Variable get_uuids_for_files : DB -> list string -> option (list string).
Variable update_folder_description_bulk :
  DB -> list string -> string -> option (DB * nat).
Variable build_concat_desc :
  list FileMeta -> gmap string FileIndexEntry -> string.
Variable confidence_threshold : Q.

(** The loop of [_bfs_classify] observed after at most [k] turns: the state
    reached then, or the one in which the loop ended before. *)
Fixpoint after_turns (k : nat) (file_index : gmap string FileIndexEntry)
    (s : @State Oracle DB) : Outcome :=
  match k with
  | O => Returned s
  | S k' =>
      match task_queue s with
      | [] => Returned s
      | item :: rest =>
          match visit classify_folder classify_file get_uuids_for_files
                  update_folder_description_bulk build_concat_desc
                  confidence_threshold item file_index (set_task_queue rest s) with
          | Returned s' => after_turns k' file_index s'
          | Raised s' => Raised s'
          end
      end
  end.

End Turns.

(** ** The file index and its check against the disk *)

(** A row of the [file] table as [load_file_index] selects it; a column
    that is NULL is [None]. *)
Record FileRow := {
  row_uuid : string;
  row_file_name : option string;
  row_description : option string;
  row_original_path : option string;
  row_relative_path : option string;
  row_extra_info : option string;
}.

(** [x or ""]. *)
Definition or_empty (x : option string) : string := default "" x.

(** The name [load_file_index] gives a row: its file name, or failing that
    the last component of its relative path; empty when it has neither. *)
Definition row_name (r : FileRow) : string :=
  let fname := or_empty (row_file_name r) in
  if nonempty fname then fname
  else
    let rel := or_empty (row_relative_path r) in
    if nonempty rel then basename rel else "".

Definition row_entry (fname : string) (r : FileRow) : FileIndexEntry :=
  {| uuid := row_uuid r;
     fie_file_name := fname;
     fie_description := or_empty (row_description r);
     original_path := row_original_path r;
     relative_path := row_relative_path r;
     extra_info := row_extra_info r |}.

(** One turn of the loop of [load_file_index]. *)
Definition load_row (index : gmap string FileIndexEntry) (r : FileRow)
    : gmap string FileIndexEntry :=
  let fname := row_name r in
  if nonempty fname then
    match index !! fname with
    | None => <[fname := row_entry fname r]> index
    | Some _ => index
    end
  else index.

(** [CourseDB.load_file_index], from the rows the query returned. *)
Definition load_file_index (rows : list FileRow) : gmap string FileIndexEntry :=
  foldl load_row ∅ rows.

(** What [log_sync_warnings] logs. *)
Inductive SyncMessage :=
  | MissingInDb (count : nat) (examples : list string)
  | StaleInDb (count : nat) (examples : list string)
  | InSync.

(** [log_sync_warnings] (FIX #6 of the source); its result is the list of
    the messages it logs, in order. *)
Definition log_sync_warnings (file_index : gmap string FileIndexEntry)
    (files_on_disk : list string) : list SyncMessage :=
  let disk_filenames : gset string := list_to_set (map basename files_on_disk) in
  let db_filenames : gset string := dom file_index in
  let missing_in_db := disk_filenames ∖ db_filenames in
  let stale_in_db := db_filenames ∖ disk_filenames in
  (if bool_decide (missing_in_db ≠ ∅)
   then [MissingInDb (size missing_in_db)
           (take 5 (sorted String.leb (elements missing_in_db)))]
   else [])
  ++ (if bool_decide (stale_in_db ≠ ∅)
      then [StaleInDb (size stale_in_db)
              (take 5 (sorted String.leb (elements stale_in_db)))]
      else [])
  ++ (if bool_decide (missing_in_db = ∅ ∧ stale_in_db = ∅) then [InSync] else []).

(** ** States of the sample runs *)

Module SampleRuns.

(** The state the sample traversal ends in. *)
Definition final : @State unit unit :=
  default Sample.start (outcome_state <$> Sample.traversal).

(** The state in which the traversal with the failing store is left. *)
Definition failed : @State unit unit :=
  default Sample.start (outcome_state <$> Sample.failing_traversal).

(** The state after the turn of "hw" taken from the start. *)
Definition after_hw : @State unit unit :=
  outcome_state
    (visit Sample.stub_classify_folder Sample.stub_classify_file
       Sample.stub_get_uuids Sample.stub_update Sample.no_concat_desc
       Sample.threshold (ItemFolder Sample.hw_folder) ∅ Sample.start).

(** The folder "misc" of the sample tree. *)
Definition misc_folder : FolderNode :=
  default (Build_FolderNode "" "" [] []) (dict_get "misc" (children Sample.tree)).

(** The file "misc/x.pdf" of the sample tree. *)
Definition misc_file : FileMeta := make_file_meta ∅ "misc/x.pdf".

(** A classifier that is sure of "hw" and yet finds it mixed; for any other
    folder it answers as the sample classifier does. *)
Definition mixed_classify_folder (o : unit) (n : FolderNode)
    (file_index : gmap string FileIndexEntry) (stats : FolderStats)
    (concat_desc : string) (ancestors : list string)
    : option (unit * ClassificationResult) :=
  if String.eqb (path n) "hw"
  then Some (o, Sample.decision PRACTICE (9 # 10) true "homework")
  else Sample.stub_classify_folder o n file_index stats concat_desc ancestors.

(** The turn of "hw" under that classifier, taken alone. *)
Definition mixed_hw_visit : @Outcome unit unit :=
  visit mixed_classify_folder Sample.stub_classify_file Sample.stub_get_uuids
    Sample.stub_update Sample.no_concat_desc Sample.threshold
    (ItemFolder Sample.hw_folder) ∅ (set_task_queue [] Sample.start).

(** The turn of "misc", a hesitant support, taken alone. *)
Definition misc_visit : @Outcome unit unit :=
  visit Sample.stub_classify_folder Sample.stub_classify_file
    Sample.stub_get_uuids Sample.stub_update Sample.no_concat_desc
    Sample.threshold (ItemFolder misc_folder) ∅ (set_task_queue [] Sample.start).

End SampleRuns.

(** [s.isascii()]: every code point is below 128. *)
Fixpoint isascii (s : string) : bool :=
  match s with
  | EmptyString => true
  | String c r => (nat_of_ascii c <? 128) && isascii r
  end.

(** A string without a separator: neither a slash nor a backslash. *)
Fixpoint no_separator (s : string) : bool :=
  match s with
  | EmptyString => true
  | String c r =>
      negb (Ascii.eqb c slash) && negb (Ascii.eqb c backslash) && no_separator r
  end.

(** ** Positions in the tree *)

(** The folder reached from [n] by following the names [pos] through the
    children dictionaries. *)
Fixpoint node_at (pos : list string) (n : FolderNode) : option FolderNode :=
  match pos with
  | [] => Some n
  | k :: pos' =>
      match dict_get k (children n) with
      | Some c => node_at pos' c
      | None => None
      end
  end.

(** Whether the position [pos] starts the position [parts]. *)
Fixpoint starts (pos parts : list string) : bool :=
  match pos, parts with
  | [], _ => true
  | k :: pos', p :: parts' => String.eqb k p && starts pos' parts'
  | _ :: _, [] => false
  end.

(** The segment that follows [pos] in a position that goes beyond it. *)
Fixpoint segment_after (pos parts : list string) : list string :=
  match pos, parts with
  | [], p :: _ => [p]
  | k :: pos', p :: parts' =>
      if String.eqb k p then segment_after pos' parts' else []
  | _, [] => []
  end.

(** A list without its repetitions, in the order of first occurrence. *)
Definition first_occurrences (l : list string) : list string :=
  foldl (fun acc x => if existsb (String.eqb x) acc then acc else acc ++ [x]) [] l.

(** ** The ancestor context along the traversal *)

(** The key under which the ancestor context of an item is looked up. *)
Definition context_key (it : Item) : string :=
  match it with
  | ItemFolder n => path n
  | ItemFile f => folder_path f
  end.

(** The items a descent into a folder puts in the queue. *)
Definition items_below (n : FolderNode) : list Item :=
  map ItemFolder (dict_values (children n)) ++ map ItemFile (files n).

Section ContextInvariant.
Context {Oracle DB : Type}.
Implicit Type s : @State Oracle DB.

(** An item that is owed the context [ca]: once visited, its record, if it
    has one, holds [ca]; until then it waits in the queue and [ca] is what
    the context map holds for it. *)
Definition owed s (it : Item) (ca : list string) : Prop :=
  (item_key it ∈ seen s →
   ∀ c, classifications s !! item_key it = Some c → ancestor_descriptions c = ca)
  ∧ (item_key it ∉ seen s →
     it ∈ task_queue s ∧ ancestor_desc_map s !! context_key it = Some ca).

(** The folders directly below the root are owed the empty context; what
    lies directly below a folder the traversal descended into is owed the
    context of that folder, extended; the folders in the queue have the
    shape [build_tree] gives. *)
Definition inv_context (threshold : Q) (root : FolderNode) s : Prop :=
  (∀ c, c ∈ dict_values (children root) → owed s (ItemFolder c) [])
  ∧ (∀ n r cn, (ItemFolder n, Some r) ∈ oracle_log s →
       confident_skip threshold r = false → descends threshold r = true →
       classifications s !! path n = Some cn →
       (∀ f, f ∈ files n → folder_path f = path n)
       ∧ ∀ it, it ∈ items_below n →
               owed s it (child_ancestors_of (ancestor_descriptions cn) r))
  ∧ (∀ n, ItemFolder n ∈ task_queue s → ∃ pos, tree_ok pos n).
End ContextInvariant.

(** ** The whole pipeline *)

(** Why [traverse] did not return. *)
Inductive TraverseError :=
  | SourceNotFound     (* the [ValueError] of [traverse] itself *)
  | IndexNotLoaded     (* [load_file_index] raised: no connection, or the query failed *)
  | LoopRaised         (* an exception left [_bfs_classify] *)
  | DebugLogNotSaved.  (* [save_debug_log] raised *)

Section Traverse.
Context {Oracle DB : Type}.
Variable classify_folder :
  Oracle -> FolderNode -> gmap string FileIndexEntry -> FolderStats ->
  string -> list string -> option (Oracle * ClassificationResult).
Variable classify_file :
  Oracle -> FileMeta -> gmap string FileIndexEntry -> list string ->
  option (Oracle * ClassificationResult).
Variable get_uuids_for_files : DB -> list string -> option (list string).
Variable update_folder_description_bulk :
  DB -> list string -> string -> option (DB * nat).
Variable build_concat_desc :
  list FileMeta -> gmap string FileIndexEntry -> string.
Variable confidence_threshold : Q.

(** What [traverse] asks of the file system: [os.path.abspath],
    [os.path.isdir], and [scan_directory], which walks the directory and
    returns the relative paths of its files. *)
Variable abspath : string -> string.
Variable isdir : string -> bool.
Variable scan_directory : string -> option nat -> list string.

(** The rows [load_file_index] fetches from the [file] table; [None] when
    [_ensure_connected] or the query raises. *)
Variable file_rows : DB -> option (list FileRow).

(** [LLMClassifier.save_debug_log], which writes a file and leaves the
    classifier as it is; [None] when it raises. *)
Variable save_debug_log : Oracle -> option unit.

(** How [traverse] ends: with the result, to which the state the loop
    ended in is joined for its two logs, or with an exception. *)
Inductive TraverseOutcome :=
  | TraverseReturned (result : TraversalResult) (s : @State Oracle DB)
  | TraverseRaised (e : TraverseError).

(** [BFSTraverser.traverse]; [None] when the loop runs out of fuel.  The
    call of [_bfs_classify] is [bfs_run] followed by [traversal_result], so
    that the final state is at hand for [save_debug_log].  The call of
    [log_sync_warnings] only writes to the log, which is not modelled. *)
Definition traverse (source_path : string) (max_depth : option nat)
    (o : Oracle) (d : DB) : option TraverseOutcome :=
  let source_path := abspath source_path in
  if negb (isdir source_path) then Some (TraverseRaised SourceNotFound)
  else
    match file_rows d with
    | None => Some (TraverseRaised IndexNotLoaded)
    | Some rows =>
        let file_index := load_file_index rows in
        let files_on_disk := scan_directory source_path max_depth in
        let root := build_tree source_path files_on_disk file_index in
        match bfs_run classify_folder classify_file get_uuids_for_files
                update_folder_description_bulk build_concat_desc
                confidence_threshold root file_index o d with
        | None => None
        | Some (Raised _) => Some (TraverseRaised LoopRaised)
        | Some (Returned s) =>
            match save_debug_log (oracle s) with
            | None => Some (TraverseRaised DebugLogNotSaved)
            | Some _ => Some (TraverseReturned (traversal_result s) s)
            end
        end
    end.

End Traverse.

(** A course directory with the files of [Sample.paths], a store of three
    rows that is connected, and a debug log that can be written. *)
Module SamplePipeline.

Definition abspath (p : string) : string := "/srv/" +:+ p.
Definition isdir (p : string) : bool := String.eqb p "/srv/course".
Definition scan_directory (_ : string) (_ : option nat) : list string :=
  Sample.paths.
Definition rows : list FileRow :=
  [ {| row_uuid := "u1"; row_file_name := Some "a.pdf";
       row_description := Some "first sheet"; row_original_path := None;
       row_relative_path := Some "hw/1/a.pdf"; row_extra_info := None |};
    {| row_uuid := "u2"; row_file_name := None; row_description := None;
       row_original_path := None; row_relative_path := Some "hw/b.md";
       row_extra_info := None |};
    {| row_uuid := "u3"; row_file_name := Some "a.pdf";
       row_description := Some "a copy"; row_original_path := None;
       row_relative_path := None; row_extra_info := None |} ].
Definition file_rows (_ : unit) : option (list FileRow) := Some rows.
Definition save_debug_log (_ : unit) : option unit := Some tt.

Definition run (source_path : string) : option (@TraverseOutcome unit unit) :=
  traverse Sample.stub_classify_folder Sample.stub_classify_file
    Sample.stub_get_uuids Sample.stub_update Sample.no_concat_desc
    Sample.threshold abspath isdir scan_directory file_rows save_debug_log
    source_path None tt tt.

(** The state in which the loop of the run on "course" ends. *)
Definition final : @State unit unit :=
  match run "course" with
  | Some (TraverseReturned _ s) => s
  | _ => Sample.start
  end.

End SamplePipeline.

(** ** Classifying a list of files ([LLMClassifier.classify_files]) *)

(** A call of [classify_file] made by [classify_files]: the file and the
    sibling names passed. *)
Definition BatchCall : Type := FileMeta * option (list string).

Section Batch.
Context {Oracle : Type}.

(** [classify_file] with its optional arguments; [None] when it raises. *)
Variable classify_file :
  Oracle -> FileMeta -> gmap string FileIndexEntry -> option (list string) ->
  option (list string) -> option (Oracle * ClassificationResult).

(** [dir_to_names.setdefault(f.folder_path, []).append(f.file_name)]. *)
Definition add_name (m : gmap string (list string)) (f : FileMeta)
    : gmap string (list string) :=
  <[folder_path f := default [] (m !! folder_path f) ++ [file_name f]]> m.

Definition dir_to_names (files : list FileMeta) : gmap string (list string) :=
  foldl add_name ∅ files.

(** The names gathered for a file: those of its directory, its own left
    out. *)
Definition siblings (names : gmap string (list string)) (f : FileMeta)
    : list string :=
  filter (fun name => name ≠ file_name f) (default [] (names !! folder_path f)).

(** [siblings if siblings else None]. *)
Definition or_none (l : list string) : option (list string) :=
  match l with [] => None | _ => Some l end.

(** The loop of [classify_files], with the calls it makes as a ghost log;
    the first component is [None] when a call raises. *)
Fixpoint classify_files_loop (names : gmap string (list string))
    (file_index : gmap string FileIndexEntry)
    (ancestor_descriptions : option (list string)) (files : list FileMeta)
    (o : Oracle) (results : gmap string ClassificationResult)
    (calls : list BatchCall)
    : option (Oracle * gmap string ClassificationResult) * list BatchCall :=
  match files with
  | [] => (Some (o, results), calls)
  | file_meta :: rest =>
      let arg := or_none (siblings names file_meta) in
      match classify_file o file_meta file_index ancestor_descriptions arg with
      | None => (None, calls ++ [(file_meta, arg)])
      | Some (o', result) =>
          classify_files_loop names file_index ancestor_descriptions rest o'
            (<[source_path file_meta := result]> results)
            (calls ++ [(file_meta, arg)])
      end
  end.

Definition classify_files (files : list FileMeta)
    (file_index : gmap string FileIndexEntry)
    (ancestor_descriptions : option (list string)) (o : Oracle)
    : option (Oracle * gmap string ClassificationResult) * list BatchCall :=
  classify_files_loop (dir_to_names files) file_index ancestor_descriptions
    files o ∅ [].

End Batch.

(** The other names of the directory of a file, in the order of the list. *)
Definition other_names (files : list FileMeta) (f : FileMeta) : list string :=
  filter (fun name => name ≠ file_name f)
    (map file_name (filter (fun g => folder_path g = folder_path f) files)).

(** * Properties *)

(** ** Strings *)

Lemma nonempty_true (s : string) : nonempty s = true ↔ s ≠ "".
Proof. destruct s; simpl; split; congruence. Qed.

Lemma append_empty_r (s : string) : s +:+ "" = s.
Proof. induction s as [|c s IH]; [done|exact (f_equal (String c) IH)]. Qed.

Lemma replace_char_app (a b : ascii) (s t : string) :
  replace_char a b (s +:+ t) = replace_char a b s +:+ replace_char a b t.
Proof.
  induction s as [|c s IH]; [done|].
  exact (f_equal (String (if Ascii.eqb c a then b else c)) IH).
Qed.

Lemma replace_char_no_separator (s : string) :
  no_separator s = true → replace_char backslash slash s = s.
Proof.
  induction s as [|c s IH]; simpl; [done|].
  intros [[_ Hb%negb_true_iff]%andb_true_iff Hs]%andb_true_iff.
  by rewrite Hb, IH.
Qed.

Lemma no_separator_no_slash (s : string) :
  no_separator s = true → no_slash s = true.
Proof.
  induction s as [|c s IH]; simpl; [done|].
  intros [[Hs _]%andb_true_iff Hr]%andb_true_iff.
  by rewrite Hs, IH.
Qed.

Lemma clean_segment_spec (s : string) :
  clean_segment s = true →
  nonempty s = true ∧ strip s = s ∧ replace_char backslash slash s = s.
Proof.
  unfold clean_segment. rewrite !andb_true_iff, !String.eqb_eq. tauto.
Qed.

Lemma _join_rel_clean (l : list string) :
  Forall (fun s => clean_segment s = true) l → _join_rel l = join "/" l.
Proof.
  intros Hl. unfold _join_rel. f_equal.
  induction Hl as [|p l (Hn & Hs & Hr)%clean_segment_spec _ IH]; [done|].
  rewrite filter_cons_True by (rewrite Hs, Hn; done).
  cbn [map]. by rewrite Hs, Hr, IH.
Qed.

Lemma _join_rel_drop_empty (l1 l2 : list string) :
  _join_rel (l1 ++ "" :: l2) = _join_rel (l1 ++ l2).
Proof.
  unfold _join_rel. rewrite !filter_app. by rewrite filter_cons_False by done.
Qed.

Lemma clean_literals :
  clean_segment "practice" = true ∧ clean_segment "support" = true
  ∧ clean_segment "study" = true ∧ clean_segment "lecture" = true.
Proof. done. Qed.

(** ** Destination paths *)

(** C4, the claim as stated, fails: for a file at the root of the tree the
    top-level folder is the empty string, and [_join_rel] leaves an empty
    part out instead of writing an empty segment. *)
Lemma build_dest_rel_empty_top_counterexample :
  top_level_folder "notes.txt" = ""
  ∧ build_dest_rel "practice" "" "notes.txt" = "practice/notes.txt"
  ∧ build_dest_rel "practice" "" "notes.txt"
    ≠ "practice" +:+ "/" +:+ "" +:+ "/" +:+ "notes.txt".
Proof. repeat split; done. Qed.

(** C4, amended: for a top-level folder name and a tail that are not empty
    and carry neither surrounding white space nor a backslash, practice maps
    to practice/<top>/<tail>, support to support/<top>/<tail>, study under
    "lecture" to study/lecture/<tail> and study under any other folder to
    study/lecture/<top>/<tail>; when the top-level folder is empty its
    segment is left out.  Both the folder-inherited and the file-individual
    mapping are [make_mapping], which applies [build_dest_rel] to the
    category, [top_level_folder] of the source path and the tail. *)
Theorem build_dest_rel_rules (top tail : string) :
  clean_segment top = true → clean_segment tail = true →
  build_dest_rel "practice" top tail = "practice/" +:+ top +:+ "/" +:+ tail
  ∧ build_dest_rel "support" top tail = "support/" +:+ top +:+ "/" +:+ tail
  ∧ build_dest_rel "study" "lecture" tail = "study/lecture/" +:+ tail
  ∧ (top ≠ "lecture" →
     build_dest_rel "study" top tail = "study/lecture/" +:+ top +:+ "/" +:+ tail)
  ∧ build_dest_rel "practice" "" tail = "practice/" +:+ tail
  ∧ build_dest_rel "support" "" tail = "support/" +:+ tail
  ∧ build_dest_rel "study" "" tail = "study/lecture/" +:+ tail
  ∧ (∀ (r : ClassificationResult) (src : string),
       dest_rel (make_mapping r src)
       = build_dest_rel (category_value (category r)) (top_level_folder src)
           (tail_of src (top_level_folder src))).
Proof.
  intros Htop Htail.
  destruct clean_literals as (Hp & Hs & Hst & Hl).
  unfold build_dest_rel. cbn [String.eqb Ascii.eqb Bool.eqb].
  repeat split.
  - by rewrite _join_rel_clean by (repeat constructor; done).
  - by rewrite _join_rel_clean by (repeat constructor; done).
  - by rewrite _join_rel_clean by (repeat constructor; done).
  - intros Hne. apply String.eqb_neq in Hne. rewrite Hne.
    by rewrite _join_rel_clean by (repeat constructor; done).
  - pose proof (_join_rel_drop_empty ["practice"] [tail]) as E; cbn [app] in E; rewrite E.
    by rewrite _join_rel_clean by (repeat constructor; done).
  - pose proof (_join_rel_drop_empty ["support"] [tail]) as E; cbn [app] in E; rewrite E.
    by rewrite _join_rel_clean by (repeat constructor; done).
  - pose proof (_join_rel_drop_empty ["study"; "lecture"] [tail]) as E; cbn [app] in E; rewrite E.
    by rewrite _join_rel_clean by (repeat constructor; done).
Qed.

Lemma build_dest_rel_rules_witness :
  build_dest_rel "study" "hw" "1/a.pdf" = "study/lecture/hw/1/a.pdf".
Proof.
  refine (proj1 (proj2 (proj2 (proj2
    (build_dest_rel_rules "hw" "1/a.pdf" eq_refl eq_refl)))) _).
  discriminate.
Defined.

(** ** Trees *)

Lemma FolderNode_ind' (P : FolderNode → Prop) :
  (∀ p nm fs ch, Forall (fun kc => P (snd kc)) ch → P (Build_FolderNode p nm fs ch)) →
  ∀ n, P n.
Proof.
  intros H. fix IH 1. intros [p nm fs ch]. apply H.
  induction ch as [|[k c] ch IHch]; constructor; [apply IH | apply IHch].
Qed.

Lemma tree_files_eq (n : FolderNode) :
  tree_files n = files n ++ flat_map tree_files (dict_values (children n)).
Proof.
  destruct n as [p nm fs ch]. simpl. f_equal. unfold dict_values.
  induction ch as [|[k c] ch IH]; simpl; [done|]. by rewrite IH.
Qed.

Lemma tree_keys_eq (n : FolderNode) :
  tree_keys n
  = closure_keys (map ItemFolder (dict_values (children n)) ++ map ItemFile (files n)).
Proof.
  destruct n as [p nm fs ch]. unfold closure_keys. simpl.
  rewrite flat_map_app. f_equal.
  - unfold dict_values. induction ch as [|[k c] ch IH]; simpl; [done|]. by rewrite IH.
  - induction fs as [|f fs IH]; simpl; [done|]. by rewrite IH.
Qed.

Lemma folder_count_eq (n : FolderNode) :
  folder_count n = S (list_sum (map folder_count (dict_values (children n)))).
Proof.
  destruct n as [p nm fs ch]. simpl. do 2 f_equal. unfold dict_values.
  by rewrite map_map.
Qed.

Lemma node_weight_eq (n : FolderNode) :
  node_weight n
  = S (length (files n) + list_sum (map node_weight (dict_values (children n)))).
Proof.
  destruct n as [p nm fs ch]. simpl. do 3 f_equal. unfold dict_values.
  by rewrite map_map.
Qed.

Lemma list_sum_app (l1 l2 : list nat) :
  list_sum (l1 ++ l2) = list_sum l1 + list_sum l2.
Proof. induction l1; simpl; lia. Qed.

(** [collect_all_files] visits every folder of the subtree: its fuel
    suffices, and it returns the files of the subtree in some order. *)
Lemma collect_loop_perm (fuel : nat) (q : list FolderNode) (acc : list FileMeta) :
  list_sum (map folder_count q) ≤ fuel →
  collect_loop fuel q acc ≡ₚ acc ++ flat_map tree_files q.
Proof.
  revert q acc. induction fuel as [|k IH]; intros q acc Hfuel.
  - destruct q as [|cur rest]; simpl; [by rewrite app_nil_r|].
    simpl in Hfuel. rewrite folder_count_eq in Hfuel. lia.
  - destruct q as [|cur rest]; simpl; [by rewrite app_nil_r|].
    rewrite IH.
    + rewrite flat_map_app, (tree_files_eq cur), <- !app_assoc.
      apply Permutation_app_head, Permutation_app_head, Permutation_app_comm.
    + simpl in Hfuel. rewrite folder_count_eq in Hfuel.
      rewrite map_app, list_sum_app. lia.
Qed.

Lemma collect_all_files_perm (n : FolderNode) :
  collect_all_files n ≡ₚ tree_files n.
Proof.
  unfold collect_all_files. rewrite collect_loop_perm by (simpl; lia).
  simpl. by rewrite app_nil_r.
Qed.

Lemma elem_of_flat_map {A B : Type} (f : A → list B) (l : list A) (y : B) :
  y ∈ flat_map f l ↔ ∃ x, x ∈ l ∧ y ∈ f x.
Proof.
  rewrite list_elem_of_In, in_flat_map. split.
  - intros (x & Hx & Hy). exists x. by rewrite !list_elem_of_In.
  - intros (x & Hx & Hy). exists x. by rewrite <- !list_elem_of_In.
Qed.

Lemma tree_files_keys (n : FolderNode) :
  ∀ f, f ∈ tree_files n → source_path f ∈ tree_keys n.
Proof.
  induction n as [p nm fs ch IH] using FolderNode_ind'. intros f. simpl.
  rewrite !elem_of_app, !elem_of_flat_map. intros [Hf | ([k c] & Hin & Hf)].
  - right. apply list_elem_of_fmap. eauto.
  - left. exists (k, c). split; [done|]. right.
    rewrite Forall_forall in IH. by apply (IH (k, c)).
Qed.

Lemma all_distinct_NoDup (l : list string) : all_distinct l = true → NoDup l.
Proof.
  induction l as [|x r IH]; simpl; [intros _; apply NoDup_nil_2|].
  intros [Hx Hr]%andb_true_iff. apply NoDup_cons. split; [|by apply IH].
  intros Hin. apply negb_true_iff in Hx.
  assert (existsb (String.eqb x) r = true); [|congruence].
  apply existsb_exists. exists x. split; [by apply list_elem_of_In|].
  apply String.eqb_refl.
Qed.

(** ** Folder statistics *)

Lemma dict_set_keys {V : Type} (k : string) (v : V) (d : list (string * V)) (e : string) :
  e ∈ dict_keys (dict_set k v d) ↔ e = k ∨ e ∈ dict_keys d.
Proof.
  unfold dict_keys. induction d as [|[k' v'] d IH]; simpl.
  - rewrite list_elem_of_singleton. split; [tauto|].
    intros [H|H]; [done|]. by apply elem_of_nil in H.
  - destruct (String.eqb_spec k k') as [->|Hne]; simpl.
    + rewrite !elem_of_cons. tauto.
    + rewrite !elem_of_cons, IH. tauto.
Qed.

Lemma ext_counts_keys (fs : list FileMeta) (d : list (string * nat)) (e : string) :
  e ∈ dict_keys (foldl count_ext d fs)
  ↔ e ∈ dict_keys d ∨ ∃ f, f ∈ fs ∧ file_ext f = e.
Proof.
  revert d. induction fs as [|f fs IH]; intros d; simpl.
  - split; [tauto|]. intros [H|(f & Hf & _)]; [done|]. by apply elem_of_nil in Hf.
  - rewrite IH. unfold count_ext at 1. rewrite dict_set_keys. split.
    + intros [[->|H]|(f' & Hf' & He)]; [right|by left|right].
      * exists f. split; [by left|done].
      * exists f'. split; [by right|done].
    + intros [H|(f' & [->|Hf']%elem_of_cons & He)]; eauto.
Qed.

Lemma size_le_1_iff (X : gset string) :
  size X ≤ 1 ↔ ∀ x y, x ∈ X → y ∈ X → x = y.
Proof.
  split.
  - intros Hsz x y Hx Hy. destruct (decide (x = y)) as [|Hne]; [done|].
    assert (Hsub : ({[x]} ∪ {[y]} : gset string) ⊆ X).
    { intros z [->%elem_of_singleton| ->%elem_of_singleton]%elem_of_union; done. }
    apply subseteq_size in Hsub.
    rewrite size_union in Hsub by set_solver.
    rewrite !size_singleton in Hsub. lia.
  - intros Hall. destruct (set_choose_or_empty X) as [[x Hx]|Hemp].
    + assert (X = {[x]}) as ->.
      { apply set_eq. intros y. rewrite elem_of_singleton. split; [|by intros ->].
        intros Hy. by apply Hall. }
      by rewrite size_singleton.
    + apply size_empty_iff in Hemp. lia.
Qed.

(** C9, the claim as stated, fails: in a folder that holds metadata files
    only, the extensions of those files are still left out, so the folder is
    homogeneous however many distinct extensions it has. *)
Lemma metadata_only_folder_counterexample :
  dict_get "docs" (children (build_tree "" ["docs/a.md"; "docs/b.json"] ∅))
  = Some Sample.docs_folder
  ∧ Forall (fun f => is_metadata_ext (file_ext f) = true)
           (tree_files Sample.docs_folder)
  ∧ map file_ext (tree_files Sample.docs_folder) = [".md"; ".json"]
  ∧ spec_is_homogeneous Sample.docs_folder = false
  ∧ is_homogeneous (compute_folder_stats Sample.docs_folder) = true.
Proof.
  split; [vm_compute; reflexivity|]. split; [by repeat constructor|].
  split; [vm_compute; reflexivity|]. split; vm_compute; reflexivity.
Qed.

(** C9, amended: [compute_folder_stats] sets [is_homogeneous] exactly when
    the files of the subtree have at most one distinct extension outside the
    metadata extensions; the metadata extensions are never counted, so a
    folder that holds nothing else is homogeneous. *)
Theorem is_homogeneous_iff (node : FolderNode) :
  (is_homogeneous (compute_folder_stats node) = true
   ↔ ∀ f1 f2, f1 ∈ tree_files node → f2 ∈ tree_files node →
              is_metadata_ext (file_ext f1) = false →
              is_metadata_ext (file_ext f2) = false →
              file_ext f1 = file_ext f2)
  ∧ ((∀ f, f ∈ tree_files node → is_metadata_ext (file_ext f) = true) →
     is_homogeneous (compute_folder_stats node) = true).
Proof.
  assert (Hiff : is_homogeneous (compute_folder_stats node) = true
   ↔ ∀ f1 f2, f1 ∈ tree_files node → f2 ∈ tree_files node →
              is_metadata_ext (file_ext f1) = false →
              is_metadata_ext (file_ext f2) = false →
              file_ext f1 = file_ext f2).
  { unfold compute_folder_stats. cbn [is_homogeneous].
    rewrite Nat.leb_le, size_le_1_iff.
    assert (Hkey : ∀ e, e ∈ (list_to_set
        (filter (fun e => is_metadata_ext e = false)
           (dict_keys (foldl count_ext [] (collect_all_files node)))) : gset string)
      ↔ is_metadata_ext e = false ∧ ∃ f, f ∈ tree_files node ∧ file_ext f = e).
    { intros e. rewrite elem_of_list_to_set, list_elem_of_filter, ext_counts_keys.
      split.
      - intros (Hm & [Hn|(f & Hf & He)]); [by apply elem_of_nil in Hn|].
        split; [done|]. exists f. by rewrite <- collect_all_files_perm.
      - intros (Hm & f & Hf & He). split; [done|]. right. exists f.
        by rewrite collect_all_files_perm. }
    split.
    - intros Hall f1 f2 Hf1 Hf2 Hm1 Hm2.
      apply Hall; apply Hkey; eauto.
    - intros Hall x y (Hmx & f1 & Hf1 & <-)%Hkey (Hmy & f2 & Hf2 & <-)%Hkey.
      by apply Hall. }
  split; [exact Hiff|].
  intros Hmeta. apply Hiff. intros f1 f2 Hf1 _ Hm1 _.
  rewrite (Hmeta f1 Hf1) in Hm1. done.
Qed.

Lemma is_homogeneous_iff_witness :
  (∀ f, f ∈ tree_files Sample.docs_folder → is_metadata_ext (file_ext f) = true)
  ∧ is_homogeneous (compute_folder_stats Sample.docs_folder) = true.
Proof.
  assert (H : ∀ f, f ∈ tree_files Sample.docs_folder →
                   is_metadata_ext (file_ext f) = true).
  { intros f Hf. simpl in Hf.
    repeat (apply elem_of_cons in Hf as [->|Hf]; [reflexivity|]).
    by apply elem_of_nil in Hf. }
  split; [exact H|].
  exact (proj2 (is_homogeneous_iff Sample.docs_folder) H).
Defined.

(** ** The tree [build_tree] returns *)

Lemma str_app_assoc (a b c : string) : (a +:+ b) +:+ c = a +:+ b +:+ c.
Proof.
  induction a as [|x a IH]; [done|]. exact (f_equal (String x) IH).
Qed.

Lemma split_not_nil (sep : ascii) (s : string) : split sep s ≠ [].
Proof.
  destruct s as [|c r]; simpl; [done|].
  destruct (Ascii.eqb c sep); [done|]. by destruct (split sep r).
Qed.

Lemma join_cons_char (sep : string) (c : ascii) (h : string) (t : list string) :
  join sep (String c h :: t) = String c (join sep (h :: t)).
Proof. by destruct t. Qed.

Lemma join_split (s : string) : join "/" (split slash s) = s.
Proof.
  induction s as [|c r IH]; simpl; [done|].
  destruct (Ascii.eqb_spec c slash) as [->|Hne].
  - pose proof (split_not_nil slash r) as Hnn.
    destruct (split slash r) as [|h t] eqn:E; [done|].
    change (join "/" ("" :: h :: t)) with ("/" +:+ join "/" (h :: t)).
    by rewrite IH.
  - pose proof (split_not_nil slash r) as Hnn.
    destruct (split slash r) as [|h t] eqn:E; [done|].
    by rewrite join_cons_char, IH.
Qed.

Lemma split_no_slash (s : string) :
  Forall (fun p => no_slash p = true) (split slash s).
Proof.
  induction s as [|c r IH]; simpl; [by repeat constructor|].
  destruct (Ascii.eqb c slash) eqn:Hc; [by constructor|].
  destruct (split slash r) as [|h t]; [by repeat constructor; simpl; rewrite Hc|].
  apply Forall_cons in IH as [Hh Ht]. constructor; [|done].
  simpl. by rewrite Hc, Hh.
Qed.

Lemma split_segment (a : string) : no_slash a = true → split slash a = [a].
Proof.
  induction a as [|c a IH]; simpl; [done|].
  intros [Hc Ha]%andb_true_iff. apply negb_true_iff in Hc. rewrite Hc.
  by rewrite IH.
Qed.

Lemma split_app_slash (a rest : string) :
  no_slash a = true → split slash (a +:+ "/" +:+ rest) = a :: split slash rest.
Proof.
  induction a as [|c a IH]; [done|].
  intros [Hc Ha]%andb_true_iff. apply negb_true_iff in Hc.
  change (String c a +:+ "/" +:+ rest) with (String c (a +:+ "/" +:+ rest)).
  cbn [split]. by rewrite Hc, IH.
Qed.

Lemma split_join (l : list string) :
  l ≠ [] → Forall (fun p => no_slash p = true) l → split slash (join "/" l) = l.
Proof.
  induction l as [|a l IH]; [done|]. intros _ [Ha Hl]%Forall_cons.
  destruct l as [|b l]; [by apply split_segment|].
  change (join "/" (a :: b :: l)) with (a +:+ "/" +:+ join "/" (b :: l)).
  rewrite split_app_slash by done. by rewrite IH.
Qed.

Lemma join_inj (l1 l2 : list string) :
  l1 ≠ [] → l2 ≠ [] →
  Forall (fun p => no_slash p = true) l1 → Forall (fun p => no_slash p = true) l2 →
  join "/" l1 = join "/" l2 → l1 = l2.
Proof.
  intros H1 H2 Hs1 Hs2 Heq.
  rewrite <- (split_join l1), <- (split_join l2) by done. by rewrite Heq.
Qed.

Lemma join_snoc (sep : string) (l : list string) (x : string) :
  l ≠ [] → join sep (l ++ [x]) = join sep l +:+ sep +:+ x.
Proof.
  induction l as [|a l IH]; [done|]. intros _.
  destruct l as [|b l]; [done|].
  change (join sep ((a :: b :: l) ++ [x]))
    with (a +:+ sep +:+ join sep ((b :: l) ++ [x])).
  rewrite IH by done.
  change (join sep (a :: b :: l)) with (a +:+ sep +:+ join sep (b :: l)).
  by rewrite !str_app_assoc.
Qed.

Lemma dict_get_elem {V : Type} (k : string) (d : list (string * V)) (v : V) :
  dict_get k d = Some v → (k, v) ∈ d.
Proof.
  induction d as [|[k' v'] d IH]; simpl; [done|].
  destruct (String.eqb_spec k k') as [->|Hne].
  - intros [= ->]. by left.
  - intros H. right. by apply IH.
Qed.

Lemma dict_get_None {V : Type} (k : string) (d : list (string * V)) :
  dict_get k d = None → k ∉ map fst d.
Proof.
  induction d as [|[k' v'] d IH]; simpl; [intros _; apply not_elem_of_nil|].
  destruct (String.eqb_spec k k') as [->|Hne]; [done|].
  intros H. apply not_elem_of_cons. split; [done|]. by apply IH.
Qed.

Lemma dict_set_elem {V : Type} (k : string) (v : V) (d : list (string * V))
    (kv : string * V) :
  kv ∈ dict_set k v d → kv = (k, v) ∨ kv ∈ d.
Proof.
  induction d as [|[k' v'] d IH]; simpl.
  - intros ->%list_elem_of_singleton. by left.
  - destruct (String.eqb_spec k k') as [->|Hne].
    + intros [->|H]%elem_of_cons; [by left|]. right. by right.
    + intros [->|H]%elem_of_cons; [right; by left|].
      destruct (IH H) as [->|H']; [by left|]. right. by right.
Qed.

Lemma dict_set_has {V : Type} (k : string) (v : V) (d : list (string * V)) :
  (k, v) ∈ dict_set k v d.
Proof.
  induction d as [|[k' v'] d IH]; simpl; [by left|].
  destruct (String.eqb_spec k k') as [->|Hne]; [by left|by right].
Qed.

Lemma dict_set_keeps {V : Type} (k : string) (v : V) (d : list (string * V))
    (kv : string * V) :
  kv ∈ d → kv ∈ dict_set k v d ∨ (fst kv = k ∧ dict_get k d = Some (snd kv)).
Proof.
  induction d as [|[k' v'] d IH]; simpl; [by intros ?%elem_of_nil|].
  intros [->|H]%elem_of_cons; simpl.
  - destruct (String.eqb_spec k k') as [->|Hne]; [by right|]. left. by left.
  - destruct (String.eqb_spec k k') as [->|Hne].
    + left. by right.
    + destruct (IH H) as [H'|H']; [left; by right|by right].
Qed.

Lemma dict_set_fst {V : Type} (k : string) (v : V) (d : list (string * V)) :
  map fst (dict_set k v d)
  = match dict_get k d with Some _ => map fst d | None => map fst d ++ [k] end.
Proof.
  induction d as [|[k' v'] d IH]; simpl; [done|].
  destruct (String.eqb_spec k k') as [->|Hne]; simpl; [done|].
  rewrite IH. by destruct (dict_get k d).
Qed.

Lemma path_insert_at (parts agg : list string) (fm : FileMeta) (node : FolderNode) :
  path (insert_at parts agg fm node) = path node
  ∧ name (insert_at parts agg fm node) = name node.
Proof. by destruct parts. Qed.

(** *** The files of the tree are the scanned paths *)

Lemma tree_files_insert_at (parts agg : list string) (fm : FileMeta)
    (node : FolderNode) (f : FileMeta) :
  f ∈ tree_files (insert_at parts agg fm node) → f = fm ∨ f ∈ tree_files node.
Proof.
  revert agg node. induction parts as [|p rest IH]; intros agg node.
  - cbn [insert_at]. rewrite !tree_files_eq. cbn [add_file files children].
    rewrite !elem_of_app, list_elem_of_singleton. tauto.
  - cbn [insert_at]. rewrite (tree_files_eq (set_children _ _)), (tree_files_eq node).
    cbn [set_children files children]. rewrite !elem_of_app. intros [Hf|Hf]; [tauto|].
    apply elem_of_flat_map in Hf as (c & Hc & Hf).
    apply list_elem_of_fmap in Hc as ([k c'] & -> & Hkc). simpl in Hf.
    apply dict_set_elem in Hkc as [[= -> ->]|Hkc].
    + apply IH in Hf as [->|Hf]; [by left|]. right. right.
      destruct (dict_get p (children node)) as [c0|] eqn:Hget.
      * apply elem_of_flat_map. exists c0. split; [|done].
        apply list_elem_of_fmap. exists (p, c0). split; [done|].
        by apply dict_get_elem.
      * simpl in Hf. by apply elem_of_nil in Hf.
    + right. right. apply elem_of_flat_map. exists c'. split; [|done].
      apply list_elem_of_fmap. by exists (k, c').
Qed.

Lemma tree_files_build_tree (root_dir : string) (files_on_disk : list string)
    (file_index : gmap string FileIndexEntry) (f : FileMeta) :
  f ∈ tree_files (build_tree root_dir files_on_disk file_index) →
  ∃ rel, rel ∈ files_on_disk ∧ f = make_file_meta file_index rel.
Proof.
  unfold build_tree.
  assert (H : ∀ l root0,
    f ∈ tree_files (foldl (build_tree_step file_index) root0 l) →
    f ∈ tree_files root0 ∨ ∃ rel, rel ∈ l ∧ f = make_file_meta file_index rel).
  { induction l as [|rel l IH]; intros root0; simpl; [by left|].
    intros [Hf|(rel' & Hrel' & ->)]%IH.
    - unfold build_tree_step in Hf.
      destruct (String.eqb _ _).
      + rewrite tree_files_eq in Hf. cbn [add_file files children] in Hf.
        rewrite <- app_assoc in Hf.
        apply elem_of_app in Hf as [Hf|[->%list_elem_of_singleton|Hf]%elem_of_app].
        * left. rewrite tree_files_eq. apply elem_of_app. by left.
        * right. exists rel. split; [by left|done].
        * left. rewrite tree_files_eq. apply elem_of_app. by right.
      + apply tree_files_insert_at in Hf as [->|Hf]; [|by left].
        right. exists rel. split; [by left|done].
    - right. exists rel'. split; [by right|done]. }
  intros [Hf|Hf]%H; [|done]. simpl in Hf. by apply elem_of_nil in Hf.
Qed.

(** *** The shape of the tree *)

Lemma tree_ok_eq (pos : list string) (n : FolderNode) :
  tree_ok pos n
  ↔ path n = path_at pos
    ∧ Forall (fun f => folder_path f = path n) (files n)
    ∧ NoDup (dict_keys (children n))
    ∧ Forall (fun kc => no_slash (fst kc) = true) (children n)
    ∧ Forall (fun kc => name (snd kc) = fst kc ∧ tree_ok (pos ++ [fst kc]) (snd kc))
             (children n).
Proof.
  destruct n as [p nm fs ch]. simpl.
  assert (H : ∀ l,
    (fix all (l : list (string * FolderNode)) : Prop :=
       match l with
       | [] => True
       | kc :: l' =>
           name (snd kc) = fst kc ∧ tree_ok (pos ++ [fst kc]) (snd kc) ∧ all l'
       end) l
    ↔ Forall (fun kc => name (snd kc) = fst kc ∧ tree_ok (pos ++ [fst kc]) (snd kc)) l).
  { induction l as [|kc l IH]; [by split|]. rewrite Forall_cons, <- IH. tauto. }
  rewrite H. unfold dict_keys. tauto.
Qed.

Lemma path_at_snoc (pos : list string) (k : string) :
  path_at (pos ++ [k]) = match pos with [] => k | _ => path_at pos +:+ "/" +:+ k end.
Proof.
  destruct pos as [|a pos]; [done|].
  change (path_at ((a :: pos) ++ [k])) with (join "/" ((a :: pos) ++ [k])).
  by rewrite join_snoc.
Qed.

Lemma path_at_not_nil (pos : list string) : pos ≠ [] → path_at pos = join "/" pos.
Proof. by destruct pos. Qed.

Lemma insert_at_ok (parts agg : list string) (fm : FileMeta) (node : FolderNode) :
  tree_ok agg node → folder_path fm = path_at (agg ++ parts) →
  Forall (fun p => no_slash p = true) parts →
  tree_ok agg (insert_at parts agg fm node).
Proof.
  revert agg node. induction parts as [|p rest IH]; intros agg node Hok Hfm Hparts.
  - rewrite app_nil_r in Hfm. apply tree_ok_eq in Hok as (Hp & Hfs & Hnd & Hns & Hch).
    apply tree_ok_eq. simpl. split; [done|]. split; [|done].
    apply Forall_app. split; [done|]. repeat constructor. congruence.
  - apply tree_ok_eq in Hok as (Hp & Hfs & Hnd & Hns & Hch).
    apply Forall_cons in Hparts as [Hpns Hparts].
    set (child := match dict_get p (children node) with
                  | Some c => c
                  | None => Build_FolderNode (join "/" (agg ++ [p])) p [] []
                  end).
    assert (Hchild : name child = p ∧ tree_ok (agg ++ [p]) child).
    { unfold child. destruct (dict_get p (children node)) as [c0|] eqn:Hget.
      - apply dict_get_elem in Hget. rewrite Forall_forall in Hch.
        apply (Hch (p, c0)). done.
      - split; [done|]. simpl. split; [|by repeat constructor].
        symmetry. apply path_at_not_nil. by destruct agg. }
    destruct Hchild as [Hname Hcok].
    assert (Hnew : tree_ok (agg ++ [p]) (insert_at rest (agg ++ [p]) fm child)).
    { apply IH; [done| |done]. by rewrite <- app_assoc. }
    apply tree_ok_eq. change (insert_at (p :: rest) agg fm node)
      with (set_children (dict_set p (insert_at rest (agg ++ [p]) fm child)
                            (children node)) node).
    simpl. split; [done|]. split; [done|]. split.
    + unfold dict_keys in *. rewrite dict_set_fst.
      destruct (dict_get p (children node)) eqn:Hget; [done|].
      apply NoDup_app. split; [done|]. split; [|apply NoDup_singleton].
      intros x Hx ->%list_elem_of_singleton. by apply dict_get_None in Hget.
    + split.
      { apply Forall_forall. intros kc [->|Hkc]%dict_set_elem; [done|].
        rewrite Forall_forall in Hns. by apply Hns. }
      apply Forall_forall. intros kc [->|Hkc]%dict_set_elem.
      * simpl. split; [|done].
        by rewrite (proj2 (path_insert_at rest (agg ++ [p]) fm child)).
      * rewrite Forall_forall in Hch. by apply Hch.
Qed.

Lemma folder_of_make (file_index : gmap string FileIndexEntry) (rel : string) :
  folder_path (make_file_meta file_index rel) = folder_of rel.
Proof. done. Qed.

Lemma build_tree_step_ok (file_index : gmap string FileIndexEntry)
    (root : FolderNode) (rel : string) :
  tree_ok [] root → tree_ok [] (build_tree_step file_index root rel).
Proof.
  intros Hok. unfold build_tree_step.
  destruct (String.eqb_spec (folder_of rel) ".") as [Heq|Hne].
  - apply (insert_at_ok [] [] _ root Hok); [|done]. by rewrite folder_of_make, Heq.
  - apply insert_at_ok; [done| |apply split_no_slash]. rewrite folder_of_make. simpl.
    rewrite path_at_not_nil by apply split_not_nil. by rewrite join_split.
Qed.

Lemma build_tree_ok (root_dir : string) (files_on_disk : list string)
    (file_index : gmap string FileIndexEntry) :
  tree_ok [] (build_tree root_dir files_on_disk file_index).
Proof.
  unfold build_tree.
  assert (H : ∀ l root0, tree_ok [] root0 →
                tree_ok [] (foldl (build_tree_step file_index) root0 l)).
  { induction l as [|rel l IH]; intros root0 Hok; simpl; [done|].
    by apply IH, build_tree_step_ok. }
  apply H. simpl. repeat split; constructor.
Qed.

Lemma tree_ok_at (base : list string) (n : FolderNode) (pos : list string)
    (m : FolderNode) :
  tree_ok base n → at_pos n pos m → tree_ok (base ++ pos) m.
Proof.
  intros Hok Hat. revert base Hok.
  induction Hat as [n|n k c pos m Hkc Hat IH]; intros base Hok.
  - by rewrite app_nil_r.
  - apply tree_ok_eq in Hok as (_ & _ & _ & _ & Hch).
    rewrite Forall_forall in Hch. destruct (Hch (k, c) Hkc) as [_ Hc].
    simpl in Hc. specialize (IH (base ++ [k]) Hc).
    by rewrite <- app_assoc in IH.
Qed.

(** *** Where the files are *)

Lemma at_pos_insert_at_old (parts agg : list string) (fm : FileMeta)
    (node : FolderNode) (pos : list string) (m : FolderNode) (f : FileMeta) :
  at_pos node pos m → f ∈ files m →
  ∃ m', at_pos (insert_at parts agg fm node) pos m' ∧ f ∈ files m'.
Proof.
  revert agg node pos m. induction parts as [|p rest IH]; intros agg node pos m Hat Hf.
  - simpl. inversion Hat as [n0|n0 k c pos' m0 Hkc Hat']; subst.
    + exists (add_file fm m). split; [constructor|]. simpl.
      apply elem_of_app. by left.
    + exists m. split; [|done]. by apply (at_below _ k c).
  - change (insert_at (p :: rest) agg fm node)
      with (set_children
              (dict_set p
                 (insert_at rest (agg ++ [p]) fm
                    (match dict_get p (children node) with
                     | Some c => c
                     | None => Build_FolderNode (join "/" (agg ++ [p])) p [] []
                     end)) (children node)) node).
    inversion Hat as [n0|n0 k c pos' m0 Hkc Hat']; subst.
    + eexists. split; [constructor|]. done.
    + destruct (dict_set_keeps p
                  (insert_at rest (agg ++ [p]) fm
                     (match dict_get p (children node) with
                      | Some c => c
                      | None => Build_FolderNode (join "/" (agg ++ [p])) p [] []
                      end)) (children node) (k, c) Hkc) as [Hin|[Hk Hget]].
      * exists m. split; [|done]. by apply (at_below _ k c).
      * simpl in Hk, Hget. subst k. rewrite Hget.
        destruct (IH (agg ++ [p]) c pos' m Hat' Hf) as (m' & Hat'' & Hf').
        exists m'. split; [|done].
        apply (at_below _ p (insert_at rest (agg ++ [p]) fm c)); [|done].
        cbn [set_children children]. apply dict_set_has.
Qed.

Lemma at_pos_insert_at_new (parts agg : list string) (fm : FileMeta)
    (node : FolderNode) :
  ∃ m, at_pos (insert_at parts agg fm node) parts m ∧ fm ∈ files m.
Proof.
  revert agg node. induction parts as [|p rest IH]; intros agg node.
  - exists (add_file fm node). split; [constructor|]. simpl.
    apply elem_of_app. right. by left.
  - simpl.
    destruct (IH (agg ++ [p])
                (match dict_get p (children node) with
                 | Some c => c
                 | None => Build_FolderNode (join "/" (agg ++ [p])) p [] []
                 end)) as (m & Hat & Hf).
    exists m. split; [|done].
    eapply at_below; [|exact Hat]. cbn [set_children children]. apply dict_set_has.
Qed.

Lemma build_tree_places (root_dir : string) (files_on_disk : list string)
    (file_index : gmap string FileIndexEntry) (rel : string) :
  rel ∈ files_on_disk →
  ∃ m, at_pos (build_tree root_dir files_on_disk file_index) (position_of rel) m
       ∧ make_file_meta file_index rel ∈ files m.
Proof.
  unfold build_tree.
  assert (Hstep : ∀ root rel', build_tree_step file_index root rel'
    = insert_at (position_of rel') [] (make_file_meta file_index rel') root).
  { intros root rel'. unfold build_tree_step, position_of.
    by destruct (String.eqb _ _). }
  assert (H : ∀ l root0,
    (rel ∈ l ∨ ∃ m, at_pos root0 (position_of rel) m
                    ∧ make_file_meta file_index rel ∈ files m) →
    ∃ m, at_pos (foldl (build_tree_step file_index) root0 l) (position_of rel) m
         ∧ make_file_meta file_index rel ∈ files m).
  { induction l as [|rel' l IH]; intros root0; simpl.
    - intros [Hin|H]; [by apply elem_of_nil in Hin|done].
    - intros [[->|Hin]%elem_of_cons|(m & Hat & Hf)]; apply IH.
      + right. rewrite Hstep. apply at_pos_insert_at_new.
      + by left.
      + right. rewrite Hstep. by apply (at_pos_insert_at_old _ _ _ _ _ m). }
  intros Hin. apply H. by left.
Qed.

(** *** No folder lies below itself *)

Lemma child_weight (n : FolderNode) (k : string) (c : FolderNode) :
  (k, c) ∈ children n → node_weight c < node_weight n.
Proof.
  intros Hkc. rewrite (node_weight_eq n).
  assert (Hc : c ∈ dict_values (children n)).
  { apply list_elem_of_fmap. by exists (k, c). }
  induction (dict_values (children n)) as [|c' l IH]; [by apply elem_of_nil in Hc|].
  apply elem_of_cons in Hc as [->|Hc]; simpl; [lia|].
  specialize (IH Hc). lia.
Qed.

Lemma at_pos_weight (n : FolderNode) (pos : list string) (m : FolderNode) :
  at_pos n pos m → node_weight m + length pos ≤ node_weight n.
Proof.
  induction 1 as [n|n k c pos m Hkc Hat IH]; simpl; [lia|].
  apply child_weight in Hkc. lia.
Qed.

(** C8, the claim as stated, fails: the root has the path "." while a
    folder directly below it has its bare name as its path, not the path of
    the root followed by "/" and the name. *)
Lemma top_level_path_counterexample :
  let root := build_tree "" ["a/x.txt"] ∅ in
  ∃ c, dict_get "a" (children root) = Some c
       ∧ path root = "." ∧ name c = "a" ∧ path c = "a"
       ∧ path c ≠ path root +:+ "/" +:+ name c.
Proof.
  cbn zeta. exists (Build_FolderNode "a" "a" [make_file_meta ∅ "a/x.txt"] []).
  split; [vm_compute; reflexivity|]. split; [vm_compute; reflexivity|].
  split; [reflexivity|]. split; [reflexivity|].
  assert (E : path (build_tree "" ["a/x.txt"] ∅) = ".") by (vm_compute; reflexivity).
  rewrite E. discriminate.
Qed.

(** C8, amended: in the tree [build_tree] returns the root has the path ".";
    a folder directly below the root has its name as its path and any deeper
    folder has the path of its parent, "/" and its name; under every folder
    the children are keyed by their names, each name once; every file lies
    in the folder whose path is the directory part of its own path, and
    every scanned path has its file in the folder at the position its
    directory part names; no folder of the tree lies below itself. *)
Theorem build_tree_shape (root_dir : string) (files_on_disk : list string)
    (file_index : gmap string FileIndexEntry) :
  let root := build_tree root_dir files_on_disk file_index in
  path root = "."
  ∧ (∀ pos n, at_pos root pos n →
       NoDup (dict_keys (children n))
       ∧ (∀ k c, (k, c) ∈ children n →
            name c = k
            ∧ path c = match pos with
                       | [] => name c
                       | _ => path n +:+ "/" +:+ name c
                       end)
       ∧ (∀ f, f ∈ files n → folder_path f = path n))
  ∧ (∀ rel, rel ∈ files_on_disk →
       ∃ n, at_pos root (position_of rel) n
            ∧ path n = folder_of rel
            ∧ make_file_meta file_index rel ∈ files n)
  ∧ (∀ pos n below, at_pos root pos n → at_pos n below n → below = []).
Proof.
  intros root. pose proof (build_tree_ok root_dir files_on_disk file_index) as Hok.
  fold root in Hok. split; [|split; [|split]]; cycle 3.
  { intros pos n below _ Hloop. apply at_pos_weight in Hloop.
    destruct below; [done|]. simpl in Hloop. lia. }
  - by apply tree_ok_eq in Hok as (-> & _).
  - intros pos n Hat. pose proof (tree_ok_at [] root pos n Hok Hat) as Hn.
    simpl in Hn. apply tree_ok_eq in Hn as (Hp & Hfs & Hnd & _ & Hch).
    split; [done|]. split.
    + intros k c Hkc. rewrite Forall_forall in Hch.
      destruct (Hch (k, c) Hkc) as [Hname Hc]. simpl in Hname, Hc.
      split; [done|]. apply tree_ok_eq in Hc as (-> & _).
      rewrite path_at_snoc, Hname, Hp. by destruct pos.
    + intros f Hf. rewrite Forall_forall in Hfs. by apply Hfs.
  - intros rel Hrel.
    destruct (build_tree_places root_dir files_on_disk file_index rel Hrel)
      as (m & Hat & Hf).
    exists m. split; [done|]. split; [|done].
    pose proof (tree_ok_at [] root _ m Hok Hat) as Hm.
    apply tree_ok_eq in Hm as (_ & Hfs & _).
    rewrite Forall_forall in Hfs. by rewrite <- (Hfs _ Hf).
Qed.

(** ** The keys of a tree built from a scan are all different *)

Lemma tree_folder_paths_in (n : FolderNode) (p : string) :
  p ∈ tree_folder_paths n
  ↔ ∃ k c, (k, c) ∈ children n ∧ (p = path c ∨ p ∈ tree_folder_paths c).
Proof.
  destruct n as [pn nm fs ch]. simpl. rewrite elem_of_flat_map. split.
  - intros ([k c] & Hkc & Hp). exists k, c. split; [done|].
    simpl in Hp. by apply elem_of_cons in Hp.
  - intros (k & c & Hkc & Hp). exists (k, c). split; [done|].
    simpl. by apply elem_of_cons.
Qed.

(** Every folder path below the folder at [pos] spells a position that
    starts with [pos] and goes on with the key of a child. *)
Lemma tree_folder_paths_form (n : FolderNode) :
  ∀ pos p, tree_ok pos n → p ∈ tree_folder_paths n →
    ∃ k q, k ∈ dict_keys (children n)
           ∧ Forall (fun s => no_slash s = true) (k :: q)
           ∧ p = join "/" (pos ++ k :: q).
Proof.
  induction n as [pn nm fs ch IH] using FolderNode_ind'.
  intros pos p Hok Hp.
  apply tree_ok_eq in Hok as (_ & _ & _ & Hns & Hch). simpl in Hns, Hch.
  apply tree_folder_paths_in in Hp as (k & c & Hkc & Hp). simpl in Hkc.
  rewrite Forall_forall in IH, Hns, Hch.
  specialize (Hns (k, c) Hkc). destruct (Hch (k, c) Hkc) as [_ Hc].
  simpl in Hns, Hc. exists k.
  assert (Hk : k ∈ dict_keys (children (Build_FolderNode pn nm fs ch))).
  { apply list_elem_of_fmap. by exists (k, c). }
  destruct Hp as [->|Hp].
  - exists []. split; [done|]. split; [by repeat constructor|].
    apply tree_ok_eq in Hc as (-> & _). apply path_at_not_nil. by destruct pos.
  - destruct (IH (k, c) Hkc (pos ++ [k]) p Hc Hp) as (k' & q' & _ & Hq & ->).
    exists (k' :: q'). split; [done|]. split; [by constructor|].
    by rewrite <- app_assoc.
Qed.

Lemma tree_folder_paths_NoDup (n : FolderNode) :
  ∀ pos, tree_ok pos n → Forall (fun s => no_slash s = true) pos →
         NoDup (tree_folder_paths n).
Proof.
  induction n as [pn nm fs ch IH] using FolderNode_ind'.
  intros pos Hok Hpos.
  apply tree_ok_eq in Hok as (_ & _ & Hnd & Hns & Hch).
  simpl in Hnd, Hns, Hch. unfold dict_keys in Hnd. simpl.
  assert (Hform : ∀ k c p, (k, c) ∈ ch → p ∈ path c :: tree_folder_paths c →
            ∃ q, Forall (fun s => no_slash s = true) q
                 ∧ p = join "/" (pos ++ k :: q)
                 ∧ (p = path c → q = [])).
  { intros k c p Hkc Hp. rewrite Forall_forall in Hns, Hch.
    specialize (Hns (k, c) Hkc). destruct (Hch (k, c) Hkc) as [_ Hc].
    simpl in Hns, Hc.
    assert (Hpc : path c = join "/" (pos ++ [k])).
    { apply tree_ok_eq in Hc as (-> & _). apply path_at_not_nil. by destruct pos. }
    apply elem_of_cons in Hp as [->|Hp].
    - exists []. split; [done|]. done.
    - destruct (tree_folder_paths_form c (pos ++ [k]) p Hc Hp)
        as (k' & q' & _ & Hq & ->).
      exists (k' :: q'). split; [done|]. split; [by rewrite <- app_assoc|].
      rewrite Hpc. intros Heq. apply join_inj in Heq.
      + apply (f_equal length) in Heq. rewrite !length_app in Heq.
        simpl in Heq. lia.
      + by destruct pos.
      + by destruct pos.
      + apply Forall_app. split; [apply Forall_app; split; [done|]|done].
        by repeat constructor.
      + apply Forall_app. split; [done|]. by repeat constructor. }
  induction ch as [|[k c] ch IHch]; simpl; [apply NoDup_nil_2|].
  apply Forall_cons in IH as [IHc IHrest].
  apply Forall_cons in Hns as [Hk Hns]. apply Forall_cons in Hch as [[_ Hc] Hch].
  apply NoDup_cons in Hnd as [Hknew Hnd]. simpl in IHc, Hk, Hc.
  assert (Hblock : NoDup (path c :: tree_folder_paths c)).
  { apply NoDup_cons. split.
    - intros Hin.
      destruct (tree_folder_paths_form c (pos ++ [k]) (path c) Hc Hin)
        as (k' & q' & _ & Hq & Heq).
      assert (Hpc : path c = join "/" (pos ++ [k])).
      { apply tree_ok_eq in Hc as (-> & _). apply path_at_not_nil. by destruct pos. }
      rewrite Hpc in Heq. apply join_inj in Heq.
      + apply (f_equal length) in Heq. rewrite !length_app in Heq.
        simpl in Heq. lia.
      + by destruct pos.
      + by destruct pos.
      + apply Forall_app. split; [done|]. by repeat constructor.
      + apply Forall_app. split; [apply Forall_app; split; [done|]|done].
        by repeat constructor.
    - apply (IHc (pos ++ [k])); [done|].
      apply Forall_app. split; [done|]. by repeat constructor. }
  change (NoDup ((path c :: tree_folder_paths c)
                   ++ flat_map (fun kc => path kc.2 :: tree_folder_paths kc.2) ch)).
  apply NoDup_app. split; [done|]. split.
  - intros p Hp Hp'.
    apply elem_of_flat_map in Hp' as ([k2 c2] & Hkc2 & Hp2). simpl in Hp2.
    destruct (Hform k c p (list_elem_of_here _ _) Hp) as (q & Hq & Hpq & _).
    destruct (Hform k2 c2 p (list_elem_of_further _ _ _ Hkc2) Hp2)
      as (q2 & Hq2 & Hpq2 & _).
    rewrite Hpq in Hpq2. apply join_inj in Hpq2.
    + apply app_inv_head in Hpq2. injection Hpq2 as -> _.
      apply Hknew. apply list_elem_of_fmap. by exists (k2, c2).
    + by destruct pos.
    + by destruct pos.
    + apply Forall_app. split; [done|]. by constructor.
    + apply Forall_app. split; [done|]. constructor; [|done].
      rewrite Forall_forall in Hns. by apply (Hns (k2, c2)).
  - apply IHch; [done..| ].
    intros k' c' p Hkc' Hp. apply (Hform k' c' p); [by right|done].
Qed.

(** The folders [build_tree] creates are the directories of the scanned
    paths. *)
Lemma tree_folder_paths_insert_at (parts agg : list string) (fm : FileMeta)
    (node : FolderNode) (p : string) :
  p ∈ tree_folder_paths (insert_at parts agg fm node) →
  p ∈ tree_folder_paths node
  ∨ p ∈ map (join "/") (map (app agg) (prefixes parts)).
Proof.
  revert agg node. induction parts as [|s rest IH]; intros agg node.
  - cbn [insert_at]. rewrite !tree_folder_paths_in. cbn [add_file children]. tauto.
  - cbn [insert_at]. rewrite (tree_folder_paths_in (set_children _ _)).
    cbn [set_children children].
    intros (k & c & Hkc & Hp).
    apply dict_set_elem in Hkc as [[= -> ->]|Hkc].
    2:{ left. apply tree_folder_paths_in. eauto. }
    rewrite (proj1 (path_insert_at rest (agg ++ [s]) fm _)) in Hp.
    cbn [prefixes map].
    assert (Hmap : map (join "/") (map (app agg) (map (cons s) (prefixes rest)))
                   = map (join "/") (map (app (agg ++ [s])) (prefixes rest))).
    { rewrite !map_map. apply map_ext. intros l. by rewrite <- app_assoc. }
    rewrite Hmap.
    destruct (dict_get s (children node)) as [c0|] eqn:Hget.
    + apply dict_get_elem in Hget. destruct Hp as [->|Hp].
      * left. apply tree_folder_paths_in. eauto.
      * apply IH in Hp as [Hp|Hp].
        -- left. apply tree_folder_paths_in. eauto.
        -- right. by right.
    + simpl path in Hp. destruct Hp as [->|Hp].
      * right. by left.
      * apply IH in Hp as [Hp|Hp]; [by apply elem_of_nil in Hp|].
        right. by right.
Qed.

Lemma build_tree_step_eq (file_index : gmap string FileIndexEntry)
    (root : FolderNode) (rel : string) :
  build_tree_step file_index root rel
  = insert_at (position_of rel) [] (make_file_meta file_index rel) root.
Proof. unfold build_tree_step, position_of. by destruct (String.eqb _ _). Qed.

Lemma tree_folder_paths_build_tree (root_dir : string) (files_on_disk : list string)
    (file_index : gmap string FileIndexEntry) (p : string) :
  p ∈ tree_folder_paths (build_tree root_dir files_on_disk file_index) →
  p ∈ flat_map dir_paths files_on_disk.
Proof.
  unfold build_tree.
  assert (H : ∀ l root0,
    p ∈ tree_folder_paths (foldl (build_tree_step file_index) root0 l) →
    p ∈ tree_folder_paths root0 ∨ p ∈ flat_map dir_paths l).
  { induction l as [|rel l IH]; intros root0; simpl; [by left|].
    intros [Hp|Hp]%IH; [|right; apply elem_of_app; by right].
    rewrite build_tree_step_eq in Hp.
    apply tree_folder_paths_insert_at in Hp as [Hp|Hp]; [by left|].
    right. apply elem_of_app. left. unfold dir_paths.
    rewrite (map_ext (app []) id) in Hp by done. by rewrite map_id in Hp. }
  intros [Hp|Hp]%H; [|done]. simpl in Hp. by apply elem_of_nil in Hp.
Qed.

(** The files of the tree are the scanned paths, each once. *)
Lemma flat_map_dict_set_perm {A : Type} (F : FolderNode → list A) (k : string)
    (c' : FolderNode) (ch : list (string * FolderNode)) (x : A) :
  F c'
  ≡ₚ x :: match dict_get k ch with Some c => F c | None => [] end →
  flat_map F (dict_values (dict_set k c' ch))
  ≡ₚ x :: flat_map F (dict_values ch).
Proof.
  unfold dict_values. induction ch as [|[k' v'] ch IH]; simpl; intros Hc.
  - by rewrite app_nil_r.
  - destruct (String.eqb_spec k k') as [->|Hne]; simpl.
    + by rewrite Hc.
    + rewrite IH by done. by rewrite Permutation_middle.
Qed.

Lemma tree_files_insert_at_perm (parts agg : list string) (fm : FileMeta)
    (node : FolderNode) :
  tree_files (insert_at parts agg fm node) ≡ₚ fm :: tree_files node.
Proof.
  revert agg node. induction parts as [|s rest IH]; intros agg node.
  - cbn [insert_at]. rewrite !tree_files_eq. cbn [add_file files children].
    rewrite <- app_assoc. simpl. by rewrite <- Permutation_middle.
  - cbn [insert_at]. rewrite (tree_files_eq (set_children _ _)), (tree_files_eq node).
    cbn [set_children files children].
    rewrite (flat_map_dict_set_perm tree_files s _ (children node) fm).
    + by rewrite <- Permutation_middle.
    + rewrite IH. by destruct (dict_get s (children node)).
Qed.

Lemma tree_files_build_tree_perm (root_dir : string) (files_on_disk : list string)
    (file_index : gmap string FileIndexEntry) :
  map source_path (tree_files (build_tree root_dir files_on_disk file_index))
  ≡ₚ files_on_disk.
Proof.
  unfold build_tree.
  assert (H : ∀ l root0,
    map source_path (tree_files (foldl (build_tree_step file_index) root0 l))
    ≡ₚ l ++ map source_path (tree_files root0)).
  { induction l as [|rel l IH]; intros root0; simpl; [done|].
    rewrite IH, build_tree_step_eq, tree_files_insert_at_perm. simpl.
    by rewrite <- Permutation_middle. }
  rewrite H. simpl. by rewrite app_nil_r.
Qed.

Lemma tree_keys_perm (n : FolderNode) :
  tree_keys n ≡ₚ tree_folder_paths n ++ map source_path (tree_files n).
Proof.
  induction n as [p nm fs ch IH] using FolderNode_ind'. simpl.
  rewrite map_app.
  assert (H : flat_map (fun kc => path kc.2 :: tree_keys kc.2) ch
    ≡ₚ flat_map (fun kc => path kc.2 :: tree_folder_paths kc.2) ch
       ++ map source_path (flat_map (fun kc => tree_files kc.2) ch)).
  { induction ch as [|[k c] ch IHch]; simpl; [done|].
    apply Forall_cons in IH as [IHc IHrest]. simpl in IHc.
    rewrite IHch by done. rewrite IHc, map_app.
    apply Permutation_skip. rewrite <- !app_assoc.
    apply Permutation_app_head.
    rewrite !app_assoc. apply Permutation_app_tail, Permutation_app_comm. }
  rewrite H, <- !app_assoc. apply Permutation_app_head, Permutation_app_comm.
Qed.

Lemma scan_ok_spec (files_on_disk : list string) :
  scan_ok files_on_disk = true →
  NoDup files_on_disk
  ∧ ∀ rel, rel ∈ files_on_disk → rel ∉ flat_map dir_paths files_on_disk.
Proof.
  unfold scan_ok. intros [Hd Hf]%andb_true_iff. split; [by apply all_distinct_NoDup|].
  intros rel Hrel Hin. rewrite forallb_forall in Hf.
  specialize (Hf rel (proj1 (list_elem_of_In _ _) Hrel)).
  apply negb_true_iff in Hf.
  assert (existsb (String.eqb rel) (flat_map dir_paths files_on_disk) = true);
    [|congruence].
  apply existsb_exists. exists rel. split; [by apply list_elem_of_In|].
  apply String.eqb_refl.
Qed.

(** The tree built from a scan has a different key for every folder and
    every file. *)
Lemma build_tree_keys_distinct (root_dir : string) (files_on_disk : list string)
    (file_index : gmap string FileIndexEntry) :
  scan_ok files_on_disk = true →
  NoDup (tree_keys (build_tree root_dir files_on_disk file_index)).
Proof.
  intros [Hnd Hdisj]%scan_ok_spec. rewrite tree_keys_perm.
  apply NoDup_app. split; [|split].
  - apply (tree_folder_paths_NoDup _ []); [apply build_tree_ok|done].
  - intros p Hp Hp'. apply tree_folder_paths_build_tree in Hp.
    rewrite tree_files_build_tree_perm in Hp'. by apply (Hdisj p).
  - by rewrite tree_files_build_tree_perm.
Qed.

(** ** Maps written in a loop *)

Section FoldInsert.
Context {V : Type} (g : FileMeta → V).

Local Abbreviation put := (fun (m : gmap string V) (f : FileMeta) =>
  <[source_path f := g f]> m).

Lemma foldl_insert_notin (fs : list FileMeta) (m : gmap string V) (k : string) :
  k ∉ map source_path fs → foldl put m fs !! k = m !! k.
Proof.
  revert m. induction fs as [|f fs IH]; intros m Hk; simpl; [done|].
  simpl in Hk. apply not_elem_of_cons in Hk as [Hne Hk].
  rewrite IH by done. by rewrite lookup_insert_ne.
Qed.

Lemma foldl_insert_in (fs : list FileMeta) (m : gmap string V) (k : string) :
  k ∈ map source_path fs →
  ∃ f, f ∈ fs ∧ source_path f = k ∧ foldl put m fs !! k = Some (g f).
Proof.
  revert m. induction fs as [|f fs IH]; intros m Hk; simpl in *.
  - by apply elem_of_nil in Hk.
  - destruct (decide (k ∈ map source_path fs)) as [Hin|Hnin].
    + destruct (IH (put m f) Hin) as (f' & Hf' & Hk' & Hl).
      exists f'. split; [by right|]. done.
    + apply elem_of_cons in Hk as [->|Hk]; [|done].
      exists f. split; [by left|]. split; [done|].
      rewrite foldl_insert_notin by done. by rewrite lookup_insert_eq.
Qed.

End FoldInsert.

(** ** The engine, step by step *)

Section EngineProofs.

Context {Oracle DB : Type}.
Variable classify_folder :
  Oracle -> FolderNode -> gmap string FileIndexEntry -> FolderStats ->
  string -> list string -> option (Oracle * ClassificationResult).
Variable classify_file :
  Oracle -> FileMeta -> gmap string FileIndexEntry -> list string ->
  option (Oracle * ClassificationResult).
Variable get_uuids_for_files : DB -> list string -> option (list string).
Variable update_folder_description_bulk :
  DB -> list string -> string -> option (DB * nat).
Variable build_concat_desc :
  list FileMeta -> gmap string FileIndexEntry -> string.
Variable confidence_threshold : Q.
Variable file_index : gmap string FileIndexEntry.

Implicit Type s : @State Oracle DB.

Local Abbreviation process_folder :=
  (_process_folder classify_folder get_uuids_for_files
     update_folder_description_bulk build_concat_desc confidence_threshold).
Local Abbreviation process_file := (_process_file classify_file).
Local Abbreviation propagate :=
  (propagate_description get_uuids_for_files update_folder_description_bulk).
Local Abbreviation visit_item :=
  (visit classify_folder classify_file get_uuids_for_files
     update_folder_description_bulk build_concat_desc confidence_threshold).
Local Abbreviation loop :=
  (bfs_loop classify_folder classify_file get_uuids_for_files
     update_folder_description_bulk build_concat_desc confidence_threshold).
Local Abbreviation run :=
  (bfs_run classify_folder classify_file get_uuids_for_files
     update_folder_description_bulk build_concat_desc confidence_threshold).

Lemma assign_file_fold (n : FolderNode) (r : ClassificationResult)
    (ca : list string) (fs : list FileMeta) s :
  let s' := foldl (assign_file n r ca) s fs in
  classifications s' = assign_classifications n r ca fs (classifications s)
  ∧ mappings s' = assign_mappings r fs (mappings s)
  ∧ task_queue s' = task_queue s ∧ seen s' = seen s
  ∧ oracle_log s' = oracle_log s ∧ db_log s' = db_log s
  ∧ folder_decisions s' = folder_decisions s
  ∧ skipped_folders s' = skipped_folders s
  ∧ ancestor_desc_map s' = ancestor_desc_map s.
Proof.
  revert s. induction fs as [|f fs IH]; intros s; simpl; [done|].
  destruct (IH (assign_file n r ca s f)) as (-> & -> & -> & -> & -> & -> & -> & -> & ->).
  done.
Qed.

(** What the description write leaves behind: at most one logged update,
    nothing else of what the traversal returns. *)
Lemma propagate_description_effect (n : FolderNode) (r : ClassificationResult)
    (fs : list FileMeta) s :
  let s' := outcome_state (propagate n r fs s) in
  task_queue s' = task_queue s ∧ seen s' = seen s
  ∧ classifications s' = classifications s ∧ mappings s' = mappings s
  ∧ oracle_log s' = oracle_log s
  ∧ folder_decisions s' = folder_decisions s
  ∧ skipped_folders s' = skipped_folders s
  ∧ ancestor_desc_map s' = ancestor_desc_map s
  ∧ (db_log s' = db_log s
     ∨ ∃ u, db_log s' = db_log s ++ [(path n, u, folder_description r)]).
Proof.
  unfold propagate_description.
  destruct (nonempty (folder_description r)); [|by repeat split; auto].
  destruct (get_uuids_for_files _ _) as [[|u us]|]; [by repeat split; auto| |by repeat split; auto].
  simpl. destruct (update_folder_description_bulk _ _ _) as [[db' c]|]; simpl;
    repeat split; eauto.
Qed.

(** The one place where [visit] is unfolded: what a turn of the loop does
    to the state, case by case of the decision. *)
Lemma visit_cases (item : Item) s :
  item_key item ∉ seen s →
  let o := visit_item item file_index s in
  let s' := outcome_state o in
  seen s' = {[item_key item]} ∪ seen s
  ∧ ∃ r, oracle_log s' = oracle_log s ++ [(item, r)]
    ∧ match item, r with
      | _, None =>
          o = Raised s' ∧ task_queue s' = task_queue s
          ∧ classifications s' = classifications s
          ∧ mappings s' = mappings s ∧ db_log s' = db_log s
      | ItemFile f, Some res =>
          o = Returned s' ∧ task_queue s' = task_queue s
          ∧ db_log s' = db_log s
          ∧ if bool_decide (category res = SKIP)
            then classifications s' = classifications s
                 ∧ mappings s' = mappings s
            else classifications s'
                 = <[source_path f :=
                       file_classification f res
                         (default [] (ancestor_desc_map s !! folder_path f))]>
                     (classifications s)
                 ∧ mappings s'
                   = <[source_path f := make_mapping res (source_path f)]>
                       (mappings s)
      | ItemFolder n, Some res =>
          let anc := default [] (ancestor_desc_map s !! path n) in
          if confident_skip confidence_threshold res
          then o = Returned s' ∧ task_queue s' = task_queue s
               ∧ classifications s'
                 = <[path n := folder_classification n SKIP res "" anc]>
                     (classifications s)
               ∧ mappings s' = mappings s ∧ db_log s' = db_log s
          else if descends confidence_threshold res
          then o = Returned s'
               ∧ task_queue s'
                 = task_queue s ++ map ItemFolder (dict_values (children n))
                     ++ map ItemFile (files n)
               ∧ classifications s'
                 = <[path n :=
                       folder_classification n (category res) res " [descended]" anc]>
                     (classifications s)
               ∧ mappings s' = mappings s ∧ db_log s' = db_log s
          else category res ≠ SKIP ∧ is_mixed res = false
               ∧ task_queue s' = task_queue s
               ∧ (db_log s' = db_log s
                  ∨ ∃ u, db_log s'
                         = db_log s ++ [(path n, u, folder_description res)])
               ∧ ((o = Raised s'
                   ∧ classifications s'
                     = <[path n := folder_classification n (category res) res "" anc]>
                         (classifications s)
                   ∧ mappings s' = mappings s)
                  ∨ (o = Returned s'
                     ∧ classifications s'
                       = assign_classifications n res (child_ancestors_of anc res)
                           (collect_all_files n)
                           (<[path n := folder_classification n (category res) res "" anc]>
                              (classifications s))
                     ∧ mappings s'
                       = assign_mappings res (collect_all_files n) (mappings s)))
      end.
Proof.
  intros Hk. unfold visit. rewrite bool_decide_eq_false_2 by done.
  destruct item as [n|f].
  - unfold _process_folder. cbn [seen ancestor_desc_map set_seen oracle].
    destruct (classify_folder _ _ _ _ _ _) as [[o' res]|]; cbn zeta.
    2:{ simpl. split; [done|]. exists None. done. }
    destruct (bool_decide (category res = SKIP)) eqn:Hskip.
    + destruct (Qle_bool confidence_threshold (confidence res)) eqn:Hconf; simpl.
      * split; [done|]. exists (Some res). split; [done|].
        unfold confident_skip. rewrite Hskip, Hconf. done.
      * split; [done|]. exists (Some res). split; [done|].
        unfold confident_skip, descends. rewrite Hskip, Hconf, orb_true_r. done.
    + rewrite !andb_false_l. cbn iota.
      destruct (negb (is_confident res confidence_threshold) || is_mixed res) eqn:Hd.
      * simpl. split; [done|]. exists (Some res). split; [done|].
        unfold confident_skip, descends. rewrite Hskip, Hd. done.
      * assert (Hcs : confident_skip confidence_threshold res = false)
          by (unfold confident_skip; by rewrite Hskip).
        assert (Hds : descends confidence_threshold res = false)
          by (unfold descends; by rewrite Hskip, Hd).
        apply orb_false_iff in Hd as [_ Hmixed].
        apply bool_decide_eq_false in Hskip.
        match goal with
        | |- context [propagate_description ?a ?b ?c ?d ?e ?s0] =>
            pose proof (propagate_description_effect c d e s0) as Hp;
            destruct (propagate_description a b c d e s0) as [sp|sp] eqn:Hprop
        end.
        -- cbn zeta in Hp. simpl outcome_state in Hp.
           destruct Hp as (Hq & Hs & Hc & Hm & Hl & _ & _ & _ & Hdb).
           pose proof (assign_file_fold n res
             (child_ancestors_of (default [] (ancestor_desc_map s !! path n)) res)
             (collect_all_files n) sp) as Ha.
           cbn zeta in Ha. destruct Ha as (Hc' & Hm' & Hq' & Hs' & Hl' & Hdb' & _).
           unfold child_ancestors_of in *.
           simpl outcome_state. rewrite Hs', Hs. split; [done|].
           exists (Some res). rewrite Hl', Hl. split; [done|].
           rewrite Hcs, Hds.
           split; [done|]. split; [done|]. rewrite Hq', Hq. split; [done|].
           rewrite Hdb'. split; [exact Hdb|]. right.
           rewrite Hc', Hm', Hc, Hm. done.
        -- cbn zeta in Hp. simpl outcome_state in Hp.
           destruct Hp as (Hq & Hs & Hc & Hm & Hl & _ & _ & _ & Hdb).
           simpl outcome_state. rewrite Hs. split; [done|].
           exists (Some res). rewrite Hl. split; [done|].
           rewrite Hcs, Hds.
           split; [done|]. split; [done|]. rewrite Hq. split; [done|].
           split; [exact Hdb|]. left. rewrite Hc, Hm. done.
  - unfold _process_file. cbn [seen ancestor_desc_map set_seen oracle].
    destruct (classify_file _ _ _ _) as [[o' res]|]; cbn zeta.
    2:{ simpl. split; [done|]. exists None. done. }
    destruct (bool_decide (category res = SKIP)) eqn:Hskip; simpl.
    + split; [done|]. exists (Some res). rewrite Hskip. done.
    + split; [done|]. exists (Some res). rewrite Hskip. done.
Qed.

(** *** Termination of the loop *)

Lemma item_weight_pos (item : Item) : 1 ≤ item_weight item.
Proof. destruct item as [n|f]; simpl; [rewrite node_weight_eq|]; lia. Qed.

Lemma queue_weight_app (q1 q2 : list Item) :
  queue_weight (q1 ++ q2) = queue_weight q1 + queue_weight q2.
Proof. unfold queue_weight. by rewrite map_app, list_sum_app. Qed.

Lemma queue_weight_folders (l : list FolderNode) :
  queue_weight (map ItemFolder l) = list_sum (map node_weight l).
Proof. unfold queue_weight. by rewrite map_map. Qed.

Lemma queue_weight_files (l : list FileMeta) :
  queue_weight (map ItemFile l) = length l.
Proof. unfold queue_weight. induction l; simpl; [done|]. by f_equal. Qed.

Lemma visit_weight (item : Item) s s' :
  visit_item item file_index s = Returned s' →
  queue_weight (task_queue s') + 1 ≤ queue_weight (task_queue s) + item_weight item.
Proof.
  intros Hv. pose proof (item_weight_pos item).
  destruct (decide (item_key item ∈ seen s)) as [Hin|Hk].
  - unfold visit in Hv. rewrite bool_decide_eq_true_2 in Hv by done.
    injection Hv as <-. lia.
  - destruct (visit_cases item s Hk) as (_ & r & _ & Hc).
    rewrite Hv in Hc. simpl outcome_state in Hc.
    destruct item as [n|f], r as [res|];
      try (destruct Hc as (_ & -> & _); lia).
    + cbn zeta in Hc.
      destruct (confident_skip _ _); [destruct Hc as (_ & -> & _); lia|].
      destruct (descends _ _).
      * destruct Hc as (_ & -> & _).
        rewrite !queue_weight_app, queue_weight_folders, queue_weight_files.
        simpl. rewrite node_weight_eq. lia.
      * destruct Hc as (_ & _ & -> & _). lia.
Qed.

(** The loop ends: the weight of the queue is enough fuel. *)
Lemma loop_total (fuel : nat) s :
  queue_weight (task_queue s) ≤ fuel → ∃ o, loop fuel file_index s = Some o.
Proof.
  revert s. induction fuel as [|k IH]; intros s Hw.
  - destruct (task_queue s) as [|item rest] eqn:Hq; simpl; rewrite Hq; [eauto|].
    pose proof (item_weight_pos item). unfold queue_weight in Hw. simpl in Hw. lia.
  - simpl. destruct (task_queue s) as [|item rest] eqn:Hq; [eauto|].
    destruct (visit _ _ _ _ _ _ _ _ _) as [s'|s'] eqn:Hv; [|eauto].
    apply IH. apply visit_weight in Hv. simpl in Hv.
    unfold queue_weight in Hw. simpl in Hw. fold (queue_weight rest) in Hw. lia.
Qed.

Lemma run_total (root : FolderNode) (o : Oracle) (d : DB) :
  ∃ out, run root file_index o d = Some out.
Proof. unfold bfs_run. by apply loop_total. Qed.

(** A property kept by every turn holds of the state the loop ends in,
    whether it returns or an exception leaves it. *)
Lemma loop_invariant (P : State → Prop) :
  (∀ item rest s, P s → task_queue s = item :: rest →
      P (outcome_state (visit_item item file_index (set_task_queue rest s)))) →
  ∀ fuel s o, P s → loop fuel file_index s = Some o → P (outcome_state o).
Proof.
  intros Hstep. induction fuel as [|k IH]; intros s o HP Hl; simpl in Hl.
  - destruct (task_queue s); [|done]. by injection Hl as <-.
  - destruct (task_queue s) as [|item rest] eqn:Hq; [by injection Hl as <-|].
    specialize (Hstep item rest s HP Hq).
    destruct (visit _ _ _ _ _ _ _ _ _) as [s'|s'] eqn:Hv.
    + by apply (IH s').
    + by injection Hl as <-.
Qed.

(** *** What a turn may touch *)

Lemma collect_all_files_keys (n : FolderNode) (k : string) :
  k ∈ map source_path (collect_all_files n) → k ∈ tree_keys n.
Proof.
  intros (f & -> & Hf)%list_elem_of_fmap.
  apply tree_files_keys. by rewrite <- collect_all_files_perm.
Qed.

Lemma item_key_closure (item : Item) : item_key item ∈ item_closure item.
Proof. destruct item; simpl; by left. Qed.

(** A turn writes only under the keys the visited item stands for. *)
Lemma visit_frame (item : Item) s (k : string) :
  let s' := outcome_state (visit_item item file_index s) in
  k ∉ item_closure item →
  classifications s' !! k = classifications s !! k
  ∧ mappings s' !! k = mappings s !! k.
Proof.
  intros s' Hk. subst s'.
  destruct (decide (item_key item ∈ seen s)) as [Hin|Hns].
  { unfold visit. by rewrite bool_decide_eq_true_2. }
  destruct (visit_cases item s Hns) as (_ & r & _ & Hc).
  assert (Hne : item_key item ≠ k).
  { intros <-. apply Hk, item_key_closure. }
  destruct item as [n|f], r as [res|]; simpl in Hne.
  - cbn zeta in Hc. destruct (confident_skip _ _).
    { destruct Hc as (_ & _ & -> & -> & _). by rewrite lookup_insert_ne. }
    destruct (descends _ _).
    { destruct Hc as (_ & _ & -> & -> & _). by rewrite lookup_insert_ne. }
    destruct Hc as (_ & _ & _ & _ & [(_ & -> & ->)|(_ & -> & ->)]).
    { by rewrite lookup_insert_ne. }
    assert (Hk' : k ∉ map source_path (collect_all_files n)).
    { intros Hin. apply Hk. right. by apply collect_all_files_keys. }
    unfold assign_classifications, assign_mappings.
    rewrite !foldl_insert_notin by done. by rewrite lookup_insert_ne.
  - by destruct Hc as (_ & _ & -> & -> & _).
  - destruct Hc as (_ & _ & _ & Hc). destruct (bool_decide _).
    + by destruct Hc as (-> & ->).
    + destruct Hc as (-> & ->). by rewrite !lookup_insert_ne.
  - by destruct Hc as (_ & _ & -> & -> & _).
Qed.

(** The queue after a turn: the rest, followed by what lies directly below
    the item when the turn descends. *)
Lemma visit_queue (item : Item) s :
  item_key item ∉ seen s →
  let s' := outcome_state (visit_item item file_index s) in
  task_queue s' = task_queue s
  ∨ ∃ n res, item = ItemFolder n
      ∧ oracle_log s' = oracle_log s ++ [(item, Some res)]
      ∧ confident_skip confidence_threshold res = false
      ∧ task_queue s'
        = task_queue s ++ map ItemFolder (dict_values (children n))
            ++ map ItemFile (files n)
      ∧ classifications s'
        = <[path n := folder_classification n (category res) res " [descended]"
                        (default [] (ancestor_desc_map s !! path n))]>
            (classifications s)
      ∧ mappings s' = mappings s.
Proof.
  intros Hns. destruct (visit_cases item s Hns) as (_ & r & Hl & Hc).
  cbn zeta. destruct item as [n|f], r as [res|].
  - cbn zeta in Hc. destruct (confident_skip _ _) eqn:Hcs.
    { left. by destruct Hc as (_ & -> & _). }
    destruct (descends _ _).
    + right. exists n, res. destruct Hc as (_ & -> & -> & -> & _). done.
    + left. by destruct Hc as (_ & _ & -> & _).
  - left. by destruct Hc as (_ & -> & _).
  - left. by destruct Hc as (_ & -> & _).
  - left. by destruct Hc as (_ & -> & _).
Qed.

(** The decision logged by a turn is the one the classifier returned. *)
Lemma visit_decision (item : Item) s :
  item_key item ∉ seen s →
  oracle_log (outcome_state (visit_item item file_index s))
  = oracle_log s
    ++ [(item, snd <$> consult classify_folder classify_file build_concat_desc
                         file_index item s)].
Proof.
  intros Hk. unfold visit. rewrite bool_decide_eq_false_2 by done.
  destruct item as [n|f]; simpl consult.
  - unfold _process_folder. cbn [seen ancestor_desc_map set_seen oracle].
    destruct (classify_folder _ _ _ _ _ _) as [[o' res]|]; cbn zeta; [|by simpl].
    destruct (bool_decide (category res = SKIP)).
    { by destruct (Qle_bool confidence_threshold (confidence res)); simpl. }
    rewrite !andb_false_l. cbn iota.
    destruct (negb (is_confident res confidence_threshold) || is_mixed res);
      [by simpl|].
    match goal with
    | |- context [propagate_description ?a ?b ?c ?d ?e ?s0] =>
        pose proof (propagate_description_effect c d e s0) as Hp;
        destruct (propagate_description a b c d e s0) as [sp|sp]
    end; cbn zeta in Hp; simpl outcome_state in *;
      destruct Hp as (_ & _ & _ & _ & Hl & _).
    + match goal with
      | |- context [foldl (assign_file ?n0 ?r0 ?ca) sp ?fs] =>
          destruct (assign_file_fold n0 r0 ca fs sp) as (_ & _ & _ & _ & -> & _)
      end.
      by rewrite Hl.
    + by rewrite Hl.
  - unfold _process_file. cbn [seen ancestor_desc_map set_seen oracle].
    destruct (classify_file _ _ _ _) as [[o' res]|]; cbn zeta; [|by simpl].
    by destruct (bool_decide (category res = SKIP)); simpl.
Qed.

End EngineProofs.

(** ** Invariants of the loop *)

Section InvariantProofs.

Context {Oracle DB : Type}.
Variable classify_folder :
  Oracle -> FolderNode -> gmap string FileIndexEntry -> FolderStats ->
  string -> list string -> option (Oracle * ClassificationResult).
Variable classify_file :
  Oracle -> FileMeta -> gmap string FileIndexEntry -> list string ->
  option (Oracle * ClassificationResult).
Variable get_uuids_for_files : DB -> list string -> option (list string).
Variable update_folder_description_bulk :
  DB -> list string -> string -> option (DB * nat).
Variable build_concat_desc :
  list FileMeta -> gmap string FileIndexEntry -> string.
Variable confidence_threshold : Q.
Variable file_index : gmap string FileIndexEntry.

Implicit Type s : @State Oracle DB.

Local Abbreviation visit_item :=
  (visit classify_folder classify_file get_uuids_for_files
     update_folder_description_bulk build_concat_desc confidence_threshold).
Local Abbreviation loop :=
  (bfs_loop classify_folder classify_file get_uuids_for_files
     update_folder_description_bulk build_concat_desc confidence_threshold).
Local Abbreviation run :=
  (bfs_run classify_folder classify_file get_uuids_for_files
     update_folder_description_bulk build_concat_desc confidence_threshold).
Local Abbreviation cases :=
  (visit_cases classify_folder classify_file get_uuids_for_files
     update_folder_description_bulk build_concat_desc confidence_threshold
     file_index).
Local Abbreviation frame :=
  (visit_frame classify_folder classify_file get_uuids_for_files
     update_folder_description_bulk build_concat_desc confidence_threshold
     file_index).
Local Abbreviation queue_after :=
  (visit_queue classify_folder classify_file get_uuids_for_files
     update_folder_description_bulk build_concat_desc confidence_threshold
     file_index).

Lemma closure_keys_app (q1 q2 : list Item) :
  closure_keys (q1 ++ q2) = closure_keys q1 ++ closure_keys q2.
Proof. apply flat_map_app. Qed.

(** *** The visited discipline *)

Lemma inv_visited_step (item : Item) (rest : list Item) s :
  inv_visited s →
  inv_visited (outcome_state (visit_item item file_index (set_task_queue rest s))).
Proof.
  intros [Hnd Hseen].
  destruct (decide (item_key item ∈ seen s)) as [Hin|Hns].
  { unfold visit. simpl seen. rewrite bool_decide_eq_true_2 by done. by split. }
  destruct (cases item (set_task_queue rest s) Hns) as (Hs & r & Hl & _).
  unfold inv_visited, log_keys. rewrite Hs, Hl. simpl seen. simpl oracle_log.
  rewrite map_app. simpl. split.
  - apply NoDup_app. split; [done|]. split; [|apply NoDup_singleton].
    intros k Hk ->%list_elem_of_singleton. apply Hns. by apply Hseen.
  - intros k. rewrite elem_of_union, elem_of_singleton, elem_of_app,
      list_elem_of_singleton, Hseen. unfold call_key. simpl. tauto.
Qed.

Lemma inv_visited_initial (root : FolderNode) (o : Oracle) (d : DB) :
  inv_visited (initial_state root o d).
Proof.
  split; simpl; [apply NoDup_nil_2|]. intros k. set_solver.
Qed.

Lemma log_key_seen s (item : Item) (r : option ClassificationResult) :
  inv_visited s → (item, r) ∈ oracle_log s → item_key item ∈ seen s.
Proof.
  intros [_ Hseen] Hin. apply Hseen. unfold log_keys.
  apply list_elem_of_fmap. by exists (item, r).
Qed.

(** *** The frontier *)

Lemma frontier_head s (item : Item) (rest : list Item) :
  inv_frontier s → task_queue s = item :: rest →
  NoDup (item_closure item) ∧ NoDup (closure_keys rest)
  ∧ (∀ k, k ∈ item_closure item → k ∉ closure_keys rest)
  ∧ (∀ k, k ∈ item_closure item ∨ k ∈ closure_keys rest →
          (k ∉ seen s) ∧ classifications s !! k = None ∧ mappings s !! k = None).
Proof.
  intros [Hnd Hfree] Hq. rewrite Hq in Hnd, Hfree.
  unfold closure_keys in Hnd, Hfree. simpl in Hnd, Hfree.
  apply NoDup_app in Hnd as (H1 & H2 & H3).
  repeat split; try done; apply Hfree, elem_of_app; tauto.
Qed.

Lemma inv_frontier_step (item : Item) (rest : list Item) s :
  inv_frontier s → task_queue s = item :: rest →
  inv_frontier (outcome_state (visit_item item file_index (set_task_queue rest s))).
Proof.
  intros Hfr Hq.
  destruct (frontier_head s item rest Hfr Hq) as (Hnd1 & Hnd2 & Hdisj & Hfree).
  assert (Hns : item_key item ∉ seen (set_task_queue rest s)).
  { apply Hfree. left. apply item_key_closure. }
  destruct (cases item (set_task_queue rest s) Hns) as (Hs & _).
  pose proof (frame item (set_task_queue rest s)) as Hframe.
  cbn zeta in Hframe. simpl classifications in Hframe. simpl mappings in Hframe.
  assert (Hrest : ∀ k, k ∈ closure_keys rest →
    (k ∉ seen (outcome_state (visit_item item file_index (set_task_queue rest s))))
    ∧ classifications (outcome_state (visit_item item file_index (set_task_queue rest s))) !! k = None
    ∧ mappings (outcome_state (visit_item item file_index (set_task_queue rest s))) !! k = None).
  { intros k Hk.
    assert (Hnk : k ∉ item_closure item) by (intros Hin; by apply (Hdisj k)).
    destruct (Hframe k Hnk) as [-> ->].
    destruct (Hfree k (or_intror Hk)) as (Hsn & Hc & Hm).
    split; [|done]. rewrite Hs. simpl seen.
    intros [->%elem_of_singleton|Hin]%elem_of_union; [|done].
    apply Hnk, item_key_closure. }
  destruct (queue_after item (set_task_queue rest s) Hns)
    as [Hqa|(n & res & -> & _ & _ & Hqa & Hc & Hm)].
  - split; rewrite Hqa; simpl task_queue; [done|apply Hrest].
  - simpl in Hnd1. apply NoDup_cons in Hnd1 as [Hpn Hndn].
    split; rewrite Hqa; simpl task_queue;
      rewrite closure_keys_app, <- tree_keys_eq.
    + apply NoDup_app. split; [done|]. split; [|done].
      intros k Hk Hk'. apply (Hdisj k); [by right|done].
    + intros k [Hk|Hk]%elem_of_app; [by apply Hrest|].
      destruct (Hfree k (or_introl (list_elem_of_further _ _ _ Hk))) as (Hsn & Hcl & Hml).
      assert (Hne : path n ≠ k) by (intros <-; done).
      rewrite Hs, Hc, Hm. simpl. rewrite lookup_insert_ne by done.
      split; [|done].
      intros [->%elem_of_singleton|Hin]%elem_of_union; done.
Qed.

(** Shared set-up of the remaining steps: what is known of the head of the
    queue, and that whatever was visited before is out of its reach. *)
Lemma visited_outside s (item : Item) (rest : list Item) (k : string) :
  inv_frontier s → task_queue s = item :: rest →
  k ∈ seen s → k ∉ item_closure item.
Proof.
  intros Hfr Hq Hk Hin.
  destruct (frontier_head s item rest Hfr Hq) as (_ & _ & _ & Hfree).
  by apply (Hfree k (or_introl Hin)).
Qed.

Lemma closure_after (item : Item) (rest : list Item) s (k : string) :
  inv_frontier s → task_queue s = item :: rest →
  k ∈ closure_keys
        (task_queue (outcome_state
           (visit_item item file_index (set_task_queue rest s)))) →
  k ∈ closure_keys (item :: rest).
Proof.
  intros Hfr Hq.
  destruct (frontier_head s item rest Hfr Hq) as (_ & _ & _ & Hfree).
  assert (Hns : item_key item ∉ seen (set_task_queue rest s)).
  { apply Hfree. left. apply item_key_closure. }
  destruct (queue_after item (set_task_queue rest s) Hns)
    as [->|(n & res & -> & _ & _ & -> & _)]; simpl task_queue.
  - unfold closure_keys. simpl. rewrite elem_of_app. tauto.
  - rewrite closure_keys_app, <- tree_keys_eq. unfold closure_keys. simpl.
    rewrite !elem_of_app, elem_of_cons, elem_of_app. tauto.
Qed.

(** *** Pruned subtrees *)

Lemma inv_pruned_step (item : Item) (rest : list Item) s :
  inv_visited s → inv_frontier s → inv_pruned confidence_threshold s →
  task_queue s = item :: rest →
  inv_pruned confidence_threshold
    (outcome_state (visit_item item file_index (set_task_queue rest s))).
Proof.
  intros Hvis Hfr Hpr Hq.
  destruct (frontier_head s item rest Hfr Hq) as (Hnd1 & Hnd2 & Hdisj & Hfree).
  assert (Hns : item_key item ∉ seen (set_task_queue rest s)).
  { apply Hfree. left. apply item_key_closure. }
  destruct (cases item (set_task_queue rest s) Hns) as (Hs & r0 & Hl & Hc).
  pose proof (frame item (set_task_queue rest s)) as Hframe.
  pose proof (closure_after item rest s) as Hclo.
  cbn zeta in Hframe. simpl classifications in Hframe. simpl mappings in Hframe.
  intros n r Hin Hcs. rewrite Hl in Hin. simpl oracle_log in Hin.
  apply elem_of_app in Hin as [Hin|Hin%list_elem_of_singleton].
  - destruct (Hpr n r Hin Hcs) as (Hcl & Hml & Hbelow).
    assert (Hout : path n ∉ item_closure item).
    { apply (visited_outside s item rest); [done..|].
      apply (log_key_seen s (ItemFolder n) (Some r)); done. }
    destruct (Hframe _ Hout) as [-> ->]. split; [done|]. split; [done|].
    intros k Hk. destruct (Hbelow k Hk) as (Hsn & Hqn & Hck & Hmk).
    rewrite Hq in Hqn.
    assert (Hko : k ∉ item_closure item).
    { intros Hk'. apply Hqn. unfold closure_keys. simpl.
      apply elem_of_app. by left. }
    destruct (Hframe _ Hko) as [-> ->].
    split; [|split; [|done]].
    + rewrite Hs. simpl seen.
      intros [->%elem_of_singleton|Hk']%elem_of_union; [|done].
      apply Hko, item_key_closure.
    + intros Hk'. apply Hqn. by apply Hclo.
  - injection Hin as <- <-. cbn zeta in Hc. rewrite Hcs in Hc.
    destruct Hc as (_ & Hqa & Hcl & Hml & _).
    simpl in Hnd1. apply NoDup_cons in Hnd1 as [Hpn Hndn].
    rewrite Hcl, Hml, Hqa. simpl.
    rewrite lookup_insert_eq. simpl. split; [done|].
    split; [apply Hfree; left; by left|].
    intros k Hk.
    destruct (Hfree k (or_introl (list_elem_of_further _ _ _ Hk))) as (Hsn & Hck & Hmk).
    assert (Hne : path n ≠ k) by (intros <-; done).
    rewrite lookup_insert_ne by done. rewrite Hs. simpl seen.
    split; [|split; [|done]].
    + intros [->%elem_of_singleton|Hk']%elem_of_union; done.
    + apply Hdisj. by right.
Qed.

(** *** Dropped files *)

Lemma inv_dropped_step (item : Item) (rest : list Item) s :
  inv_visited s → inv_frontier s → inv_dropped s →
  task_queue s = item :: rest →
  inv_dropped (outcome_state (visit_item item file_index (set_task_queue rest s))).
Proof.
  intros Hvis Hfr Hdr Hq.
  destruct (frontier_head s item rest Hfr Hq) as (Hnd1 & Hnd2 & Hdisj & Hfree).
  assert (Hns : item_key item ∉ seen (set_task_queue rest s)).
  { apply Hfree. left. apply item_key_closure. }
  destruct (cases item (set_task_queue rest s) Hns) as (Hs & r0 & Hl & Hc).
  pose proof (frame item (set_task_queue rest s)) as Hframe.
  cbn zeta in Hframe. simpl classifications in Hframe. simpl mappings in Hframe.
  intros f r Hin Hskip. rewrite Hl in Hin. simpl oracle_log in Hin.
  apply elem_of_app in Hin as [Hin|Hin%list_elem_of_singleton].
  - destruct (Hdr f r Hin Hskip) as (Hcl & Hml).
    assert (Hout : source_path f ∉ item_closure item).
    { apply (visited_outside s item rest); [done..|].
      apply (log_key_seen s (ItemFile f) (Some r)); done. }
    by destruct (Hframe _ Hout) as [-> ->].
  - injection Hin as <- <-.
    destruct Hc as (_ & _ & _ & Hc).
    rewrite bool_decide_eq_true_2 in Hc by done. destruct Hc as [-> ->].
    simpl. apply Hfree. left. by left.
Qed.

(** *** Description updates *)

Lemma inv_db_step (item : Item) (rest : list Item) s :
  inv_db confidence_threshold s →
  inv_db confidence_threshold
    (outcome_state (visit_item item file_index (set_task_queue rest s))).
Proof.
  intros Hdb.
  destruct (decide (item_key item ∈ seen s)) as [Hin|Hns].
  { unfold visit. simpl seen. by rewrite bool_decide_eq_true_2 by done. }
  destruct (cases item (set_task_queue rest s) Hns) as (Hs & r0 & Hl & Hc).
  assert (Hold : ∀ p u d, (p, u, d) ∈ db_log s →
    ∃ n r, (ItemFolder n, Some r)
             ∈ oracle_log (outcome_state
                 (visit_item item file_index (set_task_queue rest s)))
           ∧ path n = p ∧ confident_skip confidence_threshold r = false
           ∧ descends confidence_threshold r = false).
  { intros p u d Hin. destruct (Hdb p u d Hin) as (n & r & Hn & Hrest).
    exists n, r. split; [|done]. rewrite Hl. apply elem_of_app. by left. }
  intros p u d Hin.
  destruct item as [n|f], r0 as [res|];
    try (apply (Hold p u d);
         first [ destruct Hc as (_ & _ & _ & _ & Hd)
               | destruct Hc as (_ & _ & Hd & _) ];
         rewrite Hd in Hin; exact Hin).
  cbn zeta in Hc. destruct (confident_skip _ _) eqn:Hcs.
  { apply (Hold p u d). destruct Hc as (_ & _ & _ & _ & Hd).
    rewrite Hd in Hin. exact Hin. }
  destruct (descends _ _) eqn:Hds.
  { apply (Hold p u d). destruct Hc as (_ & _ & _ & _ & Hd).
    rewrite Hd in Hin. exact Hin. }
  destruct Hc as (_ & _ & _ & [Hd|(u' & Hd)] & _); rewrite Hd in Hin.
  { by apply (Hold p u d). }
  apply elem_of_app in Hin as [Hin|Hin%list_elem_of_singleton].
  { by apply (Hold p u d). }
  injection Hin as -> -> ->. exists n, res. split; [|done].
  rewrite Hl. apply elem_of_app. right. by apply list_elem_of_singleton.
Qed.

(** *** Mappings *)

Lemma item_files_below (n : FolderNode) (f : FileMeta) :
  f ∈ flat_map item_files
        (map ItemFolder (dict_values (children n)) ++ map ItemFile (files n)) →
  f ∈ tree_files n.
Proof.
  rewrite tree_files_eq, flat_map_app, !elem_of_app.
  intros [Hf|Hf]; [right|left].
  - apply elem_of_flat_map in Hf as (it & Hit & Hf).
    apply list_elem_of_fmap in Hit as (c & -> & Hc).
    apply elem_of_flat_map. by exists c.
  - apply elem_of_flat_map in Hf as (it & Hit & Hf).
    apply list_elem_of_fmap in Hit as (f' & -> & Hf').
    simpl in Hf. by apply list_elem_of_singleton in Hf as ->.
Qed.

Lemma inv_mappings_step (root : FolderNode) (item : Item) (rest : list Item) s :
  inv_frontier s → inv_mappings root s →
  task_queue s = item :: rest →
  inv_mappings root
    (outcome_state (visit_item item file_index (set_task_queue rest s))).
Proof.
  intros Hfr [Hfiles Hmap] Hq.
  destruct (frontier_head s item rest Hfr Hq) as (Hnd1 & Hnd2 & Hdisj & Hfree).
  assert (Hns : item_key item ∉ seen (set_task_queue rest s)).
  { apply Hfree. left. apply item_key_closure. }
  destruct (cases item (set_task_queue rest s) Hns) as (Hs & r0 & Hl & Hc).
  pose proof (frame item (set_task_queue rest s)) as Hframe.
  cbn zeta in Hframe. simpl classifications in Hframe. simpl mappings in Hframe.
  rewrite Hq in Hfiles. simpl in Hfiles.
  assert (Hitem : ∀ f, f ∈ item_files item → f ∈ tree_files root).
  { intros f Hf. apply Hfiles, elem_of_app. by left. }
  split.
  - intros f Hf.
    destruct (queue_after item (set_task_queue rest s) Hns)
      as [Hqa|(n & res & -> & _ & _ & Hqa & _)];
      rewrite Hqa in Hf; simpl task_queue in Hf.
    + apply Hfiles, elem_of_app. by right.
    + rewrite flat_map_app in Hf. apply elem_of_app in Hf as [Hf|Hf].
      * apply Hfiles, elem_of_app. by right.
      * apply Hitem. simpl. by apply item_files_below.
  - intros k m Hm.
    destruct (decide (k ∈ item_closure item)) as [Hin|Hout].
    2:{ destruct (Hframe k Hout) as [Hc' Hm']. rewrite Hm' in Hm. rewrite Hc'.
        by apply Hmap. }
    destruct (Hfree k (or_introl Hin)) as (_ & Hcold & Hmold).
    destruct item as [n|f], r0 as [res|].
    + cbn zeta in Hc. destruct (confident_skip _ _).
      { destruct Hc as (_ & _ & _ & Hm' & _). rewrite Hm' in Hm. simpl in Hm. congruence. }
      destruct (descends _ _).
      { destruct Hc as (_ & _ & _ & Hm' & _). rewrite Hm' in Hm. simpl in Hm. congruence. }
      destruct Hc as (Hnskip & _ & _ & _ & [(_ & _ & Hm')|(_ & Hc' & Hm')]).
      { rewrite Hm' in Hm. simpl in Hm. congruence. }
      rewrite Hm' in Hm. rewrite Hc'. simpl mappings in Hm. simpl classifications.
      unfold assign_mappings, assign_classifications in *.
      destruct (decide (k ∈ map source_path (collect_all_files n))) as [Hkin|Hkout].
      2:{ rewrite foldl_insert_notin in Hm by done. congruence. }
      destruct (foldl_insert_in (fun f => make_mapping res (source_path f))
                  (collect_all_files n) (mappings s) k Hkin) as (f & Hf & Hfk & Hlk).
      rewrite Hlk in Hm. injection Hm as <-.
      destruct (foldl_insert_in
                  (inherited_classification n res
                     (child_ancestors_of (default [] (ancestor_desc_map s !! path n)) res))
                  (collect_all_files n)
                  (<[path n := folder_classification n (category res) res ""
                                 (default [] (ancestor_desc_map s !! path n))]>
                     (classifications s)) k Hkin) as (f' & Hf' & Hfk' & Hlk').
      split; [by rewrite Hfk|]. split.
      * exists f. split; [|done]. apply Hitem. simpl.
        by rewrite <- collect_all_files_perm.
      * eexists. split; [exact Hlk'|]. simpl. split; [done|]. split; [done|].
        right. done.
    + destruct Hc as (_ & _ & _ & Hm' & _). rewrite Hm' in Hm. simpl in Hm. congruence.
    + destruct Hc as (_ & _ & _ & Hc).
      destruct (bool_decide (category res = SKIP)) eqn:Hskip.
      { destruct Hc as [_ Hm']. rewrite Hm' in Hm. simpl in Hm. congruence. }
      apply bool_decide_eq_false in Hskip.
      destruct Hc as [Hc' Hm']. rewrite Hm' in Hm. rewrite Hc'.
      simpl in Hin. apply list_elem_of_singleton in Hin as ->.
      simpl in Hm. rewrite lookup_insert_eq in Hm. injection Hm as <-.
      simpl. rewrite lookup_insert_eq. split; [done|]. split.
      * exists f. split; [|done]. apply Hitem. simpl. by left.
      * eexists. split; [done|]. simpl. split; [done|]. split; [done|]. by left.
    + destruct Hc as (_ & _ & _ & Hm' & _). rewrite Hm' in Hm. simpl in Hm. congruence.
Qed.

Lemma category_value_not_skip (c : Category) :
  c ≠ SKIP → category_value c ≠ "skip".
Proof. by destruct c. Qed.

Lemma inv_sources_step (root : FolderNode) (item : Item) (rest : list Item) s :
  inv_sources root s → task_queue s = item :: rest →
  inv_sources root
    (outcome_state (visit_item item file_index (set_task_queue rest s))).
Proof.
  intros [Hfiles Hmap] Hq. rewrite Hq in Hfiles. simpl in Hfiles.
  assert (Hitem : ∀ f, f ∈ item_files item → f ∈ tree_files root).
  { intros f Hf. apply Hfiles, elem_of_app. by left. }
  assert (Hrest : ∀ f, f ∈ flat_map item_files rest → f ∈ tree_files root).
  { intros f Hf. apply Hfiles, elem_of_app. by right. }
  destruct (decide (item_key item ∈ seen s)) as [Hin|Hns].
  { unfold visit. simpl seen. rewrite bool_decide_eq_true_2 by done. by split. }
  destruct (cases item (set_task_queue rest s) Hns) as (Hs & r0 & Hl & Hc).
  split.
  - intros f Hf.
    destruct (queue_after item (set_task_queue rest s) Hns)
      as [Hqa|(n & res & -> & _ & _ & Hqa & _)];
      rewrite Hqa in Hf; simpl task_queue in Hf; [by apply Hrest|].
    rewrite flat_map_app in Hf. apply elem_of_app in Hf as [Hf|Hf].
    + by apply Hrest.
    + apply Hitem. simpl. by apply item_files_below.
  - intros k m Hm. destruct item as [n|f], r0 as [res|].
    + cbn zeta in Hc. destruct (confident_skip _ _).
      { destruct Hc as (_ & _ & _ & Hm' & _). rewrite Hm' in Hm. by apply Hmap. }
      destruct (descends _ _).
      { destruct Hc as (_ & _ & _ & Hm' & _). rewrite Hm' in Hm. by apply Hmap. }
      destruct Hc as (Hnskip & _ & _ & _ & [(_ & _ & Hm')|(_ & _ & Hm')]);
        rewrite Hm' in Hm; [by apply Hmap|].
      simpl mappings in Hm. unfold assign_mappings in Hm.
      destruct (decide (k ∈ map source_path (collect_all_files n))) as [Hkin|Hkout].
      2:{ rewrite foldl_insert_notin in Hm by done. by apply Hmap. }
      destruct (foldl_insert_in (fun f => make_mapping res (source_path f))
                  (collect_all_files n) (mappings s) k Hkin) as (f & Hf & Hfk & Hlk).
      rewrite Hlk in Hm. injection Hm as <-.
      split; [by rewrite Hfk|]. split.
      * exists f. split; [|done]. apply Hitem. simpl.
        by rewrite <- collect_all_files_perm.
      * by apply category_value_not_skip.
    + destruct Hc as (_ & _ & _ & Hm' & _). rewrite Hm' in Hm. by apply Hmap.
    + destruct Hc as (_ & _ & _ & Hc).
      destruct (bool_decide (category res = SKIP)) eqn:Hskip.
      { destruct Hc as [_ Hm']. rewrite Hm' in Hm. by apply Hmap. }
      apply bool_decide_eq_false in Hskip.
      destruct Hc as [_ Hm']. rewrite Hm' in Hm. simpl mappings in Hm.
      destruct (decide (source_path f = k)) as [<-|Hne].
      * rewrite lookup_insert_eq in Hm. injection Hm as <-.
        split; [done|]. split.
        -- exists f. split; [|done]. apply Hitem. simpl. by left.
        -- by apply category_value_not_skip.
      * rewrite lookup_insert_ne in Hm by done. by apply Hmap.
    + destruct Hc as (_ & _ & _ & Hm' & _). rewrite Hm' in Hm. by apply Hmap.
Qed.

Lemma inv_sources_initial (root : FolderNode) (o : Oracle) (d : DB) :
  inv_sources root (initial_state root o d).
Proof.
  split.
  - intros f Hf. simpl in Hf. by apply item_files_below.
  - intros k m Hm. simpl in Hm. done.
Qed.

(** *** All of them together *)

Lemma inv_all_step (root : FolderNode) (item : Item) (rest : list Item) s :
  inv_all root confidence_threshold s → task_queue s = item :: rest →
  inv_all root confidence_threshold
    (outcome_state (visit_item item file_index (set_task_queue rest s))).
Proof.
  intros (Hvis & Hfr & Hpr & Hdr & Hdb & Hmp) Hq.
  refine (conj _ (conj _ (conj _ (conj _ (conj _ _))))).
  - by apply inv_visited_step.
  - by apply inv_frontier_step.
  - by apply inv_pruned_step.
  - by apply inv_dropped_step.
  - by apply inv_db_step.
  - by apply inv_mappings_step.
Qed.

Lemma inv_all_initial (root : FolderNode) (o : Oracle) (d : DB) :
  NoDup (tree_keys root) →
  inv_all root confidence_threshold (initial_state root o d).
Proof.
  intros Hnd.
  refine (conj (inv_visited_initial root o d)
            (conj (conj _ _) (conj _ (conj _ (conj _ (conj _ _)))))).
  - simpl. by rewrite <- tree_keys_eq.
  - intros k _. simpl. split; [set_solver|done].
  - intros n r Hin. simpl in Hin. by apply elem_of_nil in Hin.
  - intros f r Hin. simpl in Hin. by apply elem_of_nil in Hin.
  - intros p u dd Hin. simpl in Hin. by apply elem_of_nil in Hin.
  - intros f Hf. simpl in Hf. by apply item_files_below.
  - intros k m Hm. simpl in Hm. done.
Qed.

(** The loop of [_bfs_classify] ends, and on a tree whose keys are all
    different its final state satisfies every invariant. *)
Lemma run_invariants (root : FolderNode) (o : Oracle) (d : DB) :
  NoDup (tree_keys root) →
  ∃ out, run root file_index o d = Some out
         ∧ inv_all root confidence_threshold (outcome_state out).
Proof.
  intros Hnd.
  destruct (run_total classify_folder classify_file get_uuids_for_files
              update_folder_description_bulk build_concat_desc
              confidence_threshold file_index root o d) as [out Hrun].
  exists out. split; [done|].
  apply (loop_invariant classify_folder classify_file get_uuids_for_files
           update_folder_description_bulk build_concat_desc
           confidence_threshold file_index
           (inv_all root confidence_threshold)) in Hrun; [done| |].
  - intros item rest s. apply inv_all_step.
  - by apply inv_all_initial.
Qed.

Lemma loop_sources (root : FolderNode) (o : Oracle) (d : DB) (out : Outcome) :
  run root file_index o d = Some out → inv_sources root (outcome_state out).
Proof.
  intros Hrun.
  apply (loop_invariant classify_folder classify_file get_uuids_for_files
           update_folder_description_bulk build_concat_desc
           confidence_threshold file_index (inv_sources root)) in Hrun; [done| |].
  - intros item rest s. apply inv_sources_step.
  - apply inv_sources_initial.
Qed.

Lemma run_visited (root : FolderNode) (o : Oracle) (d : DB) :
  ∃ out, run root file_index o d = Some out
         ∧ inv_visited (outcome_state out).
Proof.
  destruct (run_total classify_folder classify_file get_uuids_for_files
              update_folder_description_bulk build_concat_desc
              confidence_threshold file_index root o d) as [out Hrun].
  exists out. split; [done|].
  apply (loop_invariant classify_folder classify_file get_uuids_for_files
           update_folder_description_bulk build_concat_desc
           confidence_threshold file_index inv_visited) in Hrun; [done| |].
  - intros item rest s Hv _. by apply inv_visited_step.
  - apply inv_visited_initial.
Qed.

End InvariantProofs.

(** ** The properties of the traversal *)

Lemma NoDup_fmap_same {A B : Type} (f : A → B) (l : list A) (x y : A) :
  NoDup (map f l) → x ∈ l → y ∈ l → f x = f y → x = y.
Proof.
  induction l as [|a l IH]; simpl; intros Hnd Hx Hy Hxy.
  - by apply elem_of_nil in Hx.
  - apply NoDup_cons in Hnd as [Ha Hnd].
    apply elem_of_cons in Hx as [->|Hx]; apply elem_of_cons in Hy as [->|Hy].
    + done.
    + exfalso. apply Ha. rewrite Hxy. apply list_elem_of_fmap. by exists y.
    + exfalso. apply Ha. rewrite <- Hxy. apply list_elem_of_fmap. by exists x.
    + by apply IH.
Qed.

Lemma count_occ_NoDup_elem (l : list string) (k : string) :
  NoDup l →
  count_occ string_dec l k = if bool_decide (k ∈ l) then 1 else 0.
Proof.
  intros Hnd. case_bool_decide as Hk.
  - apply list_elem_of_In in Hk.
    apply (proj1 (NoDup_count_occ' string_dec l)); [|done].
    by apply NoDup_ListNoDup.
  - apply count_occ_not_In. by rewrite <- list_elem_of_In.
Qed.

Section Claims.

Context {Oracle DB : Type}.
Variable classify_folder :
  Oracle -> FolderNode -> gmap string FileIndexEntry -> FolderStats ->
  string -> list string -> option (Oracle * ClassificationResult).
Variable classify_file :
  Oracle -> FileMeta -> gmap string FileIndexEntry -> list string ->
  option (Oracle * ClassificationResult).
Variable get_uuids_for_files : DB -> list string -> option (list string).
Variable update_folder_description_bulk :
  DB -> list string -> string -> option (DB * nat).
Variable build_concat_desc :
  list FileMeta -> gmap string FileIndexEntry -> string.
Variable confidence_threshold : Q.
Variable file_index : gmap string FileIndexEntry.

Implicit Type s : @State Oracle DB.

Local Abbreviation visit_item :=
  (visit classify_folder classify_file get_uuids_for_files
     update_folder_description_bulk build_concat_desc confidence_threshold).
Local Abbreviation loop :=
  (bfs_loop classify_folder classify_file get_uuids_for_files
     update_folder_description_bulk build_concat_desc confidence_threshold).
Local Abbreviation run :=
  (bfs_run classify_folder classify_file get_uuids_for_files
     update_folder_description_bulk build_concat_desc confidence_threshold).
Local Abbreviation ask :=
  (consult classify_folder classify_file build_concat_desc file_index).
Local Abbreviation cases :=
  (visit_cases classify_folder classify_file get_uuids_for_files
     update_folder_description_bulk build_concat_desc confidence_threshold
     file_index).
Local Abbreviation invariants :=
  (run_invariants classify_folder classify_file get_uuids_for_files
     update_folder_description_bulk build_concat_desc confidence_threshold
     file_index).

(** What [visit_cases] says once the decision is known. *)
Lemma visit_cases_known (item : Item) s (o' : Oracle) (res : ClassificationResult) :
  item_key item ∉ seen s → ask item s = Some (o', res) →
  let o := visit_item item file_index s in
  let s' := outcome_state o in
  match item with
  | ItemFile f =>
      o = Returned s' ∧ task_queue s' = task_queue s ∧ db_log s' = db_log s
      ∧ if bool_decide (category res = SKIP)
        then classifications s' = classifications s ∧ mappings s' = mappings s
        else classifications s'
             = <[source_path f :=
                   file_classification f res
                     (default [] (ancestor_desc_map s !! folder_path f))]>
                 (classifications s)
             ∧ mappings s'
               = <[source_path f := make_mapping res (source_path f)]> (mappings s)
  | ItemFolder n =>
      let anc := default [] (ancestor_desc_map s !! path n) in
      if confident_skip confidence_threshold res
      then o = Returned s' ∧ task_queue s' = task_queue s
           ∧ classifications s'
             = <[path n := folder_classification n SKIP res "" anc]>
                 (classifications s)
           ∧ mappings s' = mappings s ∧ db_log s' = db_log s
      else if descends confidence_threshold res
      then o = Returned s'
           ∧ task_queue s'
             = task_queue s ++ map ItemFolder (dict_values (children n))
                 ++ map ItemFile (files n)
           ∧ classifications s'
             = <[path n :=
                   folder_classification n (category res) res " [descended]" anc]>
                 (classifications s)
           ∧ mappings s' = mappings s ∧ db_log s' = db_log s
      else category res ≠ SKIP ∧ is_mixed res = false
           ∧ task_queue s' = task_queue s
           ∧ (db_log s' = db_log s
              ∨ ∃ u, db_log s' = db_log s ++ [(path n, u, folder_description res)])
           ∧ ((o = Raised s'
               ∧ classifications s'
                 = <[path n := folder_classification n (category res) res "" anc]>
                     (classifications s)
               ∧ mappings s' = mappings s)
              ∨ (o = Returned s'
                 ∧ classifications s'
                   = assign_classifications n res (child_ancestors_of anc res)
                       (collect_all_files n)
                       (<[path n := folder_classification n (category res) res "" anc]>
                          (classifications s))
                 ∧ mappings s'
                   = assign_mappings res (collect_all_files n) (mappings s)))
  end.
Proof.
  intros Hk Hask.
  destruct (cases item s Hk) as (_ & r & Hl & Hc).
  pose proof (visit_decision classify_folder classify_file get_uuids_for_files
                update_folder_description_bulk build_concat_desc
                confidence_threshold file_index item s Hk) as Hd.
  rewrite Hl, Hask in Hd. apply app_inv_head in Hd. injection Hd as ->.
  simpl in Hc. by destruct item.
Qed.

(** C2: the classifier is consulted exactly once for every path that is
    processed, whether folder or file, and never for another path; an item
    whose key is already in the visited set is dropped without any call, so
    no path is classified twice.  The run always ends. *)
Theorem oracle_consulted_once_per_path (root : FolderNode) (o : Oracle) (d : DB) :
  ∃ out, run root file_index o d = Some out
    ∧ NoDup (log_keys (outcome_state out))
    ∧ (∀ k, count_occ string_dec (log_keys (outcome_state out)) k
            = if bool_decide (k ∈ seen (outcome_state out)) then 1 else 0)
    ∧ (∀ item s, item_key item ∈ seen s →
                 visit_item item file_index s = Returned s).
Proof.
  destruct (run_visited classify_folder classify_file get_uuids_for_files
              update_folder_description_bulk build_concat_desc
              confidence_threshold file_index root o d)
    as (out & Hrun & Hnd & Hseen).
  exists out. split; [done|]. split; [done|]. split.
  - intros k. rewrite count_occ_NoDup_elem by done.
    rewrite (bool_decide_ext _ _ (Hseen k)). done.
  - intros item s Hin. unfold visit. by rewrite bool_decide_eq_true_2.
Qed.

(** C1: the turn of a folder the classifier marks Skip with confidence at
    or above the threshold writes the terminal Skip record of that folder
    and nothing else: the record carries the path of the folder, the
    category Skip, the confidence and the reason of the decision as they
    are, without the note of a descent, the level "folder", no parent and the
    ancestor context of the folder; the queue, the mappings and the
    description store are left as they were.  On a tree whose keys are all
    different the traversal therefore ends with that record in place and
    with nothing below such a folder ever queued, visited, submitted to the
    classifier, classified or mapped, with no mapping for the folder itself
    and with no description update made for it. *)
Theorem confident_skip_prunes_subtree :
  (∀ (n : FolderNode) s (o' : Oracle) (r : ClassificationResult),
     path n ∉ seen s → ask (ItemFolder n) s = Some (o', r) →
     category r = SKIP → Qle_bool confidence_threshold (confidence r) = true →
     ∃ s', visit_item (ItemFolder n) file_index s = Returned s'
       ∧ task_queue s' = task_queue s
       ∧ classifications s'
         = <[path n :=
               {| cl_path := path n;
                  cl_category := SKIP;
                  cl_confidence := confidence r;
                  cl_reason := reason r;
                  classified_at_level := "folder";
                  parent_folder := None;
                  ancestor_descriptions :=
                    default [] (ancestor_desc_map s !! path n) |}]>
             (classifications s)
       ∧ mappings s' = mappings s ∧ db_log s' = db_log s)
  ∧ (∀ (root : FolderNode) (o : Oracle) (d : DB),
     NoDup (tree_keys root) →
     ∃ out, run root file_index o d = Some out
       ∧ ∀ n r, (ItemFolder n, Some r) ∈ oracle_log (outcome_state out) →
           category r = SKIP →
           Qle_bool confidence_threshold (confidence r) = true →
           let s := outcome_state out in
           let result := traversal_result s in
           (∃ anc, res_classifications result !! path n
                   = Some {| cl_path := path n;
                             cl_category := SKIP;
                             cl_confidence := confidence r;
                             cl_reason := reason r;
                             classified_at_level := "folder";
                             parent_folder := None;
                             ancestor_descriptions := anc |})
           ∧ res_mappings result !! path n = None
           ∧ (∀ k, k ∈ tree_keys n →
                res_classifications result !! k = None
                ∧ res_mappings result !! k = None
                ∧ (k ∉ seen s) ∧ (k ∉ log_keys s)
                ∧ (k ∉ map item_key (task_queue s)))
           ∧ (∀ u dsc, (path n, u, dsc) ∉ db_log s)).
Proof.
  split.
  { intros n s o' r Hk Hask Hcat Hconf.
    pose proof (visit_cases_known (ItemFolder n) s o' r Hk Hask) as Hc.
    cbn zeta in Hc. unfold confident_skip in Hc.
    rewrite bool_decide_eq_true_2, Hconf in Hc by done. simpl in Hc.
    destruct Hc as (Ho & Hq & Hcl & Hm & Hdb).
    unfold folder_classification in Hcl. rewrite append_empty_r in Hcl.
    eauto 10. }
  intros root o d Hroot.
  destruct (invariants root o d Hroot)
    as (out & Hrun & Hvis & Hfr & Hpr & Hdr & Hdb & Hmp).
  exists out. split; [done|]. intros n r Hin Hcat Hconf s result.
  assert (Hcs : confident_skip confidence_threshold r = true).
  { unfold confident_skip. by rewrite bool_decide_eq_true_2, Hconf. }
  destruct (Hpr n r Hin Hcs) as (Hcl & Hml & Hbelow).
  split.
  { eexists. etransitivity; [exact Hcl|]. unfold folder_classification.
    by rewrite append_empty_r. }
  split; [done|]. split.
  - intros k Hk. destruct (Hbelow k Hk) as (Hsn & Hqn & Hck & Hmk).
    split; [done|]. split; [done|]. split; [done|]. split.
    + intros Hk'. by apply Hsn, Hvis.
    + intros (it & -> & Hit)%list_elem_of_fmap. apply Hqn.
      apply elem_of_flat_map. exists it. split; [done|]. apply item_key_closure.
  - intros u dsc Hu.
    destruct (Hdb _ _ _ Hu) as (n' & r' & Hin' & Hp & Hcs' & _).
    assert (E : (ItemFolder n', Some r') = (ItemFolder n, Some r)).
    { apply (NoDup_fmap_same call_key (oracle_log (outcome_state out)));
        [apply Hvis|done|done|done]. }
    injection E as _ ->. congruence.
Qed.

(** C6: the turn of a file the classifier marks Skip returns without
    writing a classification or a mapping; on a tree whose keys are all
    different, the path of a file that was processed on its own and marked
    Skip is absent from the classifications and from the mappings the
    traversal ends with. *)
Theorem skipped_file_leaves_no_record :
  (∀ (f : FileMeta) s (o' : Oracle) (r : ClassificationResult),
     source_path f ∉ seen s → ask (ItemFile f) s = Some (o', r) →
     category r = SKIP →
     ∃ s', visit_item (ItemFile f) file_index s = Returned s'
       ∧ classifications s' = classifications s
       ∧ mappings s' = mappings s
       ∧ task_queue s' = task_queue s ∧ db_log s' = db_log s)
  ∧ (∀ (root : FolderNode) (o : Oracle) (d : DB),
     NoDup (tree_keys root) →
     ∃ out, run root file_index o d = Some out
       ∧ ∀ f r, (ItemFile f, Some r) ∈ oracle_log (outcome_state out) →
           category r = SKIP →
           let result := traversal_result (outcome_state out) in
           res_classifications result !! source_path f = None
           ∧ res_mappings result !! source_path f = None).
Proof.
  split.
  { intros f s o' r Hk Hask Hcat.
    pose proof (visit_cases_known (ItemFile f) s o' r Hk Hask) as Hc.
    cbn zeta in Hc. rewrite bool_decide_eq_true_2 in Hc by done.
    destruct Hc as (Ho & Hq & Hdb & Hcl & Hm). eauto 10. }
  intros root o d Hroot.
  destruct (invariants root o d Hroot)
    as (out & Hrun & Hvis & Hfr & Hpr & Hdr & Hdb & Hmp).
  exists out. split; [done|]. intros f r Hin Hcat. cbn zeta.
  by apply (Hdr f r).
Qed.

(** C3, amended: when the decision of a folder is mixed, no file receives a
    record from it: the turn writes the folder's own classification and
    nothing else, no mapping and no description update.  Unless the decision
    is a confident Skip, which prunes the subtree and leaves the terminal
    Skip record, the turn descends: the record is the provisional one, which
    carries the category and the confidence of the decision and its reason
    followed by " [descended]", and the child folders and then the immediate
    files join the queue. *)
Theorem mixed_folder_is_never_assigned (n : FolderNode) s (o' : Oracle)
    (r : ClassificationResult) :
  path n ∉ seen s → ask (ItemFolder n) s = Some (o', r) → is_mixed r = true →
  let anc := default [] (ancestor_desc_map s !! path n) in
  ∃ s', visit_item (ItemFolder n) file_index s = Returned s'
    ∧ mappings s' = mappings s ∧ db_log s' = db_log s
    ∧ if confident_skip confidence_threshold r
      then task_queue s' = task_queue s
           ∧ classifications s'
             = <[path n :=
                   {| cl_path := path n;
                      cl_category := SKIP;
                      cl_confidence := confidence r;
                      cl_reason := reason r;
                      classified_at_level := "folder";
                      parent_folder := None;
                      ancestor_descriptions := anc |}]>
                 (classifications s)
      else task_queue s'
           = task_queue s ++ map ItemFolder (dict_values (children n))
               ++ map ItemFile (files n)
           ∧ classifications s'
             = <[path n :=
                   {| cl_path := path n;
                      cl_category := category r;
                      cl_confidence := confidence r;
                      cl_reason := reason r +:+ " [descended]";
                      classified_at_level := "folder";
                      parent_folder := None;
                      ancestor_descriptions := anc |}]>
                 (classifications s).
Proof.
  intros Hk Hask Hmixed anc.
  pose proof (visit_cases_known (ItemFolder n) s o' r Hk Hask) as Hc.
  cbn zeta in Hc. fold anc in Hc.
  assert (Hd : descends confidence_threshold r = true).
  { unfold descends. by rewrite Hmixed, orb_true_r. }
  rewrite Hd in Hc.
  unfold folder_classification in Hc. rewrite append_empty_r in Hc.
  destruct (confident_skip confidence_threshold r).
  - destruct Hc as (Ho & Hq & Hcl & Hm & Hdb). eauto 10.
  - destruct Hc as (Ho & Hq & Hcl & Hm & Hdb). eauto 10.
Qed.

(** C5, amended: when the bulk update of the folder description raises,
    nothing catches the exception: it leaves [_process_folder] and the loop,
    and the traversal ends without a result.  At that point the record of
    the folder itself is in the classifications, and no classification or
    mapping of a file of the subtree has been written, the update being
    called before the loop that writes them. *)
Theorem failed_propagation_ends_the_traversal (n : FolderNode)
    (rest : list Item) s (o' : Oracle) (r : ClassificationResult)
    (u : string) (us : list string) (fuel : nat) :
  task_queue s = ItemFolder n :: rest → path n ∉ seen s →
  ask (ItemFolder n) s = Some (o', r) →
  confident_skip confidence_threshold r = false →
  descends confidence_threshold r = false →
  nonempty (folder_description r) = true →
  get_uuids_for_files (db s) (map file_name (collect_all_files n))
  = Some (u :: us) →
  update_folder_description_bulk (db s) (u :: us) (folder_description r) = None →
  ∃ s', loop (S fuel) file_index s = Some (Raised s')
    ∧ classifications s'
      = <[path n :=
            {| cl_path := path n;
               cl_category := category r;
               cl_confidence := confidence r;
               cl_reason := reason r;
               classified_at_level := "folder";
               parent_folder := None;
               ancestor_descriptions :=
                 default [] (ancestor_desc_map s !! path n) |}]>
          (classifications s)
    ∧ mappings s' = mappings s
    ∧ task_queue s' = rest
    ∧ db_log s' = db_log s ++ [(path n, u :: us, folder_description r)].
Proof.
  intros Hq Hk Hask Hcs Hds Hne Hget Hupd. simpl in Hask.
  unfold confident_skip in Hcs. unfold descends in Hds.
  apply orb_false_iff in Hds as [Hd Hskip].
  simpl. rewrite Hq. unfold visit. simpl seen.
  rewrite bool_decide_eq_false_2 by done.
  unfold _process_folder. cbn [seen ancestor_desc_map set_seen set_task_queue oracle].
  rewrite Hask. cbn zeta. rewrite Hskip, !andb_false_l. cbn iota. rewrite Hd.
  unfold propagate_description. rewrite Hne. simpl db. rewrite Hget.
  cbn zeta. simpl db. rewrite Hupd. eexists. split; [reflexivity|].
  cbn [classifications set_classifications log_db mappings task_queue db_log].
  unfold folder_classification. rewrite append_empty_r. done.
Qed.

(** C10, amended: for a path that has a separator, [top_level_folder]
    returns its first segment, the part before the first slash or backslash;
    for a path that has none, a file at the root of the tree, it returns the
    empty string.  The mapping of an individually processed file carries
    this value as its top folder and builds its destination from it. *)
Theorem top_level_folder_roots_the_mapping :
  (∀ seg rest : string, no_separator seg = true →
     top_level_folder (seg +:+ "/" +:+ rest) = seg
     ∧ top_level_folder (seg +:+ "\" +:+ rest) = seg)
  ∧ (∀ p : string, no_separator p = true → top_level_folder p = "")
  ∧ (∀ (f : FileMeta) s (o' : Oracle) (r : ClassificationResult),
     source_path f ∉ seen s → ask (ItemFile f) s = Some (o', r) →
     category r ≠ SKIP →
     ∃ s' m, visit_item (ItemFile f) file_index s = Returned s'
       ∧ mappings s' !! source_path f = Some m
       ∧ top_folder m = top_level_folder (source_path f)
       ∧ dest_rel m
         = build_dest_rel (category_value (category r))
             (top_level_folder (source_path f))
             (tail_of (source_path f) (top_level_folder (source_path f)))).
Proof.
  assert (Hfirst : ∀ seg rest : string, no_separator seg = true →
            match split slash (seg +:+ "/" +:+ rest) with
            | p0 :: _ :: _ => p0
            | _ => ""
            end = seg).
  { intros seg rest Hseg.
    rewrite split_app_slash by (by apply no_separator_no_slash).
    pose proof (split_not_nil slash rest) as Hne.
    by destruct (split slash rest). }
  split; [|split].
  - intros seg rest Hseg. unfold top_level_folder.
    rewrite !replace_char_app, (replace_char_no_separator seg Hseg).
    split; apply (Hfirst seg (replace_char backslash slash rest) Hseg).
  - intros p Hp. unfold top_level_folder.
    rewrite (replace_char_no_separator p Hp).
    by rewrite split_segment by (by apply no_separator_no_slash).
  - intros f s o' r Hk Hask Hcat.
    pose proof (visit_cases_known (ItemFile f) s o' r Hk Hask) as Hc.
    cbn zeta in Hc. rewrite bool_decide_eq_false_2 in Hc by done.
    destruct Hc as (Ho & _ & _ & _ & Hm).
    eexists _, _. split; [exact Ho|]. rewrite Hm, lookup_insert_eq. done.
Qed.

(** C7: at the end of a traversal of the tree built from the scanned paths,
    every mapping is stored under the source path it carries, that path is
    one of the scanned paths, it is the key of no other entry, and the
    category of the mapping is not Skip; when the scanned paths are all
    different and none is also a directory of the scan, the file also has a
    terminal classification, of the same category. *)
Theorem mappings_are_keyed_by_scanned_paths (root_dir : string)
    (files_on_disk : list string) (o : Oracle) (d : DB) :
  let root := build_tree root_dir files_on_disk file_index in
  ∃ out, run root file_index o d = Some out
    ∧ let result := traversal_result (outcome_state out) in
      NoDup (map fst (map_to_list (res_mappings result)))
      ∧ (∀ k m, res_mappings result !! k = Some m →
           source_rel m = k ∧ k ∈ files_on_disk ∧ fm_category m ≠ "skip")
      ∧ (scan_ok files_on_disk = true →
         ∀ k m, res_mappings result !! k = Some m →
           ∃ c, res_classifications result !! k = Some c
                ∧ cl_category c ≠ SKIP
                ∧ fm_category m = category_value (cl_category c)
                ∧ file_terminal c).
Proof.
  intros root.
  destruct (run_total classify_folder classify_file get_uuids_for_files
              update_folder_description_bulk build_concat_desc
              confidence_threshold file_index root o d) as [out Hrun].
  exists out. split; [done|]. cbn zeta. split; [|split].
  - apply NoDup_fst_map_to_list.
  - intros k m Hm.
    destruct (loop_sources classify_folder classify_file get_uuids_for_files
                update_folder_description_bulk build_concat_desc
                confidence_threshold file_index root o d out Hrun) as [_ Hsrc].
    destruct (Hsrc k m Hm) as (Hk & (f & Hf & Hfk) & Hcat).
    split; [done|]. split; [|done].
    apply tree_files_build_tree in Hf as (rel & Hrel & ->).
    by rewrite <- Hfk.
  - intros Hscan k m Hm.
    pose proof (build_tree_keys_distinct root_dir files_on_disk file_index Hscan)
      as Hroot.
    destruct (invariants root o d Hroot)
      as (out' & Hrun' & _ & _ & _ & _ & _ & _ & Hmp).
    rewrite Hrun in Hrun'. injection Hrun' as <-.
    by destruct (Hmp k m Hm) as (_ & _ & Hc).
Qed.

End Claims.

(** ** The engine at work on a small tree *)

Lemma sample_tree_keys : NoDup (tree_keys Sample.tree).
Proof.
  apply (build_tree_keys_distinct "" Sample.paths ∅). vm_compute. reflexivity.
Qed.

Example sample_run_returns :
  (fun o => task_queue (outcome_state o)) <$> Sample.traversal = Some [].
Proof. vm_compute. reflexivity. Qed.

Example sample_run_maps_homework :
  (fun o => dest_rel <$> mappings (outcome_state o) !! "hw/1/a.pdf")
    <$> Sample.traversal
  = Some (Some "practice/hw/1/a.pdf").
Proof. vm_compute. reflexivity. Qed.

Example sample_run_prunes_tmp :
  (fun o => (cl_category <$> classifications (outcome_state o) !! "tmp",
             classifications (outcome_state o) !! "tmp/o",
             classifications (outcome_state o) !! "tmp/o/a.o",
             mappings (outcome_state o) !! "tmp/o/a.o"))
    <$> Sample.traversal
  = Some (Some SKIP, None, None, None).
Proof. vm_compute. reflexivity. Qed.

Example sample_run_drops_lock_file :
  (fun o => (classifications (outcome_state o) !! "misc/generated.lock",
             mappings (outcome_state o) !! "misc/generated.lock",
             cl_category <$> classifications (outcome_state o) !! "misc/x.pdf"))
    <$> Sample.traversal
  = Some (None, None, Some STUDY).
Proof. vm_compute. reflexivity. Qed.

Lemma oracle_consulted_once_per_path_witness :
  ∃ out, Sample.traversal = Some out
    ∧ NoDup (log_keys (outcome_state out))
    ∧ (∀ k, count_occ string_dec (log_keys (outcome_state out)) k
            = if bool_decide (k ∈ seen (outcome_state out)) then 1 else 0)
    ∧ (∀ item s, item_key item ∈ seen s →
         visit Sample.stub_classify_folder Sample.stub_classify_file
           Sample.stub_get_uuids Sample.stub_update Sample.no_concat_desc
           Sample.threshold item ∅ s = Returned s).
Proof.
  exact (oracle_consulted_once_per_path Sample.stub_classify_folder
           Sample.stub_classify_file Sample.stub_get_uuids Sample.stub_update
           Sample.no_concat_desc Sample.threshold ∅ Sample.tree tt tt).
Defined.

Lemma confident_skip_prunes_subtree_witness :
  (∃ s', Sample.tmp_visit = Returned s'
     ∧ task_queue s' = []
     ∧ classifications s'
       = <["tmp" := {| cl_path := "tmp";
                       cl_category := SKIP;
                       cl_confidence := 9 # 10;
                       cl_reason := "by name";
                       classified_at_level := "folder";
                       parent_folder := None;
                       ancestor_descriptions := [] |}]> ∅
     ∧ mappings s' = ∅ ∧ db_log s' = [])
  ∧ NoDup (tree_keys Sample.tree)
  ∧ ∃ out, Sample.traversal = Some out
    ∧ ∀ n r, (ItemFolder n, Some r) ∈ oracle_log (outcome_state out) →
        category r = SKIP →
        Qle_bool Sample.threshold (confidence r) = true →
        (∃ anc, classifications (outcome_state out) !! path n
                = Some {| cl_path := path n;
                          cl_category := SKIP;
                          cl_confidence := confidence r;
                          cl_reason := reason r;
                          classified_at_level := "folder";
                          parent_folder := None;
                          ancestor_descriptions := anc |})
        ∧ (∀ k, k ∈ tree_keys n →
             classifications (outcome_state out) !! k = None
             ∧ mappings (outcome_state out) !! k = None)
        ∧ (∀ u dsc, (path n, u, dsc) ∉ db_log (outcome_state out)).
Proof.
  destruct (confident_skip_prunes_subtree Sample.stub_classify_folder
              Sample.stub_classify_file Sample.stub_get_uuids
              Sample.stub_update Sample.no_concat_desc Sample.threshold ∅)
    as [Hturn Hrun].
  split.
  { assert (H1 : path Sample.tmp_folder ∉ seen (set_task_queue [] Sample.start))
      by apply not_elem_of_empty.
    assert (H2 : consult Sample.stub_classify_folder Sample.stub_classify_file
                   Sample.no_concat_desc ∅ (ItemFolder Sample.tmp_folder)
                   (set_task_queue [] Sample.start)
                 = Some (tt, Sample.decision SKIP (9 # 10) true "junk"))
      by (vm_compute; reflexivity).
    destruct (Hturn Sample.tmp_folder (set_task_queue [] Sample.start) tt
                (Sample.decision SKIP (9 # 10) true "junk") H1 H2 eq_refl eq_refl)
      as (s' & Hv & Hq & Hc & Hm & Hdb).
    exists s'. split; [exact Hv|]. split; [exact Hq|]. split; [exact Hc|].
    split; [exact Hm|exact Hdb]. }
  assert (H : NoDup (tree_keys Sample.tree)).
  { apply (build_tree_keys_distinct "" Sample.paths ∅). vm_compute. reflexivity. }
  split; [exact H|].
  destruct (Hrun Sample.tree tt tt H) as (out & Hout & Hall).
  exists out. split; [exact Hout|]. intros n r Hin Hcat Hconf.
  destruct (Hall n r Hin Hcat Hconf) as (Hrec & _ & Hbelow & Hdb).
  split; [exact Hrec|]. split; [|exact Hdb]. intros k Hk.
  destruct (Hbelow k Hk) as (Hc & Hm & _). split; [exact Hc|exact Hm].
Defined.

Lemma skipped_file_leaves_no_record_witness :
  NoDup (tree_keys Sample.tree)
  ∧ ∃ out, Sample.traversal = Some out
    ∧ ∀ f r, (ItemFile f, Some r) ∈ oracle_log (outcome_state out) →
        category r = SKIP →
        let result := traversal_result (outcome_state out) in
        res_classifications result !! source_path f = None
        ∧ res_mappings result !! source_path f = None.
Proof.
  assert (H : NoDup (tree_keys Sample.tree)).
  { apply (build_tree_keys_distinct "" Sample.paths ∅). vm_compute. reflexivity. }
  split; [exact H|].
  exact (proj2 (skipped_file_leaves_no_record Sample.stub_classify_folder
                  Sample.stub_classify_file Sample.stub_get_uuids
                  Sample.stub_update Sample.no_concat_desc Sample.threshold ∅)
           Sample.tree tt tt H).
Defined.

Lemma mappings_are_keyed_by_scanned_paths_witness :
  scan_ok Sample.paths = true
  ∧ ∃ out, Sample.traversal = Some out
    ∧ ∀ k m, mappings (outcome_state out) !! k = Some m →
        source_rel m = k ∧ k ∈ Sample.paths
        ∧ ∃ c, classifications (outcome_state out) !! k = Some c
               ∧ cl_category c ≠ SKIP
               ∧ fm_category m = category_value (cl_category c)
               ∧ file_terminal c.
Proof.
  assert (H : scan_ok Sample.paths = true) by (vm_compute; reflexivity).
  split; [exact H|].
  destruct (mappings_are_keyed_by_scanned_paths Sample.stub_classify_folder
              Sample.stub_classify_file Sample.stub_get_uuids Sample.stub_update
              Sample.no_concat_desc Sample.threshold ∅ "" Sample.paths tt tt)
    as (out & Hrun & _ & Hsrc & Hcl).
  exists out. split; [exact Hrun|]. intros k m Hm.
  destruct (Hsrc k m Hm) as (Hk & Hin & _).
  split; [exact Hk|]. split; [exact Hin|]. exact (Hcl H k m Hm).
Defined.

(** C3, the claim as stated, fails: a mixed decision that is also a
    confident Skip prunes.  The folder "tmp" has a child folder, its decision
    is mixed, and after its turn the queue is as empty as before and its
    record is the terminal one, without the note of a descent. *)
Lemma mixed_confident_skip_counterexample :
  is_mixed <$> (snd <$> consult Sample.stub_classify_folder
                          Sample.stub_classify_file Sample.no_concat_desc ∅
                          (ItemFolder Sample.tmp_folder)
                          (set_task_queue [] Sample.start))
  = Some true
  ∧ dict_keys (children Sample.tmp_folder) = ["o"]
  ∧ task_queue (outcome_state Sample.tmp_visit) = []
  ∧ cl_reason <$> classifications (outcome_state Sample.tmp_visit) !! "tmp"
    = Some "by name"
  ∧ classifications (outcome_state Sample.tmp_visit) !! "tmp/o" = None.
Proof.
  split; [vm_compute; reflexivity|]. split; [vm_compute; reflexivity|].
  split; [vm_compute; reflexivity|]. split; vm_compute; reflexivity.
Qed.

Lemma mixed_folder_is_never_assigned_witness :
  (∃ s', SampleRuns.mixed_hw_visit = Returned s'
     ∧ mappings s' = ∅ ∧ db_log s' = []
     ∧ task_queue s'
       = map ItemFolder (dict_values (children Sample.hw_folder))
           ++ map ItemFile (files Sample.hw_folder)
     ∧ map item_key (task_queue s') = ["hw/1"; "hw/b.md"]
     ∧ classifications s'
       = <["hw" := {| cl_path := "hw";
                      cl_category := PRACTICE;
                      cl_confidence := 9 # 10;
                      cl_reason := "by name [descended]";
                      classified_at_level := "folder";
                      parent_folder := None;
                      ancestor_descriptions := [] |}]> ∅)
  ∧ (∃ s', Sample.tmp_visit = Returned s'
       ∧ mappings s' = ∅ ∧ db_log s' = []
       ∧ task_queue s' = []
       ∧ classifications s'
         = <["tmp" := {| cl_path := "tmp";
                         cl_category := SKIP;
                         cl_confidence := 9 # 10;
                         cl_reason := "by name";
                         classified_at_level := "folder";
                         parent_folder := None;
                         ancestor_descriptions := [] |}]> ∅).
Proof.
  split.
  - assert (H1 : path Sample.hw_folder ∉ seen (set_task_queue [] Sample.start))
      by apply not_elem_of_empty.
    assert (H2 : consult SampleRuns.mixed_classify_folder
                   Sample.stub_classify_file Sample.no_concat_desc ∅
                   (ItemFolder Sample.hw_folder) (set_task_queue [] Sample.start)
                 = Some (tt, Sample.decision PRACTICE (9 # 10) true "homework"))
      by (vm_compute; reflexivity).
    destruct (mixed_folder_is_never_assigned SampleRuns.mixed_classify_folder
                Sample.stub_classify_file Sample.stub_get_uuids
                Sample.stub_update Sample.no_concat_desc Sample.threshold ∅
                Sample.hw_folder (set_task_queue [] Sample.start) tt
                (Sample.decision PRACTICE (9 # 10) true "homework") H1 H2 eq_refl)
      as (s' & Hv & Hm & Hdb & Hq & Hc).
    exists s'. split; [exact Hv|]. split; [exact Hm|]. split; [exact Hdb|].
    split; [exact Hq|]. split; [rewrite Hq; reflexivity|exact Hc].
  - assert (H1 : path Sample.tmp_folder ∉ seen (set_task_queue [] Sample.start))
      by apply not_elem_of_empty.
    assert (H2 : consult Sample.stub_classify_folder Sample.stub_classify_file
                   Sample.no_concat_desc ∅ (ItemFolder Sample.tmp_folder)
                   (set_task_queue [] Sample.start)
                 = Some (tt, Sample.decision SKIP (9 # 10) true "junk"))
      by (vm_compute; reflexivity).
    destruct (mixed_folder_is_never_assigned Sample.stub_classify_folder
                Sample.stub_classify_file Sample.stub_get_uuids
                Sample.stub_update Sample.no_concat_desc Sample.threshold ∅
                Sample.tmp_folder (set_task_queue [] Sample.start) tt
                (Sample.decision SKIP (9 # 10) true "junk") H1 H2 eq_refl)
      as (s' & Hv & Hm & Hdb & Hq & Hc).
    exists s'. split; [exact Hv|]. split; [exact Hm|]. split; [exact Hdb|].
    split; [exact Hq|exact Hc].
Defined.

(** C5, the claim as stated, fails: with a store that raises on the bulk
    update the traversal of the sample tree ends in the turn of "hw", the
    first confident assignment: [_bfs_classify] returns nothing, and at that
    point the files of "hw" have neither classification nor mapping. *)
Lemma failed_propagation_counterexample :
  Sample.failing_result = Some None
  ∧ (fun o => (db_log (outcome_state o),
               cl_category <$> classifications (outcome_state o) !! "hw",
               classifications (outcome_state o) !! "hw/b.md",
               mappings (outcome_state o) !! "hw/b.md",
               mappings (outcome_state o) !! "hw/1/a.pdf"))
      <$> Sample.failing_traversal
    = Some ([("hw", ["b.md"; "a.pdf"], "homework")], Some PRACTICE, None, None, None).
Proof. split; vm_compute; reflexivity. Qed.

Lemma failed_propagation_ends_the_traversal_witness :
  ∃ s', bfs_loop Sample.stub_classify_folder Sample.stub_classify_file
          Sample.stub_get_uuids Sample.failing_update Sample.no_concat_desc
          Sample.threshold 1 ∅ Sample.start = Some (Raised s')
    ∧ classifications s'
      = <["hw" := {| cl_path := "hw";
                     cl_category := PRACTICE;
                     cl_confidence := 9 # 10;
                     cl_reason := "by name";
                     classified_at_level := "folder";
                     parent_folder := None;
                     ancestor_descriptions := [] |}]> ∅
    ∧ mappings s' = mappings Sample.start
    ∧ task_queue s' = tail (task_queue Sample.start)
    ∧ db_log s' = db_log Sample.start ++ [(path Sample.hw_folder, ["b.md"; "a.pdf"], "homework")].
Proof.
  refine (failed_propagation_ends_the_traversal Sample.stub_classify_folder
            Sample.stub_classify_file Sample.stub_get_uuids Sample.failing_update
            Sample.no_concat_desc Sample.threshold ∅ Sample.hw_folder
            (tail (task_queue Sample.start)) Sample.start tt
            (Sample.decision PRACTICE (9 # 10) false "homework")
            "b.md" ["a.pdf"] 0 _ _ _ _ _ _ _ _).
  - vm_compute. reflexivity.
  - apply not_elem_of_empty.
  - vm_compute. reflexivity.
  - vm_compute. reflexivity.
  - vm_compute. reflexivity.
  - reflexivity.
  - vm_compute. reflexivity.
  - reflexivity.
Defined.

(** C10, the claim as stated, fails: for a file at the root of the tree the
    first segment of the path is the file name, and [top_level_folder]
    returns the empty string. *)
Lemma top_level_folder_counterexample :
  first_segment "readme.txt" = "readme.txt"
  ∧ top_level_folder "readme.txt" = ""
  ∧ top_level_folder "readme.txt" ≠ first_segment "readme.txt".
Proof. repeat split; done. Qed.

Lemma top_level_folder_roots_the_mapping_witness :
  top_level_folder "misc/x.pdf" = "misc"
  ∧ top_level_folder "misc\x.pdf" = "misc"
  ∧ top_level_folder "r.txt" = ""
  ∧ ∃ s' m,
      visit Sample.stub_classify_folder Sample.stub_classify_file
        Sample.stub_get_uuids Sample.stub_update Sample.no_concat_desc
        Sample.threshold (ItemFile SampleRuns.misc_file) ∅ Sample.start
      = Returned s'
      ∧ mappings s' !! "misc/x.pdf" = Some m
      ∧ top_folder m = "misc"
      ∧ dest_rel m = "study/lecture/misc/x.pdf".
Proof.
  destruct (top_level_folder_roots_the_mapping Sample.stub_classify_folder
              Sample.stub_classify_file Sample.stub_get_uuids
              Sample.stub_update Sample.no_concat_desc Sample.threshold ∅)
    as (Hseg & Hroot & Hmap).
  split; [exact (proj1 (Hseg "misc" "x.pdf" eq_refl))|].
  split; [exact (proj2 (Hseg "misc" "x.pdf" eq_refl))|].
  split; [exact (Hroot "r.txt" eq_refl)|].
  assert (H1 : source_path SampleRuns.misc_file ∉ seen Sample.start)
    by apply not_elem_of_empty.
  assert (H2 : consult Sample.stub_classify_folder Sample.stub_classify_file
                 Sample.no_concat_desc ∅ (ItemFile SampleRuns.misc_file)
                 Sample.start
               = Some (tt, Sample.decision STUDY (8 # 10) false ""))
    by (vm_compute; reflexivity).
  assert (H3 : category (Sample.decision STUDY (8 # 10) false "") ≠ SKIP)
    by discriminate.
  destruct (Hmap SampleRuns.misc_file Sample.start tt
              (Sample.decision STUDY (8 # 10) false "") H1 H2 H3)
    as (s' & m & Hv & Hm & Htop & Hdest).
  exists s', m. split; [exact Hv|]. split; [exact Hm|].
  split; [rewrite Htop; reflexivity|rewrite Hdest; reflexivity].
Defined.

Lemma build_tree_shape_witness :
  ∃ n, at_pos (build_tree "" Sample.paths ∅) (position_of "hw/1/a.pdf") n
       ∧ path n = folder_of "hw/1/a.pdf"
       ∧ make_file_meta ∅ "hw/1/a.pdf" ∈ files n.
Proof.
  refine (proj1 (proj2 (proj2 (build_tree_shape "" Sample.paths ∅))) "hw/1/a.pdf" _).
  by left.
Defined.

(** * Further properties *)

(** ** Collecting the files of a subtree *)

Lemma next_level_count (q : list FolderNode) :
  list_sum (map folder_count q)
  = length q
    + list_sum (map folder_count (flat_map (fun c => dict_values (children c)) q)).
Proof.
  induction q as [|c q IH]; simpl; [done|].
  rewrite map_app, list_sum_app, folder_count_eq, IH. lia.
Qed.

Lemma level_files_nil (d : nat) : level_files d [] = [].
Proof. by destruct d. Qed.

(** Levels beyond the depth of the queue are empty. *)
Lemma level_files_enough (d d' : nat) (q : list FolderNode) :
  list_sum (map folder_count q) ≤ d → d ≤ d' → level_files d q = level_files d' q.
Proof.
  revert d' q. induction d as [|d IH]; intros d' q Hq Hd.
  - destruct q as [|c q]; [by rewrite !level_files_nil|].
    simpl in Hq. rewrite folder_count_eq in Hq. lia.
  - destruct d' as [|d']; [lia|].
    destruct q as [|c q]; [done|].
    change (level_files (S d) (c :: q))
      with (flat_map files (c :: q)
            ++ level_files d (flat_map (fun c => dict_values (children c)) (c :: q))).
    change (level_files (S d') (c :: q))
      with (flat_map files (c :: q)
            ++ level_files d' (flat_map (fun c => dict_values (children c)) (c :: q))).
    f_equal. apply IH; [|lia].
    rewrite next_level_count in Hq. simpl length in Hq. lia.
Qed.

(** The loop takes the folders of the queue one after the other, their
    children lining up behind. *)
Lemma collect_loop_level (q1 q2 : list FolderNode) (fuel : nat)
    (acc : list FileMeta) :
  collect_loop (length q1 + fuel) (q1 ++ q2) acc
  = collect_loop fuel (q2 ++ flat_map (fun c => dict_values (children c)) q1)
      (acc ++ flat_map files q1).
Proof.
  revert q2 acc. induction q1 as [|c q1 IH]; intros q2 acc; simpl.
  - by rewrite !app_nil_r.
  - rewrite <- app_assoc, IH. by rewrite <- !app_assoc.
Qed.

Lemma collect_loop_levels (fuel : nat) :
  ∀ (q : list FolderNode) (acc : list FileMeta),
    list_sum (map folder_count q) ≤ fuel →
    collect_loop fuel q acc = acc ++ level_files fuel q.
Proof.
  induction (lt_wf fuel) as [fuel _ IH]. intros q acc Hq.
  destruct q as [|c q].
  { rewrite level_files_nil, app_nil_r. by destruct fuel. }
  pose proof (next_level_count (c :: q)) as Hn.
  assert (Hlen : length (c :: q) ≤ fuel) by lia.
  destruct fuel as [|k]; [simpl in Hlen; lia|].
  pose proof (collect_loop_level (c :: q) [] (S k - length (c :: q)) acc) as Hc.
  rewrite app_nil_r, app_nil_l in Hc.
  replace (length (c :: q) + (S k - length (c :: q))) with (S k) in Hc by lia.
  rewrite Hc, IH; [|simpl; lia|lia].
  rewrite <- app_assoc. f_equal.
  change (level_files (S k) (c :: q))
    with (flat_map files (c :: q)
          ++ level_files k (flat_map (fun c => dict_values (children c)) (c :: q))).
  f_equal. apply level_files_enough; [lia|simpl; lia].
Qed.

(** X1: [collect_all_files] returns the files of a subtree level by level:
    the immediate files of the folder first, then the files of its child
    folders in the order of the children, then those of the grandchildren,
    and so on; every file of the subtree is returned once. *)
Theorem collect_all_files_level_order (n : FolderNode) :
  collect_all_files n = level_files (folder_count n) [n]
  ∧ (∃ below, collect_all_files n = files n ++ below
              ∧ below ≡ₚ flat_map tree_files (dict_values (children n)))
  ∧ collect_all_files n ≡ₚ tree_files n.
Proof.
  assert (Hl : collect_all_files n = level_files (folder_count n) [n]).
  { unfold collect_all_files. rewrite collect_loop_levels; [done|simpl; lia]. }
  split; [done|]. split; [|apply collect_all_files_perm].
  pose proof (collect_all_files_perm n) as Hp.
  rewrite Hl in Hp |- *. rewrite folder_count_eq in Hp |- *.
  change (level_files (S ?k) [n])
    with (flat_map files [n]
          ++ level_files k (flat_map (fun c => dict_values (children c)) [n])) in Hp |- *.
  simpl flat_map in Hp |- *. rewrite app_nil_r in Hp |- *.
  eexists. split; [done|].
  rewrite tree_files_eq in Hp. by apply Permutation_app_inv_l in Hp.
Qed.

(** ** The two counts of the files of a subtree *)

Lemma total_file_count_eq (n : FolderNode) :
  FolderNode_total_file_count n = length (tree_files n).
Proof.
  induction n as [p nm fs ch IH] using FolderNode_ind'. simpl.
  rewrite length_app. generalize (length fs). intros a.
  revert a. induction IH as [|kc ch Hkc _ IHch]; intros a; simpl; [lia|].
  rewrite IHch, length_app, Hkc. lia.
Qed.

(** X2: the total that [compute_folder_stats] reports is the one the method
    [FolderNode.total_file_count] computes by recursion, although the
    statistics count the list [collect_all_files] returns; the immediate
    files are part of it, and for a leaf the two counts are the same. *)
Theorem total_file_count_agrees (n : FolderNode) :
  total_file_count (compute_folder_stats n) = FolderNode_total_file_count n
  ∧ immediate_file_count (compute_folder_stats n)
    ≤ total_file_count (compute_folder_stats n)
  ∧ (is_leaf n = true →
     total_file_count (compute_folder_stats n)
     = immediate_file_count (compute_folder_stats n)).
Proof.
  assert (Ht : total_file_count (compute_folder_stats n) = length (tree_files n)).
  { simpl. by rewrite collect_all_files_perm. }
  rewrite Ht, total_file_count_eq. split; [done|].
  rewrite tree_files_eq, length_app. simpl immediate_file_count.
  split; [lia|]. unfold is_leaf. intros Hleaf%Nat.eqb_eq.
  destruct (children n); [simpl; lia|done].
Qed.

Lemma total_file_count_agrees_witness :
  is_leaf Sample.docs_folder = true
  ∧ total_file_count (compute_folder_stats Sample.docs_folder)
    = immediate_file_count (compute_folder_stats Sample.docs_folder).
Proof.
  split; [reflexivity|].
  apply (total_file_count_agrees Sample.docs_folder). reflexivity.
Defined.

(** ** Sorting *)

Section SortedProps.
Context {A : Type} (le : A → A → bool).
Hypothesis le_total : ∀ x y, le x y = true ∨ le y x = true.
Hypothesis le_trans : ∀ x y z, le x y = true → le y z = true → le x z = true.

Lemma insert_sorted_perm (x : A) (l : list A) : insert_sorted le x l ≡ₚ x :: l.
Proof.
  induction l as [|y r IH]; simpl; [done|].
  destruct (le x y); [done|]. rewrite IH. apply Permutation_swap.
Qed.

Lemma sorted_perm (l : list A) : sorted le l ≡ₚ l.
Proof.
  induction l as [|x l IH]; simpl; [done|].
  rewrite insert_sorted_perm. by f_equiv.
Qed.

Lemma insert_sorted_ordered (x : A) (l : list A) :
  StronglySorted (fun a b => le a b = true) l →
  StronglySorted (fun a b => le a b = true) (insert_sorted le x l).
Proof.
  induction 1 as [|y r Hr IH Hy]; simpl.
  - constructor; [constructor|constructor].
  - destruct (le x y) eqn:Hxy.
    + constructor; [by constructor|].
      constructor; [done|]. eapply Forall_impl; [exact Hy|].
      intros z Hz. by apply (le_trans x y z).
    + constructor; [exact IH|].
      rewrite insert_sorted_perm. constructor; [|done].
      destruct (le_total x y) as [H|H]; [congruence|done].
Qed.

Lemma sorted_ordered (l : list A) :
  StronglySorted (fun a b => le a b = true) (sorted le l).
Proof.
  induction l as [|x l IH]; simpl; [constructor|].
  by apply insert_sorted_ordered.
Qed.

End SortedProps.

(** ** The histogram of extensions *)

Lemma dict_get_set {V : Type} (k e : string) (v : V) (d : list (string * V)) :
  dict_get e (dict_set k v d) = if String.eqb e k then Some v else dict_get e d.
Proof.
  induction d as [|[k' v'] r IH]; simpl.
  - by destruct (String.eqb e k).
  - destruct (String.eqb_spec k k') as [->|Hkk']; simpl.
    + by destruct (String.eqb e k').
    + rewrite IH. destruct (String.eqb_spec e k') as [->|Hek']; [|done].
      destruct (String.eqb_spec k' k) as [->|]; done.
Qed.

Lemma dict_set_NoDup {V : Type} (k : string) (v : V) (d : list (string * V)) :
  NoDup (dict_keys d) → NoDup (dict_keys (dict_set k v d)).
Proof.
  intros Hd. unfold dict_keys. rewrite dict_set_fst.
  destruct (dict_get k d) eqn:Hg; [done|].
  apply dict_get_None in Hg.
  apply NoDup_app. split; [done|]. split; [|apply NoDup_singleton].
  intros x Hx ->%list_elem_of_singleton. done.
Qed.

Lemma dict_set_sum (k : string) (v : nat) (d : list (string * nat)) :
  list_sum (dict_values (dict_set k v d)) + default 0 (dict_get k d)
  = list_sum (dict_values d) + v.
Proof.
  induction d as [|[k' v'] r IH]; simpl; [lia|].
  destruct (String.eqb k k'); simpl; lia.
Qed.

Lemma dict_get_of_elem {V : Type} (k : string) (v : V) (d : list (string * V)) :
  NoDup (dict_keys d) → (k, v) ∈ d → dict_get k d = Some v.
Proof.
  induction d as [|[k' v'] r IH]; simpl; intros Hd Hin.
  - by apply elem_of_nil in Hin.
  - apply NoDup_cons in Hd as [Hk' Hr].
    apply elem_of_cons in Hin as [[= <- <-]|Hin].
    + by rewrite String.eqb_refl.
    + destruct (String.eqb_spec k k') as [->|_]; [|by apply IH].
      exfalso. apply Hk'. apply list_elem_of_fmap. by exists (k', v).
Qed.

Lemma count_of_ext_cons (e : string) (f : FileMeta) (fs : list FileMeta) :
  count_of_ext e (f :: fs)
  = (if String.eqb e (file_ext f) then 1 else 0) + count_of_ext e fs.
Proof.
  unfold count_of_ext. rewrite filter_cons.
  destruct (decide (file_ext f = e)) as [<-|Hne].
  - by rewrite String.eqb_refl.
  - destruct (String.eqb_spec e (file_ext f)); [congruence|done].
Qed.

Lemma ext_counts_NoDup (fs : list FileMeta) (d : list (string * nat)) :
  NoDup (dict_keys d) → NoDup (dict_keys (foldl count_ext d fs)).
Proof.
  revert d. induction fs as [|f fs IH]; intros d Hd; simpl; [done|].
  apply IH. by apply dict_set_NoDup.
Qed.

Lemma ext_counts_get (fs : list FileMeta) (d : list (string * nat)) (e : string) :
  default 0 (dict_get e (foldl count_ext d fs))
  = default 0 (dict_get e d) + count_of_ext e fs.
Proof.
  revert d. induction fs as [|f fs IH]; intros d; simpl.
  - unfold count_of_ext. simpl. lia.
  - rewrite IH, count_of_ext_cons. unfold count_ext. rewrite dict_get_set.
    destruct (String.eqb_spec e (file_ext f)) as [->|]; simpl; lia.
Qed.

Lemma ext_counts_sum (fs : list FileMeta) (d : list (string * nat)) :
  list_sum (dict_values (foldl count_ext d fs))
  = list_sum (dict_values d) + length fs.
Proof.
  revert d. induction fs as [|f fs IH]; intros d; simpl; [lia|].
  rewrite IH. unfold count_ext.
  pose proof (dict_set_sum (file_ext f)
                (default 0 (dict_get (file_ext f) d) + 1) d). lia.
Qed.

Lemma count_of_ext_perm (e : string) (l1 l2 : list FileMeta) :
  l1 ≡ₚ l2 → count_of_ext e l1 = count_of_ext e l2.
Proof. intros H. unfold count_of_ext. by rewrite H. Qed.

Lemma count_of_ext_pos (e : string) (fs : list FileMeta) (f : FileMeta) :
  f ∈ fs → file_ext f = e → 0 < count_of_ext e fs.
Proof.
  intros Hf He. unfold count_of_ext.
  assert (Hin : f ∈ filter (fun f => file_ext f = e) fs)
    by (by apply list_elem_of_filter).
  destruct (filter _ fs); [by apply elem_of_nil in Hin|simpl; lia].
Qed.

(** The entries of the histogram of a folder, read against its files. *)
Lemma extension_counts_entry (n : FolderNode) (e : string) (c : nat) :
  (e, c) ∈ extension_counts (compute_folder_stats n) →
  c = count_of_ext e (tree_files n) ∧ 0 < c.
Proof.
  simpl. intros Hin.
  assert (Hg : dict_get e (foldl count_ext [] (collect_all_files n)) = Some c).
  { apply dict_get_of_elem; [|done]. apply ext_counts_NoDup. constructor. }
  pose proof (ext_counts_get (collect_all_files n) [] e) as Hc.
  rewrite Hg in Hc. simpl in Hc.
  rewrite (count_of_ext_perm e _ _ (collect_all_files_perm n)) in Hc.
  split; [done|]. subst c.
  assert (He : e ∈ dict_keys (foldl count_ext [] (collect_all_files n))).
  { apply list_elem_of_fmap. by exists (e, count_of_ext e (tree_files n)). }
  apply ext_counts_keys in He as [He|(f & Hf & Hfe)]; [by apply elem_of_nil in He|].
  apply (count_of_ext_pos e _ f); [|done]. by rewrite <- collect_all_files_perm.
Qed.

(** X3: [extension_counts] is the histogram of the extensions of the files
    of the subtree: every extension has one entry, its count is the number
    of files that carry it (and is positive), an extension no file carries
    has no entry, and the counts add up to the total number of files. *)
Theorem extension_counts_histogram (n : FolderNode) :
  let stats := compute_folder_stats n in
  NoDup (dict_keys (extension_counts stats))
  ∧ (∀ e, dict_get e (extension_counts stats)
          = if bool_decide (count_of_ext e (tree_files n) = 0) then None
            else Some (count_of_ext e (tree_files n)))
  ∧ list_sum (dict_values (extension_counts stats)) = total_file_count stats.
Proof.
  cbn zeta. split; [|split].
  - simpl. apply ext_counts_NoDup. constructor.
  - intros e.
    destruct (dict_get e (extension_counts (compute_folder_stats n))) as [c|] eqn:Hg.
    + apply dict_get_elem, extension_counts_entry in Hg as [<- Hpos].
      rewrite bool_decide_eq_false_2; [done|lia].
    + pose proof (ext_counts_get (collect_all_files n) [] e) as Hc.
      simpl in Hg. rewrite Hg in Hc. simpl in Hc.
      rewrite (count_of_ext_perm e _ _ (collect_all_files_perm n)) in Hc.
      rewrite bool_decide_eq_true_2; [done|lia].
  - simpl. rewrite ext_counts_sum. simpl. lia.
Qed.

Lemma lookup_take_drop_split {A : Type} (k : nat) (l : list A) (x : A) :
  x ∈ l → x ∈ take k l ∨ x ∈ skipn k l.
Proof.
  intros Hx. rewrite <- (take_drop k l) in Hx. by apply elem_of_app in Hx.
Qed.

(** X4: [primary_extensions] names the three most frequent extensions of
    the subtree, the most frequent first: at most three of them, all when
    there are fewer, each once, each an extension of the histogram, in order
    of decreasing count, and no extension left out has more files than one
    that is named. *)
Theorem primary_extensions_most_frequent (n : FolderNode) :
  let stats := compute_folder_stats n in
  let count e := count_of_ext e (tree_files n) in
  length (primary_extensions stats) = min 3 (length (extension_counts stats))
  ∧ NoDup (primary_extensions stats)
  ∧ (∀ e, e ∈ primary_extensions stats → e ∈ dict_keys (extension_counts stats))
  ∧ StronglySorted (fun e e' => count e' ≤ count e) (primary_extensions stats)
  ∧ (∀ e e', e ∈ primary_extensions stats →
             e' ∈ dict_keys (extension_counts stats) →
             e' ∉ primary_extensions stats → count e' ≤ count e).
Proof.
  cbn zeta.
  set (le := fun x y : string * nat => Nat.leb (snd y) (snd x)).
  set (ec := extension_counts (compute_folder_stats n)).
  set (L := sorted le ec).
  assert (Hprim : primary_extensions (compute_folder_stats n) = map fst (take 3 L))
    by done.
  assert (Hperm : L ≡ₚ ec) by apply sorted_perm.
  assert (Hsort : StronglySorted (fun a b => le a b = true) L).
  { apply sorted_ordered.
    - intros x y. unfold le. rewrite !Nat.leb_le. lia.
    - intros x y z. unfold le. rewrite !Nat.leb_le. lia. }
  assert (Hcnt : ∀ x, x ∈ L → snd x = count_of_ext (fst x) (tree_files n)).
  { intros [e c] Hx. rewrite Hperm in Hx.
    by apply extension_counts_entry in Hx as [-> _]. }
  assert (Hnd : NoDup (map fst L)).
  { rewrite Hperm. apply ext_counts_NoDup. constructor. }
  rewrite Hprim. split; [|split; [|split; [|split]]].
  - rewrite length_map, length_take. rewrite (Permutation_length Hperm). done.
  - rewrite <- (take_drop 3 L), map_app in Hnd. by apply NoDup_app in Hnd as [? _].
  - intros e (x & -> & Hx)%list_elem_of_fmap.
    apply list_elem_of_fmap. exists x. split; [done|].
    rewrite <- Hperm. by apply (subseteq_take 3).
  - assert (Hs3 : StronglySorted (fun a b => le a b = true) (take 3 L)).
    { rewrite <- (take_drop 3 L) in Hsort. by apply StronglySorted_app_1_l in Hsort. }
    assert (Hc3 : ∀ x, x ∈ take 3 L → snd x = count_of_ext (fst x) (tree_files n)).
    { intros x Hx. apply Hcnt. by apply (subseteq_take 3). }
    clear -Hs3 Hc3. induction Hs3 as [|x l Hl IH Hx]; simpl; constructor.
    + apply IH. intros y Hy. apply Hc3. by right.
    + apply Forall_forall. intros e' (y & -> & Hy)%list_elem_of_fmap.
      rewrite Forall_forall in Hx. specialize (Hx y Hy).
      unfold le in Hx. apply Nat.leb_le in Hx.
      rewrite <- (Hc3 x), <- (Hc3 y); [done|by right|by left].
  - intros e e' (x & -> & Hx)%list_elem_of_fmap (y & -> & Hy)%list_elem_of_fmap Hout.
    rewrite <- Hperm in Hy.
    destruct (lookup_take_drop_split 3 L y Hy) as [Hy3|Hyd].
    { exfalso. apply Hout. apply list_elem_of_fmap. by exists y. }
    rewrite <- (take_drop 3 L) in Hsort.
    pose proof (StronglySorted_app_1_elem_of _ _ _ x y Hsort Hx Hyd) as Hle.
    unfold le in Hle. apply Nat.leb_le in Hle.
    rewrite <- (Hcnt x), <- (Hcnt y); [done|done|by apply (subseteq_take 3)].
Qed.

(** X5: [subfolder_names] lists the names of the child folders in
    ascending order, each child once, whatever the order in which the
    children were created. *)
Theorem subfolder_names_sorted (n : FolderNode) :
  let stats := compute_folder_stats n in
  subfolder_names stats ≡ₚ dict_keys (children n)
  ∧ StronglySorted (fun a b => String.leb a b = true) (subfolder_names stats)
  ∧ length (subfolder_names stats) = subfolder_count stats.
Proof.
  cbn zeta. simpl subfolder_names. simpl subfolder_count.
  split; [apply sorted_perm|]. split.
  - apply sorted_ordered.
    + apply leb_total.
    + intros x y z Hxy Hyz.
      pose proof (String.le_po) as [[_ Htr] _].
      specialize (Htr x y z). unfold String.le in Htr.
      rewrite Hxy, Hyz in Htr. specialize (Htr I I).
      by destruct (String.leb x z).
  - rewrite (Permutation_length (sorted_perm _ _)). unfold dict_keys.
    by rewrite length_map.
Qed.

(** ** Extensions and letter case *)

Lemma lower_char_dot (a : ascii) : Ascii.eqb (lower_char a) dot = Ascii.eqb a dot.
Proof. destruct a as [[] [] [] [] [] [] [] []]; reflexivity. Qed.

Lemma lower_char_slash (a : ascii) :
  Ascii.eqb (lower_char a) slash = Ascii.eqb a slash.
Proof. destruct a as [[] [] [] [] [] [] [] []]; reflexivity. Qed.

Lemma lower_char_idem (a : ascii) : lower_char (lower_char a) = lower_char a.
Proof. destruct a as [[] [] [] [] [] [] [] []]; reflexivity. Qed.

Lemma lower_idem (s : string) : lower (lower s) = lower s.
Proof. induction s as [|a s IH]; simpl; [done|]. by rewrite lower_char_idem, IH. Qed.

Lemma rpartition_lower (c : ascii) (p : string) :
  (∀ a, Ascii.eqb (lower_char a) c = Ascii.eqb a c) →
  rpartition c (lower p)
  = (lower (fst (rpartition c p)), lower (snd (rpartition c p))).
Proof.
  intros Hc. induction p as [|a r IH]; simpl; [done|].
  rewrite IH. destruct (rpartition c r) as [h t]. simpl.
  destruct h as [|b h]; simpl; [|done].
  rewrite Hc. by destruct (Ascii.eqb a c).
Qed.

Lemma all_char_lower (c : ascii) (s : string) :
  (∀ a, Ascii.eqb (lower_char a) c = Ascii.eqb a c) →
  all_char c (lower s) = all_char c s.
Proof.
  intros Hc. induction s as [|a s IH]; simpl; [done|]. by rewrite Hc, IH.
Qed.

Lemma chop_lower (s : string) : chop (lower s) = lower (chop s).
Proof.
  induction s as [|a s IH]; simpl; [done|].
  destruct s as [|b s]; simpl in *; [done|]. by rewrite IH.
Qed.

Lemma splitext_ext_lower (p : string) :
  splitext_ext (lower p) = lower (splitext_ext p).
Proof.
  unfold splitext_ext, basename.
  rewrite (rpartition_lower slash p lower_char_slash). simpl snd.
  rewrite (rpartition_lower dot _ lower_char_dot).
  destruct (rpartition dot (snd (rpartition slash p))) as [h t]. simpl fst. simpl snd.
  destruct h as [|b h]; [done|].
  change (lower (String b h)) with (String (lower_char b) (lower h)).
  rewrite <- (all_char_lower dot (chop (String b h)) lower_char_dot).
  rewrite <- chop_lower.
  change (lower (String b h)) with (String (lower_char b) (lower h)).
  by destruct (all_char dot (chop (String (lower_char b) (lower h)))).
Qed.

Lemma lower_char_ascii (a : ascii) :
  (nat_of_ascii a <? 128) = true → (nat_of_ascii (lower_char a) <? 128) = true.
Proof. destruct a as [[] [] [] [] [] [] [] []]; intros H; exact H || reflexivity. Qed.

Lemma lower_ascii (s : string) : isascii s = true → isascii (lower s) = true.
Proof.
  induction s as [|a s IH]; simpl; [done|].
  intros [Ha Hs]%andb_true_iff. by rewrite lower_char_ascii, IH.
Qed.

Lemma rpartition_ascii (c : ascii) (p : string) :
  isascii p = true →
  isascii (fst (rpartition c p)) = true ∧ isascii (snd (rpartition c p)) = true.
Proof.
  induction p as [|a r IH]; simpl; [done|].
  intros [Ha Hr]%andb_true_iff. destruct (IH Hr) as [Hh Ht].
  destruct (rpartition c r) as [h t]. simpl in Hh, Ht.
  destruct h as [|b h]; simpl.
  - destruct (Ascii.eqb a c); simpl; by rewrite Ha.
  - rewrite Ha. simpl in Hh. by rewrite Hh.
Qed.

Lemma splitext_ext_ascii (p : string) :
  isascii p = true → isascii (splitext_ext p) = true.
Proof.
  intros Hp. unfold splitext_ext, basename.
  destruct (rpartition_ascii slash p Hp) as [_ Hname].
  destruct (rpartition_ascii dot _ Hname) as [_ Ht].
  destruct (rpartition dot (snd (rpartition slash p))) as [[|b h] t]; [done|].
  destruct (all_char dot (chop (String b h))); [done|]. exact Ht.
Qed.

(** X6: for file names made of ASCII characters, on which [str.lower]
    changes the letters A to Z one by one and nothing else, the extension
    under which a file is counted does not depend on the letter case of its
    name; it is made of ASCII characters, in lower case, never empty, and is
    either "(no ext)" or starts with a dot. *)
Theorem file_ext_case_insensitive (f g : FileMeta) :
  isascii (file_name f) = true → isascii (file_name g) = true →
  lower (file_name f) = lower (file_name g) →
  file_ext f = file_ext g
  ∧ isascii (file_ext f) = true
  ∧ lower (file_ext f) = file_ext f
  ∧ (file_ext f = "(no ext)" ∨ ∃ t, file_ext f = String dot t).
Proof.
  intros Hf _ Hfg.
  assert (Hform : ∀ p, splitext_ext p = "" ∨ ∃ t, splitext_ext p = String dot t).
  { intros p. unfold splitext_ext.
    destruct (rpartition dot (basename p)) as [[|b h] t]; [by left|].
    destruct (all_char dot (chop (String b h))); [by left|right; eauto]. }
  pose proof (lower_ascii _ (splitext_ext_ascii _ Hf)) as Hascii.
  unfold file_ext. split; [|split; [|split]].
  - by rewrite <- !splitext_ext_lower, Hfg.
  - by destruct (nonempty (lower (splitext_ext (file_name f)))).
  - destruct (nonempty (lower (splitext_ext (file_name f)))); [|done].
    apply lower_idem.
  - destruct (Hform (file_name f)) as [->|[t ->]]; [by left|].
    right. by exists (lower t).
Qed.

Lemma file_ext_case_insensitive_witness :
  lower "Notes.TAR.GZ" = lower "notes.tar.gz"
  ∧ file_ext {| source_path := "Notes.TAR.GZ"; folder_path := ".";
                file_name := "Notes.TAR.GZ"; description := None |} = ".gz"
  ∧ file_ext {| source_path := "z/notes.tar.gz"; folder_path := "z";
                file_name := "notes.tar.gz"; description := None |} = ".gz".
Proof.
  assert (H : lower "Notes.TAR.GZ" = lower "notes.tar.gz") by reflexivity.
  split; [exact H|].
  destruct (file_ext_case_insensitive
              {| source_path := "Notes.TAR.GZ"; folder_path := ".";
                 file_name := "Notes.TAR.GZ"; description := None |}
              {| source_path := "z/notes.tar.gz"; folder_path := "z";
                 file_name := "notes.tar.gz"; description := None |}
              eq_refl eq_refl H) as (Heq & _).
  split; [rewrite Heq|]; reflexivity.
Defined.

(** ** Where a file goes *)

Lemma replace_char_join (l : list string) :
  Forall (fun s => replace_char backslash slash s = s) l →
  replace_char backslash slash (join "/" l) = join "/" l.
Proof.
  induction 1 as [|x l Hx Hl IH]; [done|].
  destruct l as [|y l]; [done|].
  change (join "/" (x :: y :: l)) with (x +:+ "/" +:+ join "/" (y :: l)).
  by rewrite !replace_char_app, Hx, IH.
Qed.

Lemma lstrip_by_length (p : ascii → bool) (s : string) :
  String.length (lstrip_by p s) ≤ String.length s.
Proof. induction s as [|c s IH]; simpl; [done|]. destruct (p c); simpl; lia. Qed.

Lemma rstrip_by_length (p : ascii → bool) (s : string) :
  String.length (rstrip_by p s) ≤ String.length s.
Proof.
  induction s as [|c s IH]; simpl; [done|].
  destruct (rstrip_by p s); simpl in *; [destruct (p c); simpl; lia|lia].
Qed.

Lemma lstrip_by_fixed (p : ascii → bool) (c : ascii) (s : string) :
  lstrip_by p (String c s) = String c s ↔ p c = false.
Proof.
  simpl. destruct (p c); [|done]. split; [|done]. intros H.
  pose proof (lstrip_by_length p s) as Hl. rewrite H in Hl. simpl in Hl. lia.
Qed.

Lemma strip_fixed (s : string) :
  strip s = s → lstrip_by is_space s = s ∧ rstrip_by is_space s = s.
Proof.
  unfold strip. intros H.
  assert (Hl : lstrip_by is_space s = s).
  { destruct s as [|c s]; [done|]. apply lstrip_by_fixed.
    destruct (is_space c) eqn:Hc; [|done]. simpl in H. rewrite Hc in H.
    pose proof (rstrip_by_length is_space (lstrip_by is_space s)) as H1.
    pose proof (lstrip_by_length is_space s) as H2.
    rewrite H in H1. simpl in H1. lia. }
  split; [done|]. by rewrite Hl in H.
Qed.

Lemma lstrip_by_app (p : ascii → bool) (s t : string) :
  s ≠ "" → lstrip_by p s = s → lstrip_by p (s +:+ t) = s +:+ t.
Proof.
  destruct s as [|c s]; [done|]. intros _ H%lstrip_by_fixed.
  change (String c s +:+ t) with (String c (s +:+ t)). by apply lstrip_by_fixed.
Qed.

Lemma append_nonempty (s t : string) : t ≠ "" → s +:+ t ≠ "".
Proof. by destruct s. Qed.

Lemma rstrip_by_app (p : ascii → bool) (s t : string) :
  t ≠ "" → rstrip_by p t = t → rstrip_by p (s +:+ t) = s +:+ t.
Proof.
  intros Hne Ht. induction s as [|c s IH]; [done|].
  change (String c s +:+ t) with (String c (s +:+ t)).
  simpl. rewrite IH. pose proof (append_nonempty s t Hne).
  by destruct (s +:+ t).
Qed.

Lemma join_first_nonempty (x : string) (l : list string) :
  x ≠ "" → join "/" (x :: l) ≠ "".
Proof.
  intros Hx. destruct l as [|y l]; [done|].
  change (join "/" (x :: y :: l)) with (x +:+ "/" +:+ join "/" (y :: l)).
  by destruct x.
Qed.

(** Segments that [_join_rel] keeps make a path that it keeps. *)
Lemma clean_segment_join (l : list string) :
  l ≠ [] → Forall (fun s => clean_segment s = true) l →
  clean_segment (join "/" l) = true.
Proof.
  intros Hne Hl.
  assert (Hn : join "/" l ≠ "").
  { destruct Hl as [|x l (Hx%nonempty_true & _)%clean_segment_spec]; [done|].
    by apply join_first_nonempty. }
  assert (Hrep : replace_char backslash slash (join "/" l) = join "/" l).
  { apply replace_char_join. eapply Forall_impl; [exact Hl|].
    by intros s (_ & _ & ?)%clean_segment_spec. }
  assert (Hls : lstrip_by is_space (join "/" l) = join "/" l).
  { destruct Hl as [|x l (Hx%nonempty_true & Hs%strip_fixed & _)%clean_segment_spec];
      [done|].
    destruct l as [|y l]; [tauto|].
    change (join "/" (x :: y :: l)) with (x +:+ "/" +:+ join "/" (y :: l)).
    apply lstrip_by_app; tauto. }
  assert (Hrs : rstrip_by is_space (join "/" l) = join "/" l).
  { clear Hn Hrep Hls Hne.
    induction Hl as [|x l (Hx%nonempty_true & Hs%strip_fixed & _)%clean_segment_spec
                        Hl IH]; [done|].
    destruct l as [|y l]; [tauto|].
    change (join "/" (x :: y :: l)) with (x +:+ "/" +:+ join "/" (y :: l)).
    assert (Hy : join "/" (y :: l) ≠ "").
    { inversion Hl as [|? ? (Hy%nonempty_true & _)%clean_segment_spec]; subst.
      by apply join_first_nonempty. }
    apply rstrip_by_app; [by apply append_nonempty|].
    apply rstrip_by_app; [done|exact IH]. }
  unfold clean_segment, strip. rewrite Hls, Hrs, Hrep, !String.eqb_refl.
  apply nonempty_true in Hn. by rewrite Hn.
Qed.

Lemma length_append (s t : string) :
  String.length (s +:+ t) = String.length s + String.length t.
Proof. induction s as [|c s IH]; [done|exact (f_equal S IH)]. Qed.

Lemma drop_append (s t : string) : drop (String.length s) (s +:+ t) = t.
Proof. induction s as [|c s IH]; [by destruct t|exact IH]. Qed.

(** The two halves of a clean path with a separator: the top-level folder
    is its first segment and the tail is what follows the separator. *)
Lemma top_and_tail (p0 p1 : string) (rest : list string) :
  Forall (fun s => clean_segment s = true) (p0 :: p1 :: rest) →
  Forall (fun s => no_slash s = true) (p0 :: p1 :: rest) →
  let src := join "/" (p0 :: p1 :: rest) in
  top_level_folder src = p0
  ∧ tail_of src p0 = join "/" (p1 :: rest)
  ∧ clean_segment (join "/" (p1 :: rest)) = true.
Proof.
  intros Hc Hs src.
  assert (Hsrc : clean_segment src = true) by (by apply clean_segment_join).
  apply clean_segment_spec in Hsrc as (_ & _ & Hrep).
  split; [|split].
  - unfold top_level_folder. rewrite Hrep. unfold src. by rewrite split_join.
  - unfold tail_of.
    inversion Hc as [|? ? (Hp0 & _)%clean_segment_spec Hc']; subst.
    inversion Hc' as [|? ? (Hp1%nonempty_true & _)%clean_segment_spec _]; subst.
    rewrite Hp0. unfold src.
    change (join "/" (p0 :: p1 :: rest)) with (p0 +:+ "/" +:+ join "/" (p1 :: rest)).
    rewrite drop_append.
    change (lstrip_slash ("/" +:+ join "/" (p1 :: rest)))
      with (lstrip_slash (join "/" (p1 :: rest))).
    unfold lstrip_slash.
    assert (H1 : lstrip_by (Ascii.eqb slash) p1 = p1).
    { destruct p1 as [|c p1]; [done|]. apply lstrip_by_fixed.
      inversion Hs as [|? ? _ Hs']; subst. inversion Hs' as [|? ? Hn _]; subst.
      simpl in Hn. rewrite Ascii.eqb_sym. by destruct (Ascii.eqb c slash). }
    destruct rest as [|p2 rest]; [done|].
    change (join "/" (p1 :: p2 :: rest)) with (p1 +:+ "/" +:+ join "/" (p2 :: rest)).
    by apply lstrip_by_app.
  - apply clean_segment_join; [done|]. by inversion Hc.
Qed.

(** The two parts a mapping is built from, for a clean path: none and the
    path itself for a file at the root, the first segment and the rest
    otherwise. *)
Lemma mapping_parts_clean (src : string) :
  Forall (fun s => clean_segment s = true) (split slash src) →
  let top := top_level_folder src in
  let tail := tail_of src top in
  (top = "" ∧ tail = src ∧ clean_segment src = true)
  ∨ (clean_segment top = true ∧ clean_segment tail = true
     ∧ src = top +:+ "/" +:+ tail).
Proof.
  intros Hc. cbn zeta. pose proof (split_no_slash src) as Hs.
  pose proof (join_split src) as Hj.
  destruct (split slash src) as [|p0 [|p1 rest]] eqn:Hsplit.
  - by apply split_not_nil in Hsplit.
  - left. simpl in Hj. subst p0. inversion Hc as [|? ? Hsrc _]; subst.
    assert (Htop : top_level_folder src = "").
    { unfold top_level_folder.
      apply clean_segment_spec in Hsrc as (_ & _ & ->). by rewrite Hsplit. }
    rewrite Htop. done.
  - right. destruct (top_and_tail p0 p1 rest Hc Hs) as (Htop & Htail & Hclean).
    cbn zeta in Htop, Htail. rewrite Hj in Htop, Htail.
    rewrite Htop, Htail. split; [by inversion Hc|]. split; [done|].
    by rewrite <- Hj.
Qed.

(** X7: the destination keeps the whole source path.  For a path whose
    segments are not empty and carry neither surrounding white space nor a
    backslash, a practice or support file goes to its own relative path
    under the category folder, a study file under "lecture" to its path
    under "study", and any other study file to its path under
    "study/lecture". *)
Theorem destination_keeps_source_path (r : ClassificationResult) (src : string) :
  Forall (fun s => clean_segment s = true) (split slash src) →
  dest_rel (make_mapping r src)
  = match category r with
    | PRACTICE => "practice/" +:+ src
    | SUPPORT => "support/" +:+ src
    | STUDY =>
        if String.eqb (top_level_folder src) "lecture" then "study/" +:+ src
        else "study/lecture/" +:+ src
    | SKIP => src
    end.
Proof.
  intros Hc. destruct clean_literals as (Hp & Hsu & Hst & Hl).
  simpl dest_rel. unfold build_dest_rel.
  destruct (mapping_parts_clean src Hc) as [(-> & -> & Hsrc)|(Htop & Htail & Hsrc)].
  - destruct (category r); simpl category_value;
      cbn [String.eqb Ascii.eqb Bool.eqb].
    + pose proof (_join_rel_drop_empty ["study"; "lecture"] [src]) as E.
      cbn [app] in E. rewrite E.
      by rewrite _join_rel_clean by (repeat constructor; done).
    + pose proof (_join_rel_drop_empty ["practice"] [src]) as E.
      cbn [app] in E. rewrite E.
      by rewrite _join_rel_clean by (repeat constructor; done).
    + pose proof (_join_rel_drop_empty ["support"] [src]) as E.
      cbn [app] in E. rewrite E.
      by rewrite _join_rel_clean by (repeat constructor; done).
    + pose proof (_join_rel_drop_empty [] [src]) as E.
      cbn [app] in E. rewrite E.
      by rewrite _join_rel_clean by (repeat constructor; done).
  - set (top := top_level_folder src) in *. set (tail := tail_of src top) in *.
    destruct (category r); simpl category_value;
      cbn [String.eqb Ascii.eqb Bool.eqb].
    + destruct (String.eqb_spec top "lecture") as [Heq|Hne].
      * rewrite _join_rel_clean by (repeat constructor; done).
        rewrite Hsrc. by rewrite Heq.
      * rewrite _join_rel_clean by (repeat constructor; done).
        by rewrite Hsrc.
    + rewrite _join_rel_clean by (repeat constructor; done). by rewrite Hsrc.
    + rewrite _join_rel_clean by (repeat constructor; done). by rewrite Hsrc.
    + rewrite _join_rel_clean by (repeat constructor; done). by rewrite Hsrc.
Qed.

Lemma destination_keeps_source_path_witness :
  dest_rel (make_mapping (Sample.decision PRACTICE (9 # 10) false "") "hw/1/a.pdf")
  = "practice/hw/1/a.pdf".
Proof.
  apply (destination_keeps_source_path
           (Sample.decision PRACTICE (9 # 10) false "") "hw/1/a.pdf").
  vm_compute. repeat constructor.
Defined.

(** X8: the rule for study material is not one to one.  A study file at a
    clean path outside "lecture" and the study file at the same path under
    "lecture" are given the same destination. *)
Theorem study_destinations_collide (r : ClassificationResult) (src : string) :
  category r = STUDY →
  Forall (fun s => clean_segment s = true) (split slash src) →
  top_level_folder src ≠ "lecture" →
  "lecture/" +:+ src ≠ src
  ∧ dest_rel (make_mapping r ("lecture/" +:+ src)) = dest_rel (make_mapping r src).
Proof.
  intros Hr Hc Hne. split.
  { intros H. apply (f_equal String.length) in H.
    rewrite length_append in H. simpl in H. lia. }
  destruct clean_literals as (_ & _ & Hst & Hl).
  assert (Hsplit : split slash ("lecture/" +:+ src) = "lecture" :: split slash src).
  { by apply (split_app_slash "lecture" src). }
  assert (Hall : clean_segment src = true).
  { rewrite <- (join_split src). apply clean_segment_join; [apply split_not_nil|done]. }
  (* under "lecture": the top-level folder is "lecture", the tail is the path *)
  pose proof (split_not_nil slash src) as Hnn.
  pose proof (split_no_slash src) as Hs. pose proof (join_split src) as Hj.
  destruct (split slash src) as [|p1 rest] eqn:E; [done|].
  destruct (top_and_tail "lecture" p1 rest) as (Ht & Htl & _);
    [by constructor|by constructor|].
  cbn zeta in Ht, Htl.
  change (join "/" ("lecture" :: p1 :: rest))
    with ("lecture/" +:+ join "/" (p1 :: rest)) in Ht, Htl.
  rewrite Hj in Ht, Htl.
  simpl dest_rel. rewrite Hr. simpl category_value. rewrite Ht, Htl.
  unfold build_dest_rel. cbn [String.eqb Ascii.eqb Bool.eqb].
  rewrite _join_rel_clean by (repeat constructor; done).
  (* outside "lecture" *)
  assert (Hc' : Forall (fun s => clean_segment s = true) (split slash src))
    by (by rewrite E).
  apply String.eqb_neq in Hne. rewrite Hne.
  destruct (mapping_parts_clean src Hc') as [(-> & -> & _)|(Htop & Htail & Hsrc)].
  - pose proof (_join_rel_drop_empty ["study"; "lecture"] [src]) as X.
    cbn [app] in X. rewrite X.
    by rewrite _join_rel_clean by (repeat constructor; done).
  - rewrite _join_rel_clean by (repeat constructor; done).
    set (top := top_level_folder src) in *. set (tail := tail_of src top) in *.
    by rewrite Hsrc.
Qed.

Lemma study_destinations_collide_witness :
  dest_rel (make_mapping (Sample.decision STUDY (9 # 10) false "") "lecture/hw/a.pdf")
  = dest_rel (make_mapping (Sample.decision STUDY (9 # 10) false "") "hw/a.pdf").
Proof.
  apply (study_destinations_collide
           (Sample.decision STUDY (9 # 10) false "") "hw/a.pdf").
  - reflexivity.
  - vm_compute. repeat constructor.
  - vm_compute. discriminate.
Defined.

(** X25: a backslash as first separator leaves an empty segment in the
    destination.  [top_level_folder] reads a backslash as a separator, but
    the tail is cut from the path as it is, and only a slash is stripped
    from its front: for a path made of a clean first segment, a backslash
    and a clean rest, the backslash stays at the front of the tail and
    [_join_rel] turns it into a second slash. *)
Theorem backslash_separator_doubles_the_slash (r : ClassificationResult)
    (top rest : string) :
  clean_segment top = true → no_slash top = true → clean_segment rest = true →
  let src := top +:+ "\" +:+ rest in
  top_folder (make_mapping r src) = top
  ∧ tail_of src top = "\" +:+ rest
  ∧ dest_rel (make_mapping r src)
    = match category r with
      | PRACTICE => "practice/" +:+ top +:+ "//" +:+ rest
      | SUPPORT => "support/" +:+ top +:+ "//" +:+ rest
      | STUDY =>
          if String.eqb top "lecture" then "study/lecture//" +:+ rest
          else "study/lecture/" +:+ top +:+ "//" +:+ rest
      | SKIP => top +:+ "//" +:+ rest
      end.
Proof.
  intros Htop Hns Hrest. cbn zeta.
  destruct clean_literals as (Hp & Hsu & Hst & Hl).
  pose proof (clean_segment_spec top Htop) as (Hn & Hs & Hr).
  pose proof (clean_segment_spec rest Hrest) as (Hn' & Hs' & Hr').
  apply nonempty_true in Hn'.
  assert (Htl : top_level_folder (top +:+ "\" +:+ rest) = top).
  { unfold top_level_folder. rewrite !replace_char_app, Hr, Hr'.
    change (replace_char backslash slash "\") with "/".
    rewrite split_app_slash by done.
    pose proof (split_not_nil slash rest). by destruct (split slash rest). }
  assert (Htail : tail_of (top +:+ "\" +:+ rest) top = "\" +:+ rest).
  { unfold tail_of. rewrite Hn, drop_append. done. }
  assert (Hc : clean_segment ("/" +:+ rest) = true).
  { apply strip_fixed in Hs' as [Hls Hrs].
    unfold clean_segment, strip.
    change (lstrip_by is_space ("/" +:+ rest)) with ("/" +:+ rest).
    rewrite (rstrip_by_app is_space "/" rest Hn' Hrs).
    rewrite (replace_char_app backslash slash "/" rest), Hr'.
    by rewrite !String.eqb_refl. }
  assert (Hj : ∀ l, Forall (fun s => clean_segment s = true) l →
            _join_rel (l ++ ["\" +:+ rest]) = join "/" (l ++ ["/" +:+ rest])).
  { intros l Hl'. rewrite <- (_join_rel_clean (l ++ ["/" +:+ rest])).
    2:{ apply Forall_app. split; [done|]. by constructor. }
    unfold _join_rel. f_equal. rewrite !filter_app, !map_app. f_equal.
    apply strip_fixed in Hs' as [Hls Hrs].
    assert (Hstrip : strip ("\" +:+ rest) = "\" +:+ rest).
    { unfold strip. change (lstrip_by is_space ("\" +:+ rest)) with ("\" +:+ rest).
      by apply rstrip_by_app. }
    assert (Hstrip' : strip ("/" +:+ rest) = "/" +:+ rest).
    { unfold strip. change (lstrip_by is_space ("/" +:+ rest)) with ("/" +:+ rest).
      by apply rstrip_by_app. }
    rewrite !filter_cons, !filter_nil, Hstrip, Hstrip'. simpl nonempty.
    rewrite !decide_True by done. simpl map. rewrite Hstrip, Hstrip'.
    rewrite (replace_char_app backslash slash "\" rest).
    rewrite (replace_char_app backslash slash "/" rest). done. }
  split; [exact Htl|]. split; [exact Htail|].
  simpl dest_rel. rewrite Htl, Htail. unfold build_dest_rel.
  destruct (category r); simpl category_value;
    cbn [String.eqb Ascii.eqb Bool.eqb].
  - destruct (String.eqb_spec top "lecture") as [->|Hne].
    + etransitivity; [|reflexivity].
      apply (Hj ["study"; "lecture"]); repeat constructor; done.
    + etransitivity; [|reflexivity].
      apply (Hj ["study"; "lecture"; top]); repeat constructor; done.
  - etransitivity; [|reflexivity].
    apply (Hj ["practice"; top]); repeat constructor; done.
  - etransitivity; [|reflexivity].
    apply (Hj ["support"; top]); repeat constructor; done.
  - etransitivity; [|reflexivity].
    apply (Hj [top]); repeat constructor; done.
Qed.

Lemma backslash_separator_doubles_the_slash_witness :
  dest_rel (make_mapping (Sample.decision PRACTICE (9 # 10) false "") "hw\b.txt")
  = "practice/hw//b.txt".
Proof.
  refine (proj2 (proj2 (backslash_separator_doubles_the_slash
                   (Sample.decision PRACTICE (9 # 10) false "") "hw" "b.txt"
                   _ _ _))); reflexivity.
Defined.

(** ** The engine and its collaborators *)

Section ExtraEngine.

Context {Oracle DB : Type}.
Variable classify_folder :
  Oracle -> FolderNode -> gmap string FileIndexEntry -> FolderStats ->
  string -> list string -> option (Oracle * ClassificationResult).
Variable classify_file :
  Oracle -> FileMeta -> gmap string FileIndexEntry -> list string ->
  option (Oracle * ClassificationResult).
Variable get_uuids_for_files : DB -> list string -> option (list string).
Variable update_folder_description_bulk :
  DB -> list string -> string -> option (DB * nat).
Variable build_concat_desc :
  list FileMeta -> gmap string FileIndexEntry -> string.
Variable confidence_threshold : Q.
Variable file_index : gmap string FileIndexEntry.

Implicit Type s : @State Oracle DB.

Local Abbreviation visit_item :=
  (visit classify_folder classify_file get_uuids_for_files
     update_folder_description_bulk build_concat_desc confidence_threshold).
Local Abbreviation loop :=
  (bfs_loop classify_folder classify_file get_uuids_for_files
     update_folder_description_bulk build_concat_desc confidence_threshold).
Local Abbreviation run :=
  (bfs_run classify_folder classify_file get_uuids_for_files
     update_folder_description_bulk build_concat_desc confidence_threshold).
Local Abbreviation bfs_classify :=
  (_bfs_classify classify_folder classify_file get_uuids_for_files
     update_folder_description_bulk build_concat_desc confidence_threshold).
Local Abbreviation ask :=
  (consult classify_folder classify_file build_concat_desc file_index).
Local Abbreviation cases :=
  (visit_cases classify_folder classify_file get_uuids_for_files
     update_folder_description_bulk build_concat_desc confidence_threshold
     file_index).
Local Abbreviation known :=
  (visit_cases_known classify_folder classify_file get_uuids_for_files
     update_folder_description_bulk build_concat_desc confidence_threshold
     file_index).
Local Abbreviation weight_after :=
  (visit_weight classify_folder classify_file get_uuids_for_files
     update_folder_description_bulk build_concat_desc confidence_threshold
     file_index).

(** How the description write ends. *)
Lemma propagate_description_raised (n : FolderNode) (r : ClassificationResult)
    (fs : list FileMeta) s s' :
  propagate_description get_uuids_for_files update_folder_description_bulk
    n r fs s = Raised s' →
  nonempty (folder_description r) = true
  ∧ db s' = db s
  ∧ (get_uuids_for_files (db s) (map file_name fs) = None
     ∨ ∃ uuids, get_uuids_for_files (db s) (map file_name fs) = Some uuids
                ∧ uuids ≠ []
                ∧ update_folder_description_bulk (db s) uuids
                    (folder_description r) = None).
Proof.
  unfold propagate_description.
  destruct (nonempty (folder_description r)); [|done].
  destruct (get_uuids_for_files _ _) as [[|u us]|] eqn:Hg; [done| |].
  - simpl. destruct (update_folder_description_bulk _ _ _) as [[db' c]|] eqn:Hu;
      [done|].
    intros [= <-]. split; [done|]. split; [done|]. right. by exists (u :: us).
  - intros [= <-]. split; [done|]. split; [done|]. by left.
Qed.

(** The turn that raises: the classifier raised, or the description write
    of a confident assignment did. *)
Lemma visit_raised (item : Item) s s' :
  visit_item item file_index s = Raised s' →
  ∃ r, oracle_log s' = oracle_log s ++ [(item, r)]
    ∧ (r = None
       ∨ ∃ n res, item = ItemFolder n ∧ r = Some res
           ∧ confident_skip confidence_threshold res = false
           ∧ descends confidence_threshold res = false
           ∧ nonempty (folder_description res) = true
           ∧ (get_uuids_for_files (db s')
                (map file_name (collect_all_files n)) = None
              ∨ ∃ uuids,
                  get_uuids_for_files (db s')
                    (map file_name (collect_all_files n)) = Some uuids
                  ∧ uuids ≠ []
                  ∧ update_folder_description_bulk (db s') uuids
                      (folder_description res) = None)).
Proof.
  unfold visit. destruct (bool_decide (item_key item ∈ seen s)); [done|].
  destruct item as [n|f].
  - unfold _process_folder. cbn [seen ancestor_desc_map set_seen oracle].
    destruct (classify_folder _ _ _ _ _ _) as [[o' res]|]; cbn zeta.
    2:{ intros [= <-]. exists None. split; [done|by left]. }
    destruct (bool_decide (category res = SKIP)) eqn:Hskip.
    { by destruct (Qle_bool confidence_threshold (confidence res)). }
    rewrite !andb_false_l. cbn iota.
    destruct (negb (is_confident res confidence_threshold) || is_mixed res) eqn:Hd;
      [done|].
    match goal with
    | |- context [propagate_description ?a ?b ?c ?d ?e ?s0] =>
        pose proof (propagate_description_effect a b c d e s0) as Hp;
        destruct (propagate_description a b c d e s0) as [sp|sp] eqn:Hprop
    end; [done|].
    intros [= <-].
    cbn zeta in Hp. simpl outcome_state in Hp.
    destruct Hp as (_ & _ & _ & _ & Hl & _).
    apply propagate_description_raised in Hprop as (Hne & Hdb & Hor).
    exists (Some res). split; [by rewrite Hl|]. right. exists n, res.
    split; [done|]. split; [done|].
    split; [unfold confident_skip; by rewrite Hskip|].
    split; [unfold descends; by rewrite Hskip, Hd|].
    split; [done|]. by rewrite Hdb.
  - unfold _process_file. cbn [seen ancestor_desc_map set_seen oracle].
    destruct (classify_file _ _ _ _) as [[o' res]|]; cbn zeta.
    2:{ intros [= <-]. exists None. split; [done|by left]. }
    by destruct (bool_decide (category res = SKIP)).
Qed.

Lemma loop_raised (fuel : nat) s s' :
  loop fuel file_index s = Some (Raised s') →
  ∃ item s0, visit_item item file_index s0 = Raised s'.
Proof.
  revert s. induction fuel as [|k IH]; intros s Hl; simpl in Hl.
  - by destruct (task_queue s).
  - destruct (task_queue s) as [|item rest]; [done|].
    destruct (visit _ _ _ _ _ _ _ _ _) as [s1|s1] eqn:Hv.
    + by apply (IH s1).
    + injection Hl as <-. eauto.
Qed.

(** X9: an exception that ends the traversal comes from a collaborator.
    When the run is left by an exception, the last consultation logged is
    the one during which it was raised: either the classifier raised, or the
    folder had just received a confident assignment with a description to
    propagate and the lookup of the identifiers or the bulk update raised. *)
Theorem exception_comes_from_a_collaborator (root : FolderNode) (o : Oracle)
    (d : DB) s' :
  run root file_index o d = Some (Raised s') →
  bfs_classify root file_index o d = Some None
  ∧ ∃ before item r, oracle_log s' = before ++ [(item, r)]
    ∧ (r = None
       ∨ ∃ n res, item = ItemFolder n ∧ r = Some res
           ∧ confident_skip confidence_threshold res = false
           ∧ descends confidence_threshold res = false
           ∧ nonempty (folder_description res) = true
           ∧ (get_uuids_for_files (db s')
                (map file_name (collect_all_files n)) = None
              ∨ ∃ uuids,
                  get_uuids_for_files (db s')
                    (map file_name (collect_all_files n)) = Some uuids
                  ∧ uuids ≠ []
                  ∧ update_folder_description_bulk (db s') uuids
                      (folder_description res) = None)).
Proof.
  intros Hrun. split; [unfold _bfs_classify; by rewrite Hrun|].
  apply loop_raised in Hrun as (item & s0 & Hv).
  apply visit_raised in Hv as (r & Hl & Hor).
  by exists (oracle_log s0), item, r.
Qed.

Local Abbreviation decision_of :=
  (visit_decision classify_folder classify_file get_uuids_for_files
     update_folder_description_bulk build_concat_desc confidence_threshold
     file_index).

Section NoFailure.
Hypothesis classify_folder_returns :
  ∀ o n fi st cd anc, is_Some (classify_folder o n fi st cd anc).
Hypothesis classify_file_returns :
  ∀ o f fi anc, is_Some (classify_file o f fi anc).
Hypothesis get_uuids_returns : ∀ d names, is_Some (get_uuids_for_files d names).
Hypothesis update_returns :
  ∀ d uuids desc, is_Some (update_folder_description_bulk d uuids desc).

Lemma visit_returns (item : Item) s :
  ∃ s', visit_item item file_index s = Returned s'.
Proof.
  destruct (visit_item item file_index s) as [s'|s'] eqn:Hv; [eauto|].
  exfalso.
  assert (Hns : item_key item ∉ seen s).
  { intros Hin. unfold visit in Hv. by rewrite bool_decide_eq_true_2 in Hv. }
  pose proof (decision_of item s Hns) as Hd. rewrite Hv in Hd. simpl in Hd.
  apply visit_raised in Hv as (r & Hl & [->|Hor]).
  - rewrite Hl in Hd. apply app_inj_tail in Hd as [_ [= Hnone]].
    destruct item as [n|f]; simpl in Hnone.
    + destruct (classify_folder_returns (oracle s) n file_index
                  (compute_folder_stats n)
                  (build_concat_desc (collect_all_files n) file_index)
                  (default [] (ancestor_desc_map s !! path n))) as [x Hx].
      by rewrite Hx in Hnone.
    + destruct (classify_file_returns (oracle s) f file_index
                  (default [] (ancestor_desc_map s !! folder_path f))) as [x Hx].
      by rewrite Hx in Hnone.
  - destruct Hor as (n & res & _ & _ & _ & _ & _ & [Hg|(u & _ & _ & Hu)]).
    + destruct (get_uuids_returns (db s')
                  (map file_name (collect_all_files n))) as [x Hx]. congruence.
    + destruct (update_returns (db s') u (folder_description res)) as [x Hx].
      congruence.
Qed.

Lemma loop_returns (fuel : nat) s :
  queue_weight (task_queue s) ≤ fuel →
  ∃ s', loop fuel file_index s = Some (Returned s') ∧ task_queue s' = [].
Proof.
  revert s. induction fuel as [|k IH]; intros s Hw.
  - destruct (task_queue s) as [|item rest] eqn:Hq; simpl; rewrite Hq; [eauto|].
    pose proof (item_weight_pos item). unfold queue_weight in Hw. simpl in Hw. lia.
  - simpl. destruct (task_queue s) as [|item rest] eqn:Hq; [eauto|].
    destruct (visit_returns item (set_task_queue rest s)) as [s' Hv].
    rewrite Hv. apply IH. apply weight_after in Hv. simpl in Hv.
    unfold queue_weight in Hw. simpl in Hw. fold (queue_weight rest) in Hw. lia.
Qed.

(** X10: the engine raises nothing of its own.  When the classifier and the
    description store answer every call, the traversal of any tree returns
    a result, and it does so with an empty queue. *)
Theorem traversal_returns_when_collaborators_do (root : FolderNode)
    (o : Oracle) (d : DB) :
  ∃ s, run root file_index o d = Some (Returned s)
    ∧ task_queue s = []
    ∧ bfs_classify root file_index o d = Some (Some (traversal_result s)).
Proof.
  destruct (loop_returns (queue_weight (task_queue (initial_state root o d)))
              (initial_state root o d)) as (s & Hl & Hq); [done|].
  exists s. split; [exact Hl|]. split; [done|].
  unfold _bfs_classify. unfold bfs_run. by rewrite Hl.
Qed.

End NoFailure.

(** *** The registers a turn keeps beside the records *)

(** What a turn does to the folder decisions, to the list of skipped
    folders and to the ancestor contexts. *)
Lemma visit_registers (item : Item) s :
  item_key item ∉ seen s →
  let s' := outcome_state (visit_item item file_index s) in
  match item, snd <$> ask item s with
  | ItemFolder n, Some res =>
      let ca := child_ancestors_of (default [] (ancestor_desc_map s !! path n)) res in
      folder_decisions s' = <[path n := res]> (folder_decisions s)
      ∧ skipped_folders s'
        = skipped_folders s
          ++ (if bool_decide (category res = SKIP) then [path n] else [])
      ∧ ancestor_desc_map s'
        = if negb (confident_skip confidence_threshold res)
             && descends confidence_threshold res
          then <[path n := ca]>
                 (foldl (fun m child => <[path child := ca]> m)
                        (ancestor_desc_map s) (dict_values (children n)))
          else ancestor_desc_map s
  | _, _ =>
      folder_decisions s' = folder_decisions s
      ∧ skipped_folders s' = skipped_folders s
      ∧ ancestor_desc_map s' = ancestor_desc_map s
  end.
Proof.
  intros Hk. unfold visit. rewrite bool_decide_eq_false_2 by done.
  destruct item as [n|f]; simpl consult.
  - unfold _process_folder. cbn [seen ancestor_desc_map set_seen oracle].
    destruct (classify_folder _ _ _ _ _ _) as [[o' res]|]; cbn zeta; [|by simpl].
    simpl fmap. cbv iota. unfold confident_skip, descends.
    destruct (bool_decide (category res = SKIP)) eqn:Hskip.
    { destruct (Qle_bool confidence_threshold (confidence res)); simpl.
      - done.
      - rewrite orb_true_r. done. }
    rewrite !andb_false_l, orb_false_r, app_nil_r. cbn iota.
    destruct (negb (is_confident res confidence_threshold) || is_mixed res);
      [by simpl|].
    match goal with
    | |- context [propagate_description ?a ?b ?c ?d ?e ?s0] =>
        pose proof (propagate_description_effect a b c d e s0) as Hp;
        destruct (propagate_description a b c d e s0) as [sp|sp]
    end; cbn zeta in Hp; simpl outcome_state in *;
      destruct Hp as (_ & _ & _ & _ & _ & Hfd & Hsk & Ham & _).
    + match goal with
      | |- context [foldl (assign_file ?n0 ?r0 ?ca) sp ?fs] =>
          destruct (assign_file_fold n0 r0 ca fs sp)
            as (_ & _ & _ & _ & _ & _ & -> & -> & ->)
      end.
      by rewrite Hfd, Hsk, Ham.
    + by rewrite Hfd, Hsk, Ham.
  - unfold _process_file. cbn [seen ancestor_desc_map set_seen oracle].
    destruct (classify_file _ _ _ _) as [[o' res]|]; cbn zeta; [|by simpl].
    by destruct (bool_decide (category res = SKIP)); simpl.
Qed.

Local Abbreviation registers :=
  (visit_registers).
Local Abbreviation invariant :=
  (loop_invariant classify_folder classify_file get_uuids_for_files
     update_folder_description_bulk build_concat_desc confidence_threshold
     file_index).
Local Abbreviation total :=
  (run_total classify_folder classify_file get_uuids_for_files
     update_folder_description_bulk build_concat_desc confidence_threshold
     file_index).

(** A turn in which the classifier raises writes nothing. *)
Lemma visit_unknown (item : Item) s :
  item_key item ∉ seen s → ask item s = None →
  let s' := outcome_state (visit_item item file_index s) in
  task_queue s' = task_queue s ∧ classifications s' = classifications s
  ∧ mappings s' = mappings s ∧ db_log s' = db_log s.
Proof.
  intros Hns Hask. cbn zeta.
  destruct (cases item s Hns) as (_ & r & Hl & Hc).
  rewrite (decision_of item s Hns), Hask in Hl.
  apply app_inj_tail in Hl as [_ [= <-]].
  destruct item; by destruct Hc as (_ & -> & -> & -> & ->).
Qed.

Lemma foldl_insert_const {V : Type} (v : V) (kids : list FolderNode)
    (m : gmap string V) (k : string) (x : V) :
  foldl (fun m child => <[path child := v]> m) m kids !! k = Some x →
  x = v ∨ m !! k = Some x.
Proof.
  revert m. induction kids as [|c kids IH]; intros m; simpl; [by right|].
  intros [->|[[_ <-]|[_ H]]%lookup_insert_Some]%IH; auto.
Qed.

Lemma child_ancestors_bound (anc : list string) (r : ClassificationResult) :
  length anc ≤ MAX_ANCESTOR_DEPTH →
  length (child_ancestors_of anc r) ≤ MAX_ANCESTOR_DEPTH.
Proof.
  intros H. unfold child_ancestors_of.
  destruct (nonempty (folder_description r)); simpl; [|done].
  destruct (Nat.ltb_spec (length anc) MAX_ANCESTOR_DEPTH); [|done].
  rewrite length_app. simpl. lia.
Qed.

(** Neither a stored ancestor context nor the context of a record is
    longer than the bound. *)
Lemma depth_bound_step (item : Item) (rest : list Item) s :
  ((∀ k l, ancestor_desc_map s !! k = Some l → length l ≤ MAX_ANCESTOR_DEPTH)
   ∧ ∀ k c, classifications s !! k = Some c →
            length (ancestor_descriptions c) ≤ MAX_ANCESTOR_DEPTH) →
  let s' := outcome_state (visit_item item file_index (set_task_queue rest s)) in
  (∀ k l, ancestor_desc_map s' !! k = Some l → length l ≤ MAX_ANCESTOR_DEPTH)
  ∧ ∀ k c, classifications s' !! k = Some c →
           length (ancestor_descriptions c) ≤ MAX_ANCESTOR_DEPTH.
Proof.
  intros [Ha Hc]. cbn zeta. set (s0 := set_task_queue rest s).
  destruct (decide (item_key item ∈ seen s0)) as [Hin|Hns].
  { unfold visit. by rewrite bool_decide_eq_true_2. }
  assert (Hanc : ∀ k, length (default [] (ancestor_desc_map s0 !! k))
                      ≤ MAX_ANCESTOR_DEPTH).
  { intros k. simpl. destruct (ancestor_desc_map s !! k) as [l|] eqn:E; simpl.
    - by apply (Ha k). - unfold MAX_ANCESTOR_DEPTH. lia. }
  pose proof (registers item s0 Hns) as Hr. cbn zeta in Hr.
  destruct item as [n|f];
    [destruct (ask (ItemFolder n) s0) as [[o' res]|] eqn:Hask
    |destruct (ask (ItemFile f) s0) as [[o' res]|] eqn:Hask];
    try (destruct (visit_unknown _ s0 Hns Hask) as (_ & -> & _);
         simpl fmap in Hr; cbv iota in Hr; destruct Hr as (_ & _ & ->); done);
    pose proof (known _ s0 o' res Hns Hask) as Hk; cbn zeta in Hk;
    simpl fmap in Hr; cbv iota in Hr.
  - destruct Hr as (_ & _ & Hm). cbn zeta in Hm.
    pose proof (child_ancestors_bound _ res (Hanc (path n))) as Hca.
    split.
    + rewrite Hm. destruct (_ && _); [|exact Ha].
      intros k l [[_ <-]|[_ H]]%lookup_insert_Some; [done|].
      apply foldl_insert_const in H as [->|H]; [done|by apply (Ha k)].
    + intros k c. destruct (confident_skip _ _).
      { destruct Hk as (_ & _ & -> & _).
        intros [[_ <-]|[_ H]]%lookup_insert_Some; [apply Hanc|by apply (Hc k)]. }
      destruct (descends _ _).
      { destruct Hk as (_ & _ & -> & _).
        intros [[_ <-]|[_ H]]%lookup_insert_Some; [apply Hanc|by apply (Hc k)]. }
      destruct Hk as (_ & _ & _ & _ & [(_ & -> & _)|(_ & -> & _)]).
      { intros [[_ <-]|[_ H]]%lookup_insert_Some; [apply Hanc|by apply (Hc k)]. }
      unfold assign_classifications.
      destruct (decide (k ∈ map source_path (collect_all_files n))) as [Hin|Hnin].
      * destruct (foldl_insert_in
                    (inherited_classification n res
                       (child_ancestors_of
                          (default [] (ancestor_desc_map s0 !! path n)) res))
                    (collect_all_files n)
                    (<[path n := folder_classification n (category res) res ""
                                   (default [] (ancestor_desc_map s0 !! path n))]>
                       (classifications s0)) k Hin) as (g & _ & _ & ->).
        by intros [= <-].
      * rewrite foldl_insert_notin by done.
        intros [[_ <-]|[_ H]]%lookup_insert_Some; [apply Hanc|by apply (Hc k)].
  - destruct Hr as (_ & _ & ->). split; [exact Ha|].
    destruct Hk as (_ & _ & _ & Hk). intros k c.
    destruct (bool_decide (category res = SKIP)).
    + destruct Hk as (-> & _). by apply (Hc k).
    + destruct Hk as (-> & _).
      intros [[_ <-]|[_ H]]%lookup_insert_Some; [apply Hanc|by apply (Hc k)].
Qed.

(** X11: ancestor contexts are bounded.  Whatever the depth of the tree, no
    ancestor context stored for a folder and no context recorded with a
    classification holds more than [MAX_ANCESTOR_DEPTH] descriptions. *)
Theorem ancestor_context_is_bounded (root : FolderNode) (o : Oracle) (d : DB) :
  ∃ out, run root file_index o d = Some out
    ∧ (∀ k l, ancestor_desc_map (outcome_state out) !! k = Some l →
              length l ≤ MAX_ANCESTOR_DEPTH)
    ∧ (∀ k c, classifications (outcome_state out) !! k = Some c →
              length (ancestor_descriptions c) ≤ MAX_ANCESTOR_DEPTH).
Proof.
  destruct (total root o d) as [out Hrun]. exists out. split; [done|].
  refine (invariant
            (fun s => (∀ k l, ancestor_desc_map s !! k = Some l →
                              length l ≤ MAX_ANCESTOR_DEPTH)
                      ∧ ∀ k c, classifications s !! k = Some c →
                               length (ancestor_descriptions c)
                               ≤ MAX_ANCESTOR_DEPTH)
            _ _ _ out _ Hrun).
  - intros item rest s HP _. by apply depth_bound_step.
  - split.
    + intros k l H. simpl in H.
      apply foldl_insert_const in H as [->|H]; [simpl; lia|].
      by rewrite lookup_empty in H.
    + intros k c H. simpl in H. by rewrite lookup_empty in H.
Qed.

Local Abbreviation visited_step :=
  (inv_visited_step classify_folder classify_file get_uuids_for_files
     update_folder_description_bulk build_concat_desc confidence_threshold
     file_index).

Lemma foldl_insert_keeps {V : Type} (g : FileMeta → V) (fs : list FileMeta)
    (m : gmap string V) (k : string) :
  is_Some (m !! k) →
  is_Some (foldl (fun m f => <[source_path f := g f]> m) m fs !! k).
Proof.
  intros Hk. destruct (decide (k ∈ map source_path fs)) as [Hin|Hnin].
  - destruct (foldl_insert_in g fs m k Hin) as (f & _ & _ & ->). eauto.
  - by rewrite foldl_insert_notin.
Qed.

(** A turn removes no record, and a folder that received a decision has a
    record after its turn. *)
Lemma visit_keeps_records (item : Item) s (k : string) :
  let s' := outcome_state (visit_item item file_index s) in
  (is_Some (classifications s !! k) → is_Some (classifications s' !! k))
  ∧ (item_key item ∉ seen s → ∀ n, item = ItemFolder n →
     is_Some (ask item s) → is_Some (classifications s' !! path n)).
Proof.
  cbn zeta. destruct (decide (item_key item ∈ seen s)) as [Hin|Hns].
  { unfold visit. rewrite bool_decide_eq_true_2 by done. split; [done|].
    intros Hns. done. }
  assert (Hins : ∀ (c : Classification) (j : string),
            is_Some (classifications s !! k) →
            is_Some (<[j := c]> (classifications s) !! k)).
  { intros c j Hk. destruct (decide (j = k)) as [->|Hne].
    - rewrite lookup_insert_eq. eauto.
    - by rewrite lookup_insert_ne. }
  destruct item as [n|f];
    [destruct (ask (ItemFolder n) s) as [[o' res]|] eqn:Hask
    |destruct (ask (ItemFile f) s) as [[o' res]|] eqn:Hask];
    try (destruct (visit_unknown _ s Hns Hask) as (_ & -> & _);
         split; [done|]; intros _ n' _ [x Hx]; done);
    pose proof (known _ s o' res Hns Hask) as Hk; cbn zeta in Hk.
  - assert (Hself : ∀ (c : Classification),
              is_Some (<[path n := c]> (classifications s) !! path n)).
    { intros c. rewrite lookup_insert_eq. eauto. }
    destruct (confident_skip _ _).
    { destruct Hk as (_ & _ & -> & _). split; [apply Hins|].
      intros _ n' [= <-] _. apply Hself. }
    destruct (descends _ _).
    { destruct Hk as (_ & _ & -> & _). split; [apply Hins|].
      intros _ n' [= <-] _. apply Hself. }
    destruct Hk as (_ & _ & _ & _ & [(_ & -> & _)|(_ & -> & _)]).
    { split; [apply Hins|]. intros _ n' [= <-] _. apply Hself. }
    unfold assign_classifications. split.
    + intros H. apply foldl_insert_keeps. by apply Hins.
    + intros _ n' [= <-] _. apply foldl_insert_keeps. apply Hself.
  - destruct Hk as (_ & _ & _ & Hk). split; [|done].
    destruct (bool_decide (category res = SKIP)).
    + by destruct Hk as (-> & _).
    + destruct Hk as (-> & _). apply Hins.
Qed.

(** The folder decisions, the skipped folders and the log agree. *)
Lemma decisions_step (item : Item) (rest : list Item) s :
  inv_visited s →
  ((∀ k r, folder_decisions s !! k = Some r →
      (∃ n, path n = k ∧ (ItemFolder n, Some r) ∈ oracle_log s)
      ∧ is_Some (classifications s !! k))
   ∧ NoDup (skipped_folders s)
   ∧ ∀ k, k ∈ skipped_folders s
          ↔ ∃ r, folder_decisions s !! k = Some r ∧ category r = SKIP) →
  let s' := outcome_state (visit_item item file_index (set_task_queue rest s)) in
  (∀ k r, folder_decisions s' !! k = Some r →
     (∃ n, path n = k ∧ (ItemFolder n, Some r) ∈ oracle_log s')
     ∧ is_Some (classifications s' !! k))
  ∧ NoDup (skipped_folders s')
  ∧ ∀ k, k ∈ skipped_folders s'
         ↔ ∃ r, folder_decisions s' !! k = Some r ∧ category r = SKIP.
Proof.
  intros Hvis (Hd & Hnd & Hsk). cbn zeta. set (s0 := set_task_queue rest s).
  destruct (decide (item_key item ∈ seen s0)) as [Hin|Hns].
  { unfold visit. by rewrite bool_decide_eq_true_2. }
  pose proof (registers item s0 Hns) as Hr. cbn zeta in Hr.
  pose proof (decision_of item s0 Hns) as Hlog.
  pose proof (fun k => proj1 (visit_keeps_records item s0 k)) as Hkeep.
  pose proof (fun k => proj2 (visit_keeps_records item s0 k) Hns) as Hown.
  cbn zeta in Hkeep, Hown.
  assert (Hold : ∀ k r, folder_decisions s !! k = Some r →
            (∃ n, path n = k
                  ∧ (ItemFolder n, Some r)
                    ∈ oracle_log (outcome_state (visit_item item file_index s0)))
            ∧ is_Some (classifications
                         (outcome_state (visit_item item file_index s0)) !! k)).
  { intros k r H. destruct (Hd k r H) as ((n & Hn & Hin) & Hc).
    split; [|by apply Hkeep]. exists n. split; [done|].
    rewrite Hlog. apply elem_of_app. by left. }
  assert (Hsame : folder_decisions
                    (outcome_state (visit_item item file_index s0))
                  = folder_decisions s →
                  skipped_folders
                    (outcome_state (visit_item item file_index s0))
                  = skipped_folders s →
                  (∀ k r, folder_decisions
                            (outcome_state (visit_item item file_index s0)) !! k
                          = Some r →
                     (∃ n, path n = k
                           ∧ (ItemFolder n, Some r)
                             ∈ oracle_log
                                 (outcome_state (visit_item item file_index s0)))
                     ∧ is_Some (classifications
                                  (outcome_state
                                     (visit_item item file_index s0)) !! k))
                  ∧ NoDup (skipped_folders
                             (outcome_state (visit_item item file_index s0)))
                  ∧ ∀ k, k ∈ skipped_folders
                               (outcome_state (visit_item item file_index s0))
                         ↔ ∃ r, folder_decisions
                                  (outcome_state
                                     (visit_item item file_index s0)) !! k
                                = Some r ∧ category r = SKIP).
  { intros -> ->. done. }
  destruct item as [n|f].
  2:{ destruct Hr as (Hf & Hs & _). by apply Hsame. }
  destruct (ask (ItemFolder n) s0) as [[o' res]|] eqn:Hask; simpl fmap in Hr, Hlog;
    cbv iota in Hr.
  2:{ destruct Hr as (Hf & Hs & _). by apply Hsame. }
  destruct Hr as (Hf & Hs & _). simpl in Hf, Hs.
  assert (Hfresh : folder_decisions s !! path n = None).
  { destruct (folder_decisions s !! path n) as [r|] eqn:E; [|done].
    exfalso. destruct (Hd _ _ E) as ((n' & Hn' & Hin) & _).
    apply Hns. simpl. rewrite <- Hn'.
    change (path n') with (item_key (ItemFolder n')).
    by apply (log_key_seen s (ItemFolder n') (Some r)). }
  assert (Hnot : path n ∉ skipped_folders s).
  { intros (r & Hr & _)%Hsk. congruence. }
  rewrite Hf, Hs. split; [|split].
  - intros k r [[<- <-]|[Hne H]]%lookup_insert_Some; [|by apply Hold].
    split.
    + exists n. split; [done|]. rewrite Hlog. apply elem_of_app. right. by left.
    + apply (Hown (path n) n); [done|]. eauto.
  - destruct (bool_decide (category res = SKIP)); [|by rewrite app_nil_r].
    apply NoDup_app. split; [done|]. split; [|apply NoDup_singleton].
    by intros x Hx ->%list_elem_of_singleton.
  - intros k. rewrite elem_of_app, Hsk. split.
    + intros [(r & Hr & Hcat)|Hk].
      * exists r. split; [|done]. rewrite lookup_insert_ne; [done|]. congruence.
      * destruct (bool_decide (category res = SKIP)) eqn:Hb;
          [|by apply elem_of_nil in Hk].
        apply list_elem_of_singleton in Hk as ->. exists res.
        rewrite lookup_insert_eq. split; [done|]. by apply bool_decide_eq_true in Hb.
    + intros (r & [[<- <-]|[Hne H]]%lookup_insert_Some & Hcat).
      * right. rewrite bool_decide_eq_true_2 by done. by left.
      * left. eauto.
Qed.

(** X12: the three registers of folder decisions agree.  At the end of a
    run, every folder decision is the logged answer of the classifier for a
    folder of that path, and that path has a classification record; the list
    of skipped folders names, each once, exactly the folders whose decision
    is Skip, whether that decision was confident or not. *)
Theorem skipped_folders_are_the_skip_decisions (root : FolderNode) (o : Oracle)
    (d : DB) :
  ∃ out, run root file_index o d = Some out
    ∧ (∀ k r, folder_decisions (outcome_state out) !! k = Some r →
         (∃ n, path n = k ∧ (ItemFolder n, Some r) ∈ oracle_log (outcome_state out))
         ∧ is_Some (classifications (outcome_state out) !! k))
    ∧ NoDup (skipped_folders (outcome_state out))
    ∧ (∀ k, k ∈ skipped_folders (outcome_state out)
            ↔ ∃ r, folder_decisions (outcome_state out) !! k = Some r
                   ∧ category r = SKIP).
Proof.
  destruct (total root o d) as [out Hrun]. exists out. split; [done|].
  refine (proj2 (invariant
            (fun s => inv_visited s
               ∧ (∀ k r, folder_decisions s !! k = Some r →
                    (∃ n, path n = k ∧ (ItemFolder n, Some r) ∈ oracle_log s)
                    ∧ is_Some (classifications s !! k))
               ∧ NoDup (skipped_folders s)
               ∧ ∀ k, k ∈ skipped_folders s
                      ↔ ∃ r, folder_decisions s !! k = Some r ∧ category r = SKIP)
            _ _ _ out _ Hrun)).
  - intros item rest s [Hv HP] _. split; [by apply visited_step|].
    by apply decisions_step.
  - split.
    { exact (inv_visited_initial classify_folder classify_file
               get_uuids_for_files update_folder_description_bulk file_index
               root o d). }
    refine (conj _ (conj _ _)).
    + intros k r H. simpl in H. by rewrite lookup_empty in H.
    + constructor.
    + intros k. split; [by intros H%elem_of_nil|].
      intros (r & H & _). simpl in H. by rewrite lookup_empty in H.
Qed.

(** *** The confident assignment *)

(** The description write that returns logs the update it made, if any. *)
Lemma propagate_description_returned (n : FolderNode) (r : ClassificationResult)
    (fs : list FileMeta) s s' :
  propagate_description get_uuids_for_files update_folder_description_bulk
    n r fs s = Returned s' →
  if nonempty (folder_description r)
  then ∃ uuids, get_uuids_for_files (db s) (map file_name fs) = Some uuids
         ∧ match uuids with
           | [] => db_log s' = db_log s ∧ db s' = db s
           | _ => db_log s' = db_log s ++ [(path n, uuids, folder_description r)]
                  ∧ ∃ count, update_folder_description_bulk (db s) uuids
                               (folder_description r) = Some (db s', count)
           end
  else db_log s' = db_log s ∧ db s' = db s.
Proof.
  unfold propagate_description.
  destruct (nonempty (folder_description r)); [|by intros [= <-]].
  destruct (get_uuids_for_files _ _) as [[|u us]|] eqn:Hg; [| |done].
  - intros [= <-]. by exists [].
  - simpl. destruct (update_folder_description_bulk _ _ _) as [[db' c]|] eqn:Hu;
      [|done].
    intros [= <-]. exists (u :: us). split; [done|]. split; [done|]. by exists c.
Qed.

(** The turn of a folder whose decision is a confident assignment, as the
    two steps it is made of: the description write, from the state that
    holds the record of the folder, and then the records of the files. *)
Lemma visit_assign (n : FolderNode) s (o' : Oracle) (r : ClassificationResult) :
  path n ∉ seen s → ask (ItemFolder n) s = Some (o', r) →
  confident_skip confidence_threshold r = false →
  descends confidence_threshold r = false →
  let anc := default [] (ancestor_desc_map s !! path n) in
  ∃ s1, db s1 = db s ∧ db_log s1 = db_log s
    ∧ visit_item (ItemFolder n) file_index s
      = match propagate_description get_uuids_for_files
                update_folder_description_bulk n r (collect_all_files n) s1 with
        | Raised s2 => Raised s2
        | Returned s2 =>
            Returned (foldl (assign_file n r (child_ancestors_of anc r)) s2
                        (collect_all_files n))
        end.
Proof.
  intros Hns Hask Hcs Hds. cbn zeta.
  unfold visit. simpl item_key. rewrite bool_decide_eq_false_2 by done.
  unfold _process_folder. cbn [seen ancestor_desc_map set_seen oracle].
  simpl in Hask. rewrite Hask. cbn zeta.
  unfold confident_skip in Hcs. unfold descends in Hds.
  apply orb_false_iff in Hds as [Hd Hskip]. rewrite Hskip in *.
  rewrite !andb_false_l. cbn iota. rewrite Hd.
  eexists. split; [|split; [|reflexivity]]; done.
Qed.

(** The mappings a confident assignment leaves. *)
Lemma assign_maps_subtree (n : FolderNode) s s' (o' : Oracle)
    (r : ClassificationResult) (f : FileMeta) :
  path n ∉ seen s → ask (ItemFolder n) s = Some (o', r) →
  confident_skip confidence_threshold r = false →
  descends confidence_threshold r = false →
  visit_item (ItemFolder n) file_index s = Returned s' →
  f ∈ tree_files n →
  mappings s' !! source_path f = Some (make_mapping r (source_path f)).
Proof.
  intros Hns Hask Hcs Hds Hv Hf.
  pose proof (known (ItemFolder n) s o' r Hns Hask) as Hk. cbn zeta in Hk.
  rewrite Hcs, Hds, Hv in Hk. simpl outcome_state in Hk.
  destruct Hk as (_ & _ & _ & _ & [(? & _)|(_ & _ & ->)]); [done|].
  rewrite <- collect_all_files_perm in Hf.
  assert (Hin : source_path f ∈ map source_path (collect_all_files n)).
  { apply list_elem_of_fmap. by exists f. }
  unfold assign_mappings.
  destruct (foldl_insert_in (fun f => make_mapping r (source_path f))
              (collect_all_files n) (mappings s) _ Hin) as (g & _ & Hg & ->).
  by rewrite Hg.
Qed.

(** X13: a confident assignment gives every file of the subtree the
    category of the folder.  When the decision of a folder is confident, not
    mixed and not Skip, nothing of the folder joins the queue; the
    description, if there is one and the store knows a file of the subtree,
    is written once for the identifiers the store returned for the file
    names of the subtree; and if the turn returns, every file of the subtree
    has a mapping made from the decision (its source path, the destination
    built from the category, the top-level folder and the tail, and the
    reason of the decision) and a record that carries the category and the
    confidence of the folder, a reason that names the folder, the level
    "folder", the folder as its parent and the ancestor context extended by
    the description. *)
Theorem confident_assignment_covers_subtree (n : FolderNode) s s' (o' : Oracle)
    (r : ClassificationResult) :
  path n ∉ seen s → ask (ItemFolder n) s = Some (o', r) →
  confident_skip confidence_threshold r = false →
  descends confidence_threshold r = false →
  visit_item (ItemFolder n) file_index s = Returned s' →
  let anc := default [] (ancestor_desc_map s !! path n) in
  task_queue s' = task_queue s
  ∧ (∀ f, f ∈ tree_files n →
       mappings s' !! source_path f
       = Some {| source_rel := source_path f;
                 dest_rel :=
                   build_dest_rel (category_value (category r))
                     (top_level_folder (source_path f))
                     (tail_of (source_path f) (top_level_folder (source_path f)));
                 top_folder := top_level_folder (source_path f);
                 fm_category := category_value (category r);
                 fm_reason := reason r |}
       ∧ classifications s' !! source_path f
         = Some {| cl_path := source_path f;
                   cl_category := category r;
                   cl_confidence := confidence r;
                   cl_reason :=
                     "Inherited from folder '" +:+ path n +:+ "': " +:+ reason r;
                   classified_at_level := "folder";
                   parent_folder := Some (path n);
                   ancestor_descriptions := child_ancestors_of anc r |})
  ∧ (if nonempty (folder_description r)
     then ∃ uuids,
            get_uuids_for_files (db s) (map file_name (collect_all_files n))
            = Some uuids
            ∧ db_log s'
              = db_log s
                ++ match uuids with
                   | [] => []
                   | _ => [(path n, uuids, folder_description r)]
                   end
     else db_log s' = db_log s).
Proof.
  intros Hns Hask Hcs Hds Hv. cbn zeta.
  pose proof (known (ItemFolder n) s o' r Hns Hask) as Hk. cbn zeta in Hk.
  rewrite Hcs, Hds, Hv in Hk. simpl outcome_state in Hk.
  destruct Hk as (_ & _ & Hq & _ & [(? & _)|(_ & Hc & Hm)]); [done|].
  split; [done|]. split.
  - intros f Hf. rewrite <- collect_all_files_perm in Hf.
    assert (Hin : source_path f ∈ map source_path (collect_all_files n)).
    { apply list_elem_of_fmap. by exists f. }
    rewrite Hc, Hm. unfold assign_mappings, assign_classifications. split.
    + destruct (foldl_insert_in (fun f => make_mapping r (source_path f))
                  (collect_all_files n) (mappings s) _ Hin)
        as (g & _ & Hg & ->). unfold make_mapping. by rewrite Hg.
    + match goal with
      | |- foldl _ ?m _ !! _ = _ =>
          destruct (foldl_insert_in
                      (inherited_classification n r
                         (child_ancestors_of
                            (default [] (ancestor_desc_map s !! path n)) r))
                      (collect_all_files n) m _ Hin) as (g & _ & Hg & ->)
      end.
      unfold inherited_classification. by rewrite Hg.
  - destruct (visit_assign n s o' r Hns Hask Hcs Hds) as (s1 & Hdb & Hlog & Hva).
    rewrite Hva in Hv.
    destruct (propagate_description _ _ _ _ _ s1) as [s2|s2] eqn:Hp; [|done].
    injection Hv as <-.
    destruct (assign_file_fold n r
                (child_ancestors_of (default [] (ancestor_desc_map s !! path n)) r)
                (collect_all_files n) s2) as (_ & _ & _ & _ & _ & -> & _).
    apply propagate_description_returned in Hp.
    destruct (nonempty (folder_description r)).
    + destruct Hp as (uuids & Hg & Hu). exists uuids. rewrite <- Hdb, <- Hlog.
      split; [done|]. destruct uuids; [destruct Hu as [-> _]|destruct Hu as [-> _]].
      * by rewrite app_nil_r.
      * done.
    + destruct Hp as [-> _]. done.
Qed.

(** *** No file is lost *)

Local Abbreviation all_step :=
  (inv_all_step classify_folder classify_file get_uuids_for_files
     update_folder_description_bulk build_concat_desc confidence_threshold
     file_index).

(** A property kept by every turn that returns holds when the loop
    returns, and the queue is empty then. *)
Lemma loop_invariant_returned (P : State → Prop) :
  (∀ item rest s s', P s → task_queue s = item :: rest →
      visit_item item file_index (set_task_queue rest s) = Returned s' → P s') →
  ∀ fuel s s', P s → loop fuel file_index s = Some (Returned s') →
               P s' ∧ task_queue s' = [].
Proof.
  intros Hstep. induction fuel as [|k IH]; intros s s' HP Hl; simpl in Hl.
  - destruct (task_queue s) eqn:Hq; [|done]. by injection Hl as <-.
  - destruct (task_queue s) as [|item rest] eqn:Hq; [by injection Hl as <-|].
    destruct (visit _ _ _ _ _ _ _ _ _) as [s1|s1] eqn:Hv; [|done].
    apply (IH s1); [|done]. by apply (Hstep item rest s).
Qed.

Lemma visit_keeps_mappings (item : Item) s (k : string) :
  is_Some (mappings s !! k) →
  is_Some (mappings (outcome_state (visit_item item file_index s)) !! k).
Proof.
  intros Hk. destruct (decide (item_key item ∈ seen s)) as [Hin|Hns].
  { unfold visit. by rewrite bool_decide_eq_true_2. }
  destruct (cases item s Hns) as (_ & r & _ & Hc).
  destruct item as [n|f], r as [res|].
  - cbn zeta in Hc. destruct (confident_skip _ _).
    { by destruct Hc as (_ & _ & _ & -> & _). }
    destruct (descends _ _).
    { by destruct Hc as (_ & _ & _ & -> & _). }
    destruct Hc as (_ & _ & _ & _ & [(_ & _ & ->)|(_ & _ & ->)]); [done|].
    by apply foldl_insert_keeps.
  - by destruct Hc as (_ & _ & _ & -> & _).
  - destruct Hc as (_ & _ & _ & Hc). destruct (bool_decide _).
    + by destruct Hc as (_ & ->).
    + destruct Hc as (_ & ->). destruct (decide (source_path f = k)) as [->|Hne].
      * rewrite lookup_insert_eq. eauto.
      * by rewrite lookup_insert_ne.
  - by destruct Hc as (_ & _ & _ & -> & _).
Qed.

(** Every file of the tree is still waiting in the queue, or is mapped, or
    lies below a folder pruned by a confident Skip, or was skipped itself. *)
Lemma accounted_step (root : FolderNode) (item : Item) (rest : list Item) s s' :
  inv_frontier s → task_queue s = item :: rest →
  visit_item item file_index (set_task_queue rest s) = Returned s' →
  (∀ f, f ∈ tree_files root →
     f ∈ flat_map item_files (task_queue s)
     ∨ is_Some (mappings s !! source_path f)
     ∨ (∃ n r, (ItemFolder n, Some r) ∈ oracle_log s
               ∧ confident_skip confidence_threshold r = true
               ∧ f ∈ tree_files n)
     ∨ (∃ r, (ItemFile f, Some r) ∈ oracle_log s ∧ category r = SKIP)) →
  ∀ f, f ∈ tree_files root →
    f ∈ flat_map item_files (task_queue s')
    ∨ is_Some (mappings s' !! source_path f)
    ∨ (∃ n r, (ItemFolder n, Some r) ∈ oracle_log s'
              ∧ confident_skip confidence_threshold r = true
              ∧ f ∈ tree_files n)
    ∨ (∃ r, (ItemFile f, Some r) ∈ oracle_log s' ∧ category r = SKIP).
Proof.
  intros Hfr Hq Hv Hcov f Hf. set (s0 := set_task_queue rest s) in *.
  destruct (frontier_head s item rest Hfr Hq) as (_ & _ & _ & Hfresh).
  assert (Hns : item_key item ∉ seen s0).
  { apply (Hfresh (item_key item)). left. apply item_key_closure. }
  pose proof (decision_of item s0 Hns) as Hlog. rewrite Hv in Hlog.
  simpl outcome_state in Hlog.
  pose proof (visit_keeps_mappings item s0 (source_path f)) as Hkeep.
  rewrite Hv in Hkeep. simpl outcome_state in Hkeep.
  assert (Hrest : ∀ g, g ∈ flat_map item_files rest →
                       g ∈ flat_map item_files (task_queue s')).
  { intros g Hg.
    destruct (visit_queue classify_folder classify_file get_uuids_for_files
                update_folder_description_bulk build_concat_desc
                confidence_threshold file_index item s0 Hns) as [Hsame|Hmore];
      cbn zeta in *; rewrite Hv in *; simpl outcome_state in *.
    - by rewrite Hsame.
    - destruct Hmore as (n & res & _ & _ & _ & -> & _).
      rewrite flat_map_app. apply elem_of_app. by left. }
  destruct (Hcov f Hf) as [Hin|[Hm|[(n & r & Hl & Hcs & Hn)|(r & Hl & Hcat)]]].
  - rewrite Hq in Hin. simpl in Hin. apply elem_of_app in Hin as [Hit|Hin];
      [|left; by apply Hrest].
    destruct (ask item s0) as [[o' res]|] eqn:Hask.
    2:{ exfalso. destruct (cases item s0 Hns) as (_ & r & Hl & Hc).
        rewrite Hv in Hl, Hc. simpl outcome_state in Hl, Hc.
        rewrite Hlog in Hl. apply app_inj_tail in Hl as [_ [= <-]].
        destruct item; by destruct Hc as (? & _). }
    pose proof (known item s0 o' res Hns Hask) as Hk. cbn zeta in Hk.
    rewrite Hv in Hk. simpl outcome_state in Hk. simpl fmap in Hlog.
    destruct item as [n|g]; simpl in Hit.
    + destruct (confident_skip confidence_threshold res) eqn:Hcs.
      { right. right. left. exists n, res. split; [|done].
        rewrite Hlog. apply elem_of_app. right. by left. }
      destruct (descends confidence_threshold res) eqn:Hds.
      { left. destruct Hk as (_ & -> & _). simpl task_queue.
        rewrite flat_map_app. apply elem_of_app. right.
        rewrite tree_files_eq in Hit. rewrite flat_map_app.
        apply elem_of_app in Hit as [Hit|Hit]; apply elem_of_app.
        - right. clear -Hit. induction (files n) as [|x l IH]; [done|].
          simpl. apply elem_of_cons in Hit as [->|Hit]; [by left|right; auto].
        - left. clear -Hit. induction (dict_values (children n)) as [|x l IH];
            [done|].
          simpl in *. apply elem_of_app in Hit as [Hit|Hit]; apply elem_of_app;
            [by left|right; auto]. }
      right. left.
      rewrite (assign_maps_subtree n s0 s' o' res f Hns Hask Hcs Hds Hv Hit).
      eauto.
    + apply list_elem_of_singleton in Hit as ->.
      destruct Hk as (_ & _ & _ & Hk).
      destruct (bool_decide (category res = SKIP)) eqn:Hb.
      * right. right. right. exists res. split.
        -- rewrite Hlog. apply elem_of_app. right. by left.
        -- by apply bool_decide_eq_true in Hb.
      * right. left. destruct Hk as (_ & ->). rewrite lookup_insert_eq. eauto.
  - right. left. by apply Hkeep.
  - right. right. left. exists n, r. split; [|done].
    rewrite Hlog. apply elem_of_app. by left.
  - right. right. right. exists r. split; [|done].
    rewrite Hlog. apply elem_of_app. by left.
Qed.

(** When the run returns, the invariants hold and every file of the tree
    is mapped, pruned or skipped. *)
Lemma covered_run (root : FolderNode) (o : Oracle) (d : DB) s :
  NoDup (tree_keys root) →
  run root file_index o d = Some (Returned s) →
  inv_all root confidence_threshold s
  ∧ ∀ f, f ∈ tree_files root →
      is_Some (mappings s !! source_path f)
      ∨ (∃ n r, (ItemFolder n, Some r) ∈ oracle_log s
                ∧ confident_skip confidence_threshold r = true
                ∧ f ∈ tree_files n)
      ∨ (∃ r, (ItemFile f, Some r) ∈ oracle_log s ∧ category r = SKIP).
Proof.
  intros Hnd Hrun.
  destruct (loop_invariant_returned
              (fun s => inv_all root confidence_threshold s
                 ∧ ∀ f, f ∈ tree_files root →
                     f ∈ flat_map item_files (task_queue s)
                     ∨ is_Some (mappings s !! source_path f)
                     ∨ (∃ n r, (ItemFolder n, Some r) ∈ oracle_log s
                               ∧ confident_skip confidence_threshold r = true
                               ∧ f ∈ tree_files n)
                     ∨ (∃ r, (ItemFile f, Some r) ∈ oracle_log s
                             ∧ category r = SKIP))
              ) with (fuel := queue_weight (task_queue (initial_state root o d)))
                     (s := initial_state root o d) (s' := s)
    as ((Hinv & Hcov) & Hq).
  - intros item rest s1 s2 [Hinv Hcov] Hq Hv. split.
    + pose proof (all_step root item rest s1 Hinv Hq) as H.
      by rewrite Hv in H.
    + destruct Hinv as (_ & Hfr & _). by apply (accounted_step root item rest s1).
  - split.
    { by apply (inv_all_initial classify_folder classify_file get_uuids_for_files
                  update_folder_description_bulk confidence_threshold file_index). }
    intros g Hg. left. simpl task_queue. rewrite tree_files_eq in Hg.
    rewrite flat_map_app. apply elem_of_app in Hg as [Hg|Hg]; apply elem_of_app.
    + right. clear -Hg. induction (files root) as [|x l IH]; [done|].
      simpl. apply elem_of_cons in Hg as [->|Hg]; [by left|right; auto].
    + left. clear -Hg. induction (dict_values (children root)) as [|x l IH];
        [done|].
      simpl in *. apply elem_of_app in Hg as [Hg|Hg]; apply elem_of_app;
        [by left|right; auto].
  - exact Hrun.
  - split; [done|]. intros f Hf.
    destruct (Hcov f Hf) as [Hin|H]; [|done].
    rewrite Hq in Hin. by apply elem_of_nil in Hin.
Qed.

(** X14: no file is lost.  When the traversal of a tree whose keys are all
    different returns, every file of the tree is in exactly one of three
    states: it has a mapping, or it lies below a folder that a confident
    Skip pruned, or the classifier marked the file itself Skip. *)
Theorem every_file_is_accounted_for (root : FolderNode) (o : Oracle) (d : DB) s :
  NoDup (tree_keys root) →
  run root file_index o d = Some (Returned s) →
  ∀ f, f ∈ tree_files root →
    let mapped := is_Some (mappings s !! source_path f) in
    let pruned := ∃ n r, (ItemFolder n, Some r) ∈ oracle_log s
                         ∧ confident_skip confidence_threshold r = true
                         ∧ f ∈ tree_files n in
    let dropped := ∃ r, (ItemFile f, Some r) ∈ oracle_log s ∧ category r = SKIP in
    (mapped ∨ pruned ∨ dropped)
    ∧ ¬ (mapped ∧ pruned) ∧ ¬ (mapped ∧ dropped) ∧ ¬ (pruned ∧ dropped).
Proof.
  intros Hnd Hrun f Hf. cbn zeta.
  destruct (covered_run root o d s Hnd Hrun) as [Hinv Hcov].
  destruct Hinv as (Hvis & _ & Hpr & Hdr & _).
  split; [by apply Hcov|]. split; [|split].
  - intros [[m Hm] (n & r & Hl & Hcs & Hn)].
    destruct (Hpr n r Hl Hcs) as (_ & _ & Hbelow).
    destruct (Hbelow (source_path f)) as (_ & _ & _ & Hnone);
      [by apply tree_files_keys|]. congruence.
  - intros [[m Hm] (r & Hl & Hcat)].
    destruct (Hdr f r Hl Hcat) as [_ Hnone]. congruence.
  - intros [(n & r & Hl & Hcs & Hn) (r' & Hl' & Hcat)].
    destruct (Hpr n r Hl Hcs) as (_ & _ & Hbelow).
    destruct (Hbelow (source_path f)) as (Hns & _); [by apply tree_files_keys|].
    apply Hns. change (source_path f) with (item_key (ItemFile f)).
    by apply (log_key_seen s (ItemFile f) (Some r')).
Qed.

(** *** Records are written once *)

Local Abbreviation frame :=
  (visit_frame classify_folder classify_file get_uuids_for_files
     update_folder_description_bulk build_concat_desc confidence_threshold
     file_index).
Local Abbreviation frontier_step :=
  (inv_frontier_step classify_folder classify_file get_uuids_for_files
     update_folder_description_bulk build_concat_desc confidence_threshold
     file_index).
Local Abbreviation turns :=
  (after_turns classify_folder classify_file get_uuids_for_files
     update_folder_description_bulk build_concat_desc confidence_threshold).

Lemma step_keeps_entries (item : Item) (rest : list Item) s (k : string) :
  inv_frontier s → task_queue s = item :: rest →
  let s' := outcome_state (visit_item item file_index (set_task_queue rest s)) in
  (∀ c, classifications s !! k = Some c → classifications s' !! k = Some c)
  ∧ (∀ m, mappings s !! k = Some m → mappings s' !! k = Some m).
Proof.
  intros Hfr Hq. cbn zeta.
  destruct (frontier_head s item rest Hfr Hq) as (_ & _ & _ & Hfresh).
  destruct (decide (k ∈ item_closure item)) as [Hin|Hout].
  - destruct (Hfresh k) as (_ & Hc & Hm); [by left|].
    split; intros x Hx; congruence.
  - destruct (frame item (set_task_queue rest s) k Hout) as [-> ->]. done.
Qed.

Lemma turns_keep_entries (j : nat) s (k : string) :
  inv_frontier s →
  (∀ c, classifications s !! k = Some c →
        classifications (outcome_state (turns j file_index s)) !! k = Some c)
  ∧ (∀ m, mappings s !! k = Some m →
          mappings (outcome_state (turns j file_index s)) !! k = Some m).
Proof.
  revert s. induction j as [|j IH]; intros s Hfr; simpl; [done|].
  destruct (task_queue s) as [|item rest] eqn:Hq; [done|].
  pose proof (step_keeps_entries item rest s k Hfr Hq) as [Hc Hm].
  pose proof (frontier_step item rest s Hfr Hq) as Hfr'.
  cbn zeta in Hc, Hm.
  destruct (visit _ _ _ _ _ _ _ _ _) as [s'|s']; simpl in *; [|done].
  destruct (IH s' Hfr') as [Hc' Hm']. split; auto.
Qed.

Lemma turns_monotone (i j : nat) s (k : string) :
  inv_frontier s → i ≤ j →
  (∀ c, classifications (outcome_state (turns i file_index s)) !! k = Some c →
        classifications (outcome_state (turns j file_index s)) !! k = Some c)
  ∧ (∀ m, mappings (outcome_state (turns i file_index s)) !! k = Some m →
          mappings (outcome_state (turns j file_index s)) !! k = Some m).
Proof.
  revert j s. induction i as [|i IH]; intros j s Hfr Hij.
  - by apply turns_keep_entries.
  - destruct j as [|j]; [lia|]. simpl.
    destruct (task_queue s) as [|item rest] eqn:Hq; [done|].
    pose proof (frontier_step item rest s Hfr Hq) as Hfr'.
    destruct (visit _ _ _ _ _ _ _ _ _) as [s'|s']; simpl in *; [|done].
    apply IH; [done|lia].
Qed.

Lemma loop_is_after_turns (fuel : nat) s (out : Outcome) :
  loop fuel file_index s = Some out → turns fuel file_index s = out.
Proof.
  revert s. induction fuel as [|k IH]; intros s; simpl.
  - destruct (task_queue s); [by intros [= <-]|done].
  - destruct (task_queue s) as [|item rest]; [by intros [= <-]|].
    destruct (visit _ _ _ _ _ _ _ _ _) as [s'|s']; [apply IH|by intros [= <-]].
Qed.

(** X15: records are written once.  In the traversal of a tree whose keys
    are all different, a classification or a mapping present after some
    number of turns of the loop is still there, unchanged, after any larger
    number of turns, and so in the state the run ends in. *)
Theorem records_are_written_once (root : FolderNode) (o : Oracle) (d : DB)
    (i j : nat) :
  NoDup (tree_keys root) → i ≤ j →
  let s0 := initial_state root o d in
  let si := outcome_state (turns i file_index s0) in
  let sj := outcome_state (turns j file_index s0) in
  (∀ k c, classifications si !! k = Some c → classifications sj !! k = Some c)
  ∧ (∀ k m, mappings si !! k = Some m → mappings sj !! k = Some m)
  ∧ (∀ out, run root file_index o d = Some out →
            turns (queue_weight (task_queue s0)) file_index s0 = out).
Proof.
  intros Hnd Hij. cbn zeta.
  assert (Hfr : inv_frontier (initial_state root o d)).
  { by apply (inv_all_initial classify_folder classify_file get_uuids_for_files
                update_folder_description_bulk confidence_threshold file_index
                root o d). }
  split; [|split].
  - intros k. by apply (turns_monotone i j).
  - intros k. by apply (turns_monotone i j).
  - intros out Hrun. by apply loop_is_after_turns.
Qed.

(** *** The counters of the result *)

Lemma filter_disjoint_length {A : Type} (P1 P2 : A → Prop)
    `{∀ x, Decision (P1 x)} `{∀ x, Decision (P2 x)} (l : list A) :
  (∀ x, P1 x → P2 x → False) →
  length (filter P1 l) + length (filter P2 l)
  = length (filter (fun x => P1 x ∨ P2 x) l).
Proof.
  intros Hd. induction l as [|x l IH]; [done|].
  rewrite !filter_cons.
  destruct (decide (P1 x)) as [H1|H1], (decide (P2 x)) as [H2|H2];
    try (exfalso; by apply (Hd x)).
  - rewrite decide_True by auto. simpl. lia.
  - rewrite decide_True by auto. simpl. lia.
  - rewrite decide_False by tauto. lia.
Qed.

Lemma NoDup_fst_filter {A B : Type} (P : A * B → Prop) `{∀ x, Decision (P x)}
    (l : list (A * B)) :
  NoDup (map fst l) → NoDup (map fst (filter P l)).
Proof.
  induction l as [|x l IH]; [done|]. simpl. intros [Hx Hl]%NoDup_cons.
  rewrite filter_cons. destruct (decide (P x)); [|by apply IH].
  simpl. apply NoDup_cons. split; [|by apply IH].
  intros (y & Hy & Hin)%list_elem_of_fmap. apply Hx.
  apply list_elem_of_fmap. exists y. split; [done|].
  by apply list_elem_of_filter in Hin as [_ ?].
Qed.

(** Every record of a file comes with a mapping, and a record is made at
    the level of a file, without a parent, or at the level of a folder. *)
Lemma records_step (item : Item) (rest : list Item) s :
  (∀ k c, classifications s !! k = Some c →
     ((classified_at_level c = "file" ∧ parent_folder c = None)
      ∨ classified_at_level c = "folder")
     ∧ (file_terminal c → is_Some (mappings s !! k))) →
  let s' := outcome_state (visit_item item file_index (set_task_queue rest s)) in
  ∀ k c, classifications s' !! k = Some c →
    ((classified_at_level c = "file" ∧ parent_folder c = None)
     ∨ classified_at_level c = "folder")
    ∧ (file_terminal c → is_Some (mappings s' !! k)).
Proof.
  intros HP. cbn zeta. set (s0 := set_task_queue rest s).
  destruct (decide (item_key item ∈ seen s0)) as [Hin|Hns].
  { unfold visit. by rewrite bool_decide_eq_true_2. }
  pose proof (fun k => visit_keeps_mappings item s0 k) as Hkeep.
  assert (Hold : ∀ k c, classifications s0 !! k = Some c →
            ((classified_at_level c = "file" ∧ parent_folder c = None)
             ∨ classified_at_level c = "folder")
            ∧ (file_terminal c →
               is_Some (mappings (outcome_state (visit_item item file_index s0))
                          !! k))).
  { intros k c H. destruct (HP k c H) as [Hl Hm]. split; [done|].
    intros Ht. apply Hkeep. by apply Hm. }
  assert (Hfolder : ∀ n cat res note anc (X : Prop),
            ((classified_at_level (folder_classification n cat res note anc) = "file"
              ∧ parent_folder (folder_classification n cat res note anc) = None)
             ∨ classified_at_level (folder_classification n cat res note anc)
               = "folder")
            ∧ (file_terminal (folder_classification n cat res note anc) → X)).
  { intros. split; [by right|]. intros [H|H]; [discriminate H|by destruct H]. }
  destruct item as [n|f];
    [destruct (ask (ItemFolder n) s0) as [[o' res]|] eqn:Hask
    |destruct (ask (ItemFile f) s0) as [[o' res]|] eqn:Hask];
    try (destruct (visit_unknown _ s0 Hns Hask) as (_ & Hc & _);
         intros k c H; rewrite Hc in H; by apply Hold);
    pose proof (known _ s0 o' res Hns Hask) as Hk; cbn zeta in Hk.
  - intros k c. destruct (confident_skip _ _).
    { destruct Hk as (_ & _ & -> & _).
      intros [[_ <-]|[_ H]]%lookup_insert_Some; [apply Hfolder|by apply Hold]. }
    destruct (descends _ _).
    { destruct Hk as (_ & _ & -> & _).
      intros [[_ <-]|[_ H]]%lookup_insert_Some; [apply Hfolder|by apply Hold]. }
    destruct Hk as (_ & _ & _ & _ & [(_ & -> & _)|(_ & -> & Hm)]).
    { intros [[_ <-]|[_ H]]%lookup_insert_Some; [apply Hfolder|by apply Hold]. }
    unfold assign_classifications.
    destruct (decide (k ∈ map source_path (collect_all_files n))) as [Hin|Hnin].
    + match goal with
      | |- foldl _ ?m _ !! _ = _ → _ =>
          destruct (foldl_insert_in
                      (inherited_classification n res
                         (child_ancestors_of
                            (default [] (ancestor_desc_map s0 !! path n)) res))
                      (collect_all_files n) m k Hin) as (g & _ & _ & ->)
      end.
      intros [= <-]. split; [by right|]. intros _. rewrite Hm.
      unfold assign_mappings.
      destruct (foldl_insert_in (fun f => make_mapping res (source_path f))
                  (collect_all_files n) (mappings s0) k Hin) as (g' & _ & _ & ->).
      eauto.
    + rewrite foldl_insert_notin by done.
      intros [[_ <-]|[_ H]]%lookup_insert_Some; [apply Hfolder|by apply Hold].
  - destruct Hk as (_ & _ & _ & Hk). intros k c.
    destruct (bool_decide (category res = SKIP)).
    + destruct Hk as (-> & _). by apply Hold.
    + destruct Hk as (-> & Hm).
      intros [[<- <-]|[_ H]]%lookup_insert_Some; [|by apply Hold].
      split; [by left|]. intros _. rewrite Hm, lookup_insert_eq. eauto.
Qed.

(** X16: the two counters of the result add up to the number of mappings.
    At the end of the traversal of a tree whose keys are all different, the
    files classified individually and the files classified through a folder
    are together as many as there are mappings. *)
Theorem counters_add_up_to_the_mappings (root : FolderNode) (o : Oracle) (d : DB) :
  NoDup (tree_keys root) →
  ∃ out, run root file_index o d = Some out
    ∧ let result := traversal_result (outcome_state out) in
      files_classified_individually result + files_classified_via_folder result
      = size (res_mappings result).
Proof.
  intros Hnd.
  destruct (run_invariants classify_folder classify_file get_uuids_for_files
              update_folder_description_bulk build_concat_desc
              confidence_threshold file_index root o d Hnd)
    as (out & Hrun & _ & _ & _ & _ & _ & _ & Hmap).
  exists out. split; [done|].
  assert (Hrec : ∀ k c, classifications (outcome_state out) !! k = Some c →
            ((classified_at_level c = "file" ∧ parent_folder c = None)
             ∨ classified_at_level c = "folder")
            ∧ (file_terminal c → is_Some (mappings (outcome_state out) !! k))).
  { refine (invariant
              (fun s => ∀ k c, classifications s !! k = Some c →
                 ((classified_at_level c = "file" ∧ parent_folder c = None)
                  ∨ classified_at_level c = "folder")
                 ∧ (file_terminal c → is_Some (mappings s !! k)))
              _ _ _ out _ Hrun).
    - intros item rest s HP _. by apply records_step.
    - intros k c H. simpl in H. by rewrite lookup_empty in H. }
  set (s := outcome_state out) in *. cbn zeta. simpl.
  rewrite filter_disjoint_length.
  2:{ intros [k c] H1 [H2 _]. simpl in *. congruence. }
  rewrite <- (length_map_to_list (mappings s)).
  rewrite <- (length_map fst (filter _ _)), <- (length_map fst (map_to_list (mappings s))).
  apply Permutation_length. apply NoDup_Permutation.
  - apply NoDup_fst_filter, NoDup_fst_map_to_list.
  - apply NoDup_fst_map_to_list.
  - intros k. rewrite !list_elem_of_fmap. split.
    + intros ([k' c] & -> & [Hin Hp]%list_elem_of_filter). simpl in *.
      apply elem_of_map_to_list in Hp.
      destruct (Hrec k' c Hp) as [_ Hm].
      destruct Hm as [m Hm].
      { unfold file_terminal. destruct Hin as [?|[_ ?]]; auto. }
      exists (k', m). split; [done|]. by apply elem_of_map_to_list.
    + intros ([k' m] & -> & Hm%elem_of_map_to_list). simpl.
      destruct (Hmap k' m Hm) as (_ & _ & c & Hc & _ & _ & Ht).
      exists (k', c). split; [done|]. apply list_elem_of_filter.
      split; [|by apply elem_of_map_to_list]. simpl.
      destruct (Hrec k' c Hc) as [[[Hl _]|Hl] _]; [by left|].
      destruct Ht as [Ht|Ht]; [by left|right; done].
Qed.

(** *** The gate *)

Lemma foldl_insert_const_keep {V : Type} (v : V) (kids : list FolderNode)
    (m : gmap string V) (k : string) :
  m !! k = Some v → foldl (fun m child => <[path child := v]> m) m kids !! k = Some v.
Proof.
  revert m. induction kids as [|y l IH]; intros m Hm; simpl; [done|].
  apply IH. destruct (decide (path y = k)) as [->|Hne].
  - by rewrite lookup_insert_eq.
  - by rewrite lookup_insert_ne.
Qed.

Lemma foldl_insert_const_in {V : Type} (v : V) (kids : list FolderNode)
    (m : gmap string V) (c : FolderNode) :
  c ∈ kids → foldl (fun m child => <[path child := v]> m) m kids !! path c = Some v.
Proof.
  revert m. induction kids as [|y l IH]; intros m Hin; simpl.
  - by apply elem_of_nil in Hin.
  - apply elem_of_cons in Hin as [->|Hin]; [|by apply IH].
    apply foldl_insert_const_keep. by rewrite lookup_insert_eq.
Qed.

(** X17: the confidence gate.  A folder whose decision has a confidence
    below the threshold is never assigned, whatever its category: its turn
    returns, writes no mapping and no description, records the decision as
    provisional, with the category and the confidence of the decision and
    its reason followed by " [descended]", and puts the child folders and
    then the immediate files at the end of the queue, with the ancestor
    context extended by the description of the folder.  When the category is
    Skip the folder is listed among the skipped folders all the same. *)
Theorem low_confidence_descends (n : FolderNode) s (o' : Oracle)
    (r : ClassificationResult) :
  path n ∉ seen s → ask (ItemFolder n) s = Some (o', r) →
  Qle_bool confidence_threshold (confidence r) = false →
  let anc := default [] (ancestor_desc_map s !! path n) in
  let ca := child_ancestors_of anc r in
  ∃ s', visit_item (ItemFolder n) file_index s = Returned s'
    ∧ mappings s' = mappings s ∧ db_log s' = db_log s
    ∧ task_queue s'
      = task_queue s ++ map ItemFolder (dict_values (children n))
          ++ map ItemFile (files n)
    ∧ classifications s'
      = <[path n :=
            {| cl_path := path n;
               cl_category := category r;
               cl_confidence := confidence r;
               cl_reason := reason r +:+ " [descended]";
               classified_at_level := "folder";
               parent_folder := None;
               ancestor_descriptions := anc |}]>
          (classifications s)
    ∧ (∀ k c, (k, c) ∈ children n → ancestor_desc_map s' !! path c = Some ca)
    ∧ ancestor_desc_map s' !! path n = Some ca
    ∧ skipped_folders s'
      = skipped_folders s
        ++ (if bool_decide (category r = SKIP) then [path n] else []).
Proof.
  intros Hns Hask Hlow. cbn zeta.
  assert (Hcs : confident_skip confidence_threshold r = false).
  { unfold confident_skip. by rewrite Hlow, andb_false_r. }
  assert (Hds : descends confidence_threshold r = true).
  { unfold descends, is_confident. by rewrite Hlow. }
  pose proof (known (ItemFolder n) s o' r Hns Hask) as Hk. cbn zeta in Hk.
  rewrite Hcs, Hds in Hk. destruct Hk as (Hv & Hq & Hc & Hm & Hdb).
  pose proof (registers (ItemFolder n) s Hns) as Hr. cbv beta iota zeta in Hr.
  rewrite Hask in Hr. simpl fmap in Hr. cbv iota in Hr.
  rewrite Hcs, Hds in Hr. simpl negb in Hr. simpl andb in Hr.
  destruct Hr as (_ & Hsk & Ham).
  eexists. split; [exact Hv|]. split; [done|]. split; [done|]. split; [done|].
  split; [done|]. split; [|split; [|done]].
  - intros k c Hin. rewrite Ham.
    destruct (decide (path n = path c)) as [->|Hne]; [by rewrite lookup_insert_eq|].
    rewrite lookup_insert_ne by done.
    assert (Hc' : c ∈ dict_values (children n)).
    { apply list_elem_of_fmap. by exists (k, c). }
    by apply foldl_insert_const_in.
  - rewrite Ham. by rewrite lookup_insert_eq.
Qed.

(** *** The cost of a run *)

Lemma visit_log_weight (item : Item) (rest : list Item) s :
  let s' := outcome_state (visit_item item file_index (set_task_queue rest s)) in
  length (oracle_log s') + queue_weight (task_queue s')
  ≤ length (oracle_log s) + queue_weight (item :: rest).
Proof.
  cbn zeta. set (s0 := set_task_queue rest s).
  pose proof (item_weight_pos item) as Hpos.
  change (queue_weight (item :: rest)) with (item_weight item + queue_weight rest).
  destruct (decide (item_key item ∈ seen s0)) as [Hin|Hns].
  { unfold visit. rewrite bool_decide_eq_true_2 by done. simpl. lia. }
  rewrite (decision_of item s0 Hns), length_app. simpl length.
  change (oracle_log s0) with (oracle_log s).
  destruct (visit_item item file_index s0) as [s'|s'] eqn:Hv.
  - apply weight_after in Hv. simpl outcome_state. simpl task_queue in Hv. lia.
  - simpl outcome_state.
    destruct (cases item s0 Hns) as (_ & r & _ & Hc).
    rewrite Hv in Hc. simpl outcome_state in Hc.
    assert (Hq : task_queue s' = rest).
    { destruct item as [n|f], r as [res|];
        try (by destruct Hc as (_ & -> & _)).
      cbn zeta in Hc. destruct (confident_skip _ _); [by destruct Hc as (? & _)|].
      destruct (descends _ _); [by destruct Hc as (? & _)|].
      by destruct Hc as (_ & _ & -> & _). }
    rewrite Hq. lia.
Qed.

(** X18: the classifier is consulted at most once for each folder and file
    below the root.  Whatever the tree and however the run ends, the number
    of consultations is at most the number of folders and files of the tree,
    the root left out. *)
Theorem classifier_calls_are_bounded (root : FolderNode) (o : Oracle) (d : DB) :
  ∃ out, run root file_index o d = Some out
    ∧ length (oracle_log (outcome_state out)) + 1 ≤ node_weight root.
Proof.
  destruct (total root o d) as [out Hrun]. exists out. split; [done|].
  assert (H : length (oracle_log (outcome_state out))
              + queue_weight (task_queue (outcome_state out))
              ≤ queue_weight (task_queue (initial_state root o d))).
  { refine (invariant
              (fun s => length (oracle_log s) + queue_weight (task_queue s)
                        ≤ queue_weight (task_queue (initial_state root o d)))
              _ _ _ out _ Hrun).
    - intros item rest s HP Hq.
      pose proof (visit_log_weight item rest s) as Hw. cbn zeta in Hw.
      rewrite Hq in HP. lia.
    - simpl. lia. }
  simpl task_queue in H at 2.
  rewrite queue_weight_app, queue_weight_folders, queue_weight_files in H.
  rewrite node_weight_eq. lia.
Qed.

End ExtraEngine.

(** ** The file index *)

Lemma load_row_lookup (index : gmap string FileIndexEntry) (r : FileRow)
    (k : string) :
  load_row index r !! k
  = match index !! k with
    | Some e => Some e
    | None =>
        if nonempty k && String.eqb (row_name r) k then Some (row_entry k r)
        else None
    end.
Proof.
  unfold load_row.
  destruct (String.eqb_spec (row_name r) k) as [->|Hne].
  - rewrite andb_true_r. destruct (nonempty k); [|by destruct (index !! k)].
    destruct (index !! k) as [e|] eqn:E; [done|]. by rewrite lookup_insert_eq.
  - rewrite andb_false_r. destruct (nonempty (row_name r)); [|by destruct (index !! k)].
    destruct (index !! row_name r); [by destruct (index !! k)|].
    rewrite lookup_insert_ne by done. by destruct (index !! k).
Qed.

Lemma load_rows_lookup (rows : list FileRow) (index : gmap string FileIndexEntry)
    (k : string) :
  foldl load_row index rows !! k
  = match index !! k with
    | Some e => Some e
    | None =>
        if nonempty k
        then row_entry k <$> List.find (fun r => String.eqb (row_name r) k) rows
        else None
    end.
Proof.
  revert index. induction rows as [|r rows IH]; intros index; simpl.
  - destruct (index !! k); [done|]. by destruct (nonempty k).
  - rewrite IH, load_row_lookup. destruct (index !! k) as [e|]; [done|].
    destruct (nonempty k); simpl; [|done].
    by destruct (String.eqb (row_name r) k).
Qed.

Lemma find_ext {A : Type} (f g : A → bool) (l : list A) :
  (∀ x, f x = g x) → List.find f l = List.find g l.
Proof.
  intros Hfg. induction l as [|x l IH]; simpl; [done|]. by rewrite Hfg, IH.
Qed.

Lemma row_name_columns (r : FileRow) :
  row_name r
  = match row_file_name r with
    | Some (String c t) => String c t
    | _ => match row_relative_path r with
           | Some rel => basename rel
           | None => ""
           end
    end.
Proof.
  unfold row_name, or_empty.
  destruct (row_file_name r) as [[|c t]|]; simpl; [|done|];
    by destruct (row_relative_path r) as [[|c' t']|].
Qed.

(** X19: the file index keeps, for each name, the first row that bears it.
    A row is indexed under its file name or, when that is NULL or empty,
    under the last component of its relative path; a row with neither is
    left out, and a later row of the same name never replaces an earlier
    one.  The entry takes its identifier, its paths and its extra
    information from the row, its description too, the empty string standing
    for NULL.  No key is empty, and every entry carries its key as file
    name. *)
Theorem load_file_index_first_row_wins (rows : list FileRow) (k : string) :
  load_file_index rows !! k
  = (if nonempty k
     then (fun r => {| uuid := row_uuid r;
                       fie_file_name := k;
                       fie_description := default "" (row_description r);
                       original_path := row_original_path r;
                       relative_path := row_relative_path r;
                       extra_info := row_extra_info r |})
          <$> List.find
                (fun r => String.eqb
                            match row_file_name r with
                            | Some (String c t) => String c t
                            | _ => match row_relative_path r with
                                   | Some rel => basename rel
                                   | None => ""
                                   end
                            end k) rows
     else None)
  ∧ (∀ e, load_file_index rows !! k = Some e → k ≠ "" ∧ fie_file_name e = k).
Proof.
  assert (H : load_file_index rows !! k
              = if nonempty k
                then row_entry k <$> List.find (fun r => String.eqb (row_name r) k) rows
                else None).
  { unfold load_file_index. by rewrite load_rows_lookup, lookup_empty. }
  split.
  - rewrite H. destruct (nonempty k); [|done].
    erewrite (find_ext (fun r => String.eqb (row_name r) k)); [reflexivity|].
    intros r. by rewrite row_name_columns.
  - intros e. rewrite H.
    destruct (nonempty k) eqn:Hk; [|done].
    apply nonempty_true in Hk.
    destruct (List.find _ rows); [|done]. by intros [= <-].
Qed.

(** ** The check of the index against the disk *)

(** X20: what the sync check reports.  It always logs something; it
    reports the index and the disk in sync exactly when the base names of
    the files on disk are the keys of the index; it warns of files missing
    in the index exactly when [build_tree] will leave some file of the scan
    without a description, and of stale entries exactly when some key of
    the index is the base name of no file on disk. *)
Theorem sync_warnings_report (file_index : gmap string FileIndexEntry)
    (files_on_disk : list string) :
  let log := log_sync_warnings file_index files_on_disk in
  log ≠ []
  ∧ (InSync ∈ log
     ↔ (∀ p, p ∈ files_on_disk → is_Some (file_index !! basename p))
       ∧ (∀ k, is_Some (file_index !! k) →
               ∃ p, p ∈ files_on_disk ∧ basename p = k))
  ∧ ((∃ c ex, MissingInDb c ex ∈ log)
     ↔ ∃ p, p ∈ files_on_disk
            ∧ description (make_file_meta file_index p) = None)
  ∧ ((∃ c ex, StaleInDb c ex ∈ log)
     ↔ ∃ k, is_Some (file_index !! k)
            ∧ ∀ p, p ∈ files_on_disk → basename p ≠ k).
Proof.
  cbn zeta. unfold log_sync_warnings.
  set (disk := list_to_set (map basename files_on_disk) : gset string).
  set (missing := disk ∖ dom file_index).
  set (stale := dom file_index ∖ disk).
  assert (Hdisk : ∀ k, k ∈ disk ↔ ∃ p, p ∈ files_on_disk ∧ basename p = k).
  { intros k. unfold disk. rewrite elem_of_list_to_set, list_elem_of_fmap.
    split; intros (p & ? & ?); eauto. }
  assert (Hmiss : missing ≠ ∅
                  ↔ ∃ p, p ∈ files_on_disk ∧ file_index !! basename p = None).
  { split.
    - intros (k & [Hk Hn]%elem_of_difference)%set_choose_L.
      apply Hdisk in Hk as (p & Hp & <-). exists p. split; [done|].
      by apply not_elem_of_dom.
    - intros (p & Hp & Hn) He.
      assert (basename p ∈ missing); [|set_solver].
      apply elem_of_difference. split; [apply Hdisk; eauto|].
      by apply not_elem_of_dom. }
  assert (Hstale : stale ≠ ∅
                   ↔ ∃ k, is_Some (file_index !! k)
                          ∧ ∀ p, p ∈ files_on_disk → basename p ≠ k).
  { split.
    - intros (k & [Hk Hn]%elem_of_difference)%set_choose_L.
      exists k. split; [by apply elem_of_dom|].
      intros p Hp Hb. apply Hn, Hdisk. eauto.
    - intros (k & Hk & Hn) He.
      assert (k ∈ stale); [|set_solver].
      apply elem_of_difference. split; [by apply elem_of_dom|].
      intros (p & Hp & Hb)%Hdisk. by apply (Hn p). }
  assert (Hdesc : ∀ p, description (make_file_meta file_index p) = None
                       ↔ file_index !! basename p = None).
  { intros p. simpl. by destruct (file_index !! basename p). }
  destruct (decide (missing = ∅)) as [Hm|Hm], (decide (stale = ∅)) as [Hs|Hs].
  - rewrite (bool_decide_eq_false_2 (missing ≠ ∅)) by tauto.
    rewrite (bool_decide_eq_false_2 (stale ≠ ∅)) by tauto.
    rewrite bool_decide_eq_true_2 by done. simpl.
    split; [done|]. split; [|split].
    + split; [intros _|intros _; by left]. split.
      * intros p Hp. destruct (file_index !! basename p) eqn:E; [eauto|].
        exfalso. assert (missing ≠ ∅); [|done]. apply Hmiss. eauto.
      * intros k Hk. destruct (decide (k ∈ disk)) as [Hin|Hout]; [by apply Hdisk|].
        exfalso. assert (stale ≠ ∅); [|done]. apply Hstale. exists k.
        split; [done|]. intros p Hp Hb. apply Hout, Hdisk. eauto.
    + split.
      * intros (c & ex & H). apply list_elem_of_singleton in H. done.
      * intros (p & Hp & Hd%Hdesc). exfalso.
        assert (missing ≠ ∅); [|done]. apply Hmiss. eauto.
    + split.
      * intros (c & ex & H). apply list_elem_of_singleton in H. done.
      * intros H%Hstale. done.
  - rewrite (bool_decide_eq_false_2 (missing ≠ ∅)) by tauto.
    rewrite (bool_decide_eq_true_2 (stale ≠ ∅)) by done.
    rewrite bool_decide_eq_false_2 by tauto. simpl.
    split; [done|]. split; [|split].
    + split.
      * intros H. apply list_elem_of_singleton in H. done.
      * intros [_ H]. exfalso. apply Hstale in Hs as (k & Hk & Hn).
        destruct (H k Hk) as (p & Hp & Hb). by apply (Hn p).
    + split.
      * intros (c & ex & H). apply list_elem_of_singleton in H. done.
      * intros (p & Hp & Hd%Hdesc). exfalso.
        assert (missing ≠ ∅); [|done]. apply Hmiss. eauto.
    + split; [intros _; by apply Hstale|]. intros _. eexists _, _. by left.
  - rewrite (bool_decide_eq_true_2 (missing ≠ ∅)) by done.
    rewrite (bool_decide_eq_false_2 (stale ≠ ∅)) by tauto.
    rewrite bool_decide_eq_false_2 by tauto. simpl.
    split; [done|]. split; [|split].
    + split.
      * intros H. apply list_elem_of_singleton in H. done.
      * intros [H _]. exfalso. apply Hmiss in Hm as (p & Hp & Hn).
        destruct (H p Hp) as [x Hx]. congruence.
    + split; [|intros _; eexists _, _; by left].
      intros _. apply Hmiss in Hm as (p & Hp & Hn). exists p.
      split; [done|]. by apply Hdesc.
    + split.
      * intros (c & ex & H). apply list_elem_of_singleton in H. done.
      * intros H%Hstale. done.
  - rewrite (bool_decide_eq_true_2 (missing ≠ ∅)) by done.
    rewrite (bool_decide_eq_true_2 (stale ≠ ∅)) by done.
    rewrite bool_decide_eq_false_2 by tauto. simpl.
    split; [done|]. split; [|split].
    + split.
      * intros [H|[H|H%elem_of_nil]%elem_of_cons]%elem_of_cons; done.
      * intros [H _]. exfalso. apply Hmiss in Hm as (p & Hp & Hn).
        destruct (H p Hp) as [x Hx]. congruence.
    + split; [|intros _; eexists _, _; by left].
      intros _. apply Hmiss in Hm as (p & Hp & Hn). exists p.
      split; [done|]. by apply Hdesc.
    + split; [intros _; by apply Hstale|].
      intros _. eexists _, _. right. by left.
Qed.

(** ** Descriptions *)

(** X27: descriptions go by base name.  In the tree built from a scan with
    the index loaded from the rows, a file carries the description of the
    first row that bears its base name (the empty string when that row has
    none), and no description when no row does; so two files of the same
    base name carry the same description, whatever their folders. *)
Theorem descriptions_go_by_base_name (root_dir : string) (rows : list FileRow)
    (files_on_disk : list string) (f : FileMeta) :
  let index := load_file_index rows in
  let root := build_tree root_dir files_on_disk index in
  f ∈ tree_files root →
  file_name f = basename (source_path f)
  ∧ description f
    = (if nonempty (file_name f)
       then (fun r => or_empty (row_description r))
              <$> List.find (fun r => String.eqb (row_name r) (file_name f)) rows
       else None)
  ∧ ∀ g, g ∈ tree_files root → file_name g = file_name f →
         description g = description f.
Proof.
  cbn zeta. intros (rel & _ & ->)%tree_files_build_tree.
  split; [done|]. split.
  - simpl. unfold load_file_index. rewrite load_rows_lookup, lookup_empty.
    destruct (nonempty (basename rel)); [|done].
    by destruct (List.find _ rows).
  - intros g (rel' & _ & ->)%tree_files_build_tree. simpl. by intros ->.
Qed.

Lemma descriptions_go_by_base_name_witness :
  let rows := [ {| row_uuid := "u1"; row_file_name := None;
                   row_description := Some "slides";
                   row_original_path := None;
                   row_relative_path := Some "old/a.pdf";
                   row_extra_info := None |} ] in
  let root := build_tree "" ["x/a.pdf"; "y/a.pdf"] (load_file_index rows) in
  make_file_meta (load_file_index rows) "y/a.pdf" ∈ tree_files root
  ∧ description (make_file_meta (load_file_index rows) "y/a.pdf") = Some "slides".
Proof.
  cbn zeta.
  assert (H : make_file_meta
                (load_file_index
                   [ {| row_uuid := "u1"; row_file_name := None;
                        row_description := Some "slides";
                        row_original_path := None;
                        row_relative_path := Some "old/a.pdf";
                        row_extra_info := None |} ]) "y/a.pdf"
              ∈ tree_files
                  (build_tree "" ["x/a.pdf"; "y/a.pdf"]
                     (load_file_index
                        [ {| row_uuid := "u1"; row_file_name := None;
                             row_description := Some "slides";
                             row_original_path := None;
                             row_relative_path := Some "old/a.pdf";
                             row_extra_info := None |} ]))).
  { vm_compute. right. left. }
  split; [exact H|].
  refine (eq_trans (proj1 (proj2 (descriptions_go_by_base_name "" _ _ _ H))) _).
  reflexivity.
Defined.

(** ** The tree and the scan *)

(** X21: the tree holds the scanned files and nothing else.  The source
    paths of the files of the tree are the scanned paths, each as often as
    it was scanned; every file carries the folder, the name and the
    description [build_tree] derives from its path and the index; the method
    [total_file_count] of the root gives the length of the scan; every
    folder of the tree is a directory of a scanned path; and when the
    scanned paths are all different and none is also a directory of the
    scan, no two nodes of the tree share a key. *)
Theorem build_tree_keeps_the_scan (root_dir : string)
    (files_on_disk : list string) (file_index : gmap string FileIndexEntry) :
  let root := build_tree root_dir files_on_disk file_index in
  map source_path (tree_files root) ≡ₚ files_on_disk
  ∧ (∀ f, f ∈ tree_files root → f = make_file_meta file_index (source_path f))
  ∧ FolderNode_total_file_count root = length files_on_disk
  ∧ (∀ p, p ∈ tree_folder_paths root → p ∈ flat_map dir_paths files_on_disk)
  ∧ (scan_ok files_on_disk = true → NoDup (tree_keys root)).
Proof.
  cbn zeta. split; [apply tree_files_build_tree_perm|].
  split; [|split; [|split]].
  - intros f (rel & _ & ->)%tree_files_build_tree. done.
  - rewrite total_file_count_eq.
    rewrite <- (length_map source_path).
    apply Permutation_length, tree_files_build_tree_perm.
  - apply tree_folder_paths_build_tree.
  - apply build_tree_keys_distinct.
Qed.

Lemma build_tree_keeps_the_scan_witness :
  scan_ok Sample.paths = true ∧ NoDup (tree_keys (build_tree "" Sample.paths ∅)).
Proof.
  assert (H : scan_ok Sample.paths = true) by (vm_compute; reflexivity).
  split; [exact H|].
  exact (proj2 (proj2 (proj2 (proj2
           (build_tree_keeps_the_scan "" Sample.paths ∅)))) H).
Defined.

(** ** The order of the tree *)

Lemma node_at_leaf (pos : list string) (p nm : string) (fs : list FileMeta) :
  pos ≠ [] → node_at pos (Build_FolderNode p nm fs []) = None.
Proof. by destruct pos. Qed.

Lemma dict_get_existsb {V : Type} (k : string) (d : list (string * V)) :
  existsb (String.eqb k) (dict_keys d)
  = match dict_get k d with Some _ => true | None => false end.
Proof.
  induction d as [|[k' v] d IH]; simpl; [done|].
  destruct (String.eqb k k'); [done|exact IH].
Qed.

(** What the walk of [build_tree] changes at a position: the file is
    appended where the walk ends, and a name is appended to the children
    where the walk goes on through a folder that was not there. *)
Lemma node_at_insert_at (pos : list string) :
  ∀ (parts agg : list string) (fm : FileMeta) (node : FolderNode),
    let old := node_at pos node in
    let new := node_at pos (insert_at parts agg fm node) in
    (is_Some new ↔ is_Some old ∨ starts pos parts = true)
    ∧ default [] (files <$> new)
      = default [] (files <$> old)
        ++ (if bool_decide (pos = parts) then [fm] else [])
    ∧ default [] (dict_keys ∘ children <$> new)
      = default [] (dict_keys ∘ children <$> old)
        ++ filter (fun k => existsb (String.eqb k)
                              (default [] (dict_keys ∘ children <$> old)) = false)
             (segment_after pos parts).
Proof.
  induction pos as [|k pos IH]; intros parts agg fm node; cbn zeta.
  - simpl node_at. simpl fmap. simpl default. split; [|split].
    + split; [by left|eauto].
    + destruct parts as [|p parts]; simpl; [done|]. by rewrite app_nil_r.
    + destruct parts as [|p parts]; simpl; [by rewrite app_nil_r|].
      unfold dict_keys. rewrite dict_set_fst.
      rewrite filter_cons, filter_nil.
      pose proof (dict_get_existsb p (children node)) as He.
      unfold dict_keys in He. rewrite He.
      destruct (dict_get p (children node)).
      * rewrite decide_False by done. by rewrite app_nil_r.
      * by rewrite decide_True.
  - destruct parts as [|p parts].
    { simpl. rewrite filter_nil, !app_nil_r.
      split; [|done]. split; [by left|by intros [?|?]]. }
    assert (Hcons : ∀ n, node_at (k :: pos) n
                         = match dict_get k (children n) with
                           | Some c => node_at pos c
                           | None => None
                           end) by done.
    rewrite !Hcons. simpl insert_at. unfold set_children. cbn [children].
    rewrite dict_get_set. simpl starts. simpl segment_after.
    destruct (String.eqb_spec k p) as [<-|Hne].
    + specialize (IH parts (agg ++ [k]) fm). simpl andb.
      destruct (dict_get k (children node)) as [c|] eqn:Hg.
      * specialize (IH c). cbn zeta in IH. destruct IH as (H1 & H2 & H3).
        split; [exact H1|]. split; [|exact H3].
        rewrite H2. f_equal.
        destruct (decide (pos = parts)) as [->|Hp].
        -- by rewrite !bool_decide_eq_true_2.
        -- rewrite !bool_decide_eq_false_2; [done|congruence|done].
      * specialize (IH (Build_FolderNode (join "/" (agg ++ [k])) k [] [])).
        cbn zeta in IH. destruct IH as (H1 & H2 & H3).
        assert (Hold : default [] (files <$> node_at pos
                         (Build_FolderNode (join "/" (agg ++ [k])) k [] [])) = []
                       ∧ default [] (dict_keys ∘ children <$> node_at pos
                           (Build_FolderNode (join "/" (agg ++ [k])) k [] [])) = []).
        { destruct pos; [done|]. by rewrite node_at_leaf. }
        destruct Hold as [Hf Hk]. rewrite Hf in H2. rewrite Hk in H3.
        split; [|split].
        -- rewrite H1. split.
           ++ intros [Hs|Hs]; [|by right].
              destruct pos; [by right|]. rewrite node_at_leaf in Hs by done.
              by destruct Hs.
           ++ intros [[x Hx]|Hs]; [done|by right].
        -- rewrite H2. simpl. f_equal.
           destruct (decide (pos = parts)) as [->|Hp].
           ++ by rewrite !bool_decide_eq_true_2.
           ++ rewrite !bool_decide_eq_false_2; [done|congruence|done].
        -- rewrite H3. simpl. done.
    + simpl andb. rewrite filter_nil, !app_nil_r.
      rewrite bool_decide_eq_false_2 by congruence. rewrite app_nil_r.
      split; [|done].
      split; [by left|by intros [?|?]].
Qed.

Lemma first_occurrences_app (l1 l2 : list string) :
  first_occurrences (l1 ++ l2)
  = foldl (fun acc x => if existsb (String.eqb x) acc then acc else acc ++ [x])
          (first_occurrences l1) l2.
Proof. unfold first_occurrences. by rewrite foldl_app. Qed.

Lemma segment_after_short (pos parts : list string) :
  segment_after pos parts = [] ∨ ∃ k, segment_after pos parts = [k].
Proof.
  revert parts. induction pos as [|k pos IH]; intros [|p parts]; simpl; eauto.
  destruct (String.eqb k p); eauto.
Qed.

Lemma starts_prefix (pos parts : list string) :
  starts pos parts = true ↔ ∃ rest, parts = pos ++ rest.
Proof.
  revert parts. induction pos as [|k pos IH]; intros parts; simpl.
  - split; [eauto|done].
  - destruct parts as [|p parts].
    + split; [done|]. by intros (rest & ?).
    + rewrite andb_true_iff, String.eqb_eq, IH. split.
      * intros (-> & rest & ->). eauto.
      * intros (rest & [= -> ->]). eauto.
Qed.

Lemma node_at_at_pos (pos : list string) (n m : FolderNode) :
  node_at pos n = Some m → at_pos n pos m.
Proof.
  revert n. induction pos as [|k pos IH]; intros n; simpl.
  - intros [= ->]. constructor.
  - destruct (dict_get k (children n)) as [c|] eqn:Hg; [|done].
    intros H. apply (at_below n k c); [by apply dict_get_elem|by apply IH].
Qed.

(** The three observations of a position, along the scan. *)
Lemma build_tree_at (file_index : gmap string FileIndexEntry) (pos : list string)
    (scan : list string) :
  let root := build_tree "" scan file_index in
  (is_Some (node_at pos root)
   ↔ pos = [] ∨ ∃ rel, rel ∈ scan ∧ starts pos (position_of rel) = true)
  ∧ default [] (files <$> node_at pos root)
    = map (make_file_meta file_index)
        (filter (fun rel => position_of rel = pos) scan)
  ∧ default [] (dict_keys ∘ children <$> node_at pos root)
    = first_occurrences
        (flat_map (fun rel => segment_after pos (position_of rel)) scan).
Proof.
  cbn zeta. induction scan as [|rel scan IH] using rev_ind.
  - unfold build_tree. simpl foldl. destruct pos as [|k pos]; simpl.
    + split; [|done]. split; [by left|eauto].
    + split; [|done]. split; [by intros [? ?]|].
      intros [?|(rel & Hin & _)]; [done|]. by apply elem_of_nil in Hin.
  - unfold build_tree in *. rewrite foldl_app. simpl foldl.
    rewrite build_tree_step_eq.
    set (old := foldl (build_tree_step file_index)
                  (Build_FolderNode "." "root" [] []) scan) in *.
    destruct (node_at_insert_at pos (position_of rel) []
                (make_file_meta file_index rel) old) as (H1 & H2 & H3).
    cbn zeta in H1, H2, H3. destruct IH as (I1 & I2 & I3).
    split; [|split].
    + rewrite H1, I1. split.
      * intros [[->|(r & Hr & Hs)]|Hs]; [by left| |].
        -- right. exists r. split; [|done]. apply elem_of_app. by left.
        -- right. exists rel. split; [|done]. apply elem_of_app. right. by left.
      * intros [->|(r & [Hr|Hr%list_elem_of_singleton]%elem_of_app & Hs)].
        -- left. by left.
        -- left. right. eauto.
        -- subst r. by right.
    + rewrite H2, I2, filter_app, map_app. f_equal.
      rewrite filter_cons, filter_nil.
      destruct (decide (position_of rel = pos)) as [<-|Hne].
      * by rewrite bool_decide_eq_true_2.
      * rewrite bool_decide_eq_false_2; [done|congruence].
    + rewrite H3, I3, flat_map_app, first_occurrences_app. simpl flat_map.
      rewrite app_nil_r.
      destruct (segment_after_short pos (position_of rel)) as [->|[k ->]];
        [by rewrite filter_nil, app_nil_r|].
      rewrite filter_cons, filter_nil. simpl foldl.
      destruct (existsb (String.eqb k) _) eqn:He.
      * rewrite decide_False by done. by rewrite app_nil_r.
      * by rewrite decide_True.
Qed.

(** X22: the order of the tree is the order of the scan.  In the tree
    [build_tree] returns, a position holds a folder exactly when it is the
    root or starts the position of a scanned path; the files of that folder
    are the scanned paths that lie directly in it, in the order of the scan;
    and its children are the names that follow the position in the scanned
    paths, each once, in the order in which the scan first reaches them. *)
Theorem build_tree_follows_the_scan (root_dir : string)
    (files_on_disk : list string) (file_index : gmap string FileIndexEntry)
    (pos : list string) :
  let root := build_tree root_dir files_on_disk file_index in
  (is_Some (node_at pos root)
   ↔ pos = [] ∨ ∃ rel rest, rel ∈ files_on_disk ∧ position_of rel = pos ++ rest)
  ∧ ∀ n, node_at pos root = Some n →
      at_pos root pos n
      ∧ files n
        = map (make_file_meta file_index)
            (filter (fun rel => position_of rel = pos) files_on_disk)
      ∧ dict_keys (children n)
        = first_occurrences
            (flat_map (fun rel => segment_after pos (position_of rel))
               files_on_disk).
Proof.
  cbn zeta.
  destruct (build_tree_at file_index pos files_on_disk) as (H1 & H2 & H3).
  cbn zeta in H1, H2, H3. change (build_tree "" files_on_disk file_index)
    with (build_tree root_dir files_on_disk file_index) in *.
  split.
  - rewrite H1. split.
    + intros [->|(rel & Hin & (rest & Hs)%starts_prefix)]; [by left|].
      right. eauto.
    + intros [->|(rel & rest & Hin & Hs)]; [by left|].
      right. exists rel. split; [done|]. apply starts_prefix. eauto.
  - intros n Hn. rewrite Hn in H2, H3. simpl in H2, H3.
    split; [by apply node_at_at_pos|]. done.
Qed.

(** ** The further properties on the sample tree *)

Lemma exception_comes_from_a_collaborator_witness :
  Sample.failing_result = Some None
  ∧ ∃ before item r,
      oracle_log SampleRuns.failed = before ++ [(item, r)] ∧ item_key item = "hw".
Proof.
  assert (H : bfs_run Sample.stub_classify_folder Sample.stub_classify_file
                Sample.stub_get_uuids Sample.failing_update Sample.no_concat_desc
                Sample.threshold Sample.tree ∅ tt tt
              = Some (Raised SampleRuns.failed))
    by (vm_compute; reflexivity).
  destruct (exception_comes_from_a_collaborator Sample.stub_classify_folder
              Sample.stub_classify_file Sample.stub_get_uuids
              Sample.failing_update Sample.no_concat_desc Sample.threshold ∅
              Sample.tree tt tt SampleRuns.failed H)
    as (Hres & before & item & r & Hlog & _).
  split; [exact Hres|]. exists before, item, r. split; [exact Hlog|].
  assert (Hl : oracle_log SampleRuns.failed
               = [(ItemFolder Sample.hw_folder,
                   Some (Sample.decision PRACTICE (9 # 10) false "homework"))])
    by (vm_compute; reflexivity).
  rewrite Hl in Hlog. change [?x] with ([] ++ [x]) in Hlog at 1.
  apply app_inj_tail in Hlog as [_ [= <- _]]. reflexivity.
Defined.

Lemma traversal_returns_when_collaborators_do_witness :
  ∃ s, Sample.traversal = Some (Returned s) ∧ task_queue s = [].
Proof.
  destruct (traversal_returns_when_collaborators_do Sample.stub_classify_folder
              Sample.stub_classify_file Sample.stub_get_uuids Sample.stub_update
              Sample.no_concat_desc Sample.threshold ∅) with
    (root := Sample.tree) (o := tt) (d := tt) as (s & Hrun & Hq & _).
  - intros o n fi st cd anc. unfold Sample.stub_classify_folder.
    destruct (String.eqb (path n) "hw"); [eexists; reflexivity|].
    destruct (String.eqb (path n) "tmp"); eexists; reflexivity.
  - intros o f fi anc. unfold Sample.stub_classify_file.
    destruct (String.eqb (file_name f) "generated.lock"); eexists; reflexivity.
  - intros d names. eexists. reflexivity.
  - intros d uuids desc. eexists. reflexivity.
  - exists s. split; [exact Hrun|exact Hq].
Defined.

Lemma confident_assignment_covers_subtree_witness :
  mappings SampleRuns.after_hw !! "hw/1/a.pdf"
  = Some {| source_rel := "hw/1/a.pdf";
            dest_rel := "practice/hw/1/a.pdf";
            top_folder := "hw";
            fm_category := "practice";
            fm_reason := "by name" |}
  ∧ classifications SampleRuns.after_hw !! "hw/1/a.pdf"
    = Some {| cl_path := "hw/1/a.pdf";
              cl_category := PRACTICE;
              cl_confidence := 9 # 10;
              cl_reason := "Inherited from folder 'hw': by name";
              classified_at_level := "folder";
              parent_folder := Some "hw";
              ancestor_descriptions := ["homework"] |}
  ∧ db_log SampleRuns.after_hw = [("hw", ["b.md"; "a.pdf"], "homework")].
Proof.
  assert (H1 : path Sample.hw_folder ∉ seen Sample.start)
    by apply not_elem_of_empty.
  assert (H2 : consult Sample.stub_classify_folder Sample.stub_classify_file
                 Sample.no_concat_desc ∅ (ItemFolder Sample.hw_folder) Sample.start
               = Some (tt, Sample.decision PRACTICE (9 # 10) false "homework"))
    by (vm_compute; reflexivity).
  assert (H3 : visit Sample.stub_classify_folder Sample.stub_classify_file
                 Sample.stub_get_uuids Sample.stub_update Sample.no_concat_desc
                 Sample.threshold (ItemFolder Sample.hw_folder) ∅ Sample.start
               = Returned SampleRuns.after_hw)
    by (vm_compute; reflexivity).
  destruct (confident_assignment_covers_subtree Sample.stub_classify_folder
              Sample.stub_classify_file Sample.stub_get_uuids Sample.stub_update
              Sample.no_concat_desc Sample.threshold ∅ Sample.hw_folder
              Sample.start SampleRuns.after_hw tt
              (Sample.decision PRACTICE (9 # 10) false "homework")
              H1 H2 eq_refl eq_refl H3) as (_ & Hfiles & Hdb).
  assert (Hin : make_file_meta ∅ "hw/1/a.pdf" ∈ tree_files Sample.hw_folder)
    by (vm_compute; right; left).
  destruct (Hfiles (make_file_meta ∅ "hw/1/a.pdf") Hin) as [Hm Hc].
  split; [etransitivity; [exact Hm|vm_compute; reflexivity]|].
  split; [etransitivity; [exact Hc|vm_compute; reflexivity]|].
  simpl in Hdb. destruct Hdb as (uuids & Hu & Hlog).
  vm_compute in Hu. injection Hu as <-. exact Hlog.
Defined.

Lemma every_file_is_accounted_for_witness :
  NoDup (tree_keys Sample.tree)
  ∧ ∀ f, f ∈ tree_files Sample.tree →
         is_Some (mappings SampleRuns.final !! source_path f)
         ∨ (∃ n r, (ItemFolder n, Some r) ∈ oracle_log SampleRuns.final
                   ∧ confident_skip Sample.threshold r = true
                   ∧ f ∈ tree_files n)
         ∨ (∃ r, (ItemFile f, Some r) ∈ oracle_log SampleRuns.final
                 ∧ category r = SKIP).
Proof.
  assert (H : NoDup (tree_keys Sample.tree)).
  { apply (build_tree_keys_distinct "" Sample.paths ∅). vm_compute. reflexivity. }
  assert (Hrun : bfs_run Sample.stub_classify_folder Sample.stub_classify_file
                   Sample.stub_get_uuids Sample.stub_update Sample.no_concat_desc
                   Sample.threshold Sample.tree ∅ tt tt
                 = Some (Returned SampleRuns.final))
    by (vm_compute; reflexivity).
  split; [exact H|]. intros f Hf.
  exact (proj1 (every_file_is_accounted_for Sample.stub_classify_folder
                  Sample.stub_classify_file Sample.stub_get_uuids
                  Sample.stub_update Sample.no_concat_desc Sample.threshold ∅
                  Sample.tree tt tt SampleRuns.final H Hrun f Hf)).
Defined.

Lemma records_are_written_once_witness :
  NoDup (tree_keys Sample.tree)
  ∧ ∀ k m,
      mappings
        (outcome_state
           (after_turns Sample.stub_classify_folder Sample.stub_classify_file
              Sample.stub_get_uuids Sample.stub_update Sample.no_concat_desc
              Sample.threshold 1 ∅ Sample.start)) !! k = Some m →
      mappings
        (outcome_state
           (after_turns Sample.stub_classify_folder Sample.stub_classify_file
              Sample.stub_get_uuids Sample.stub_update Sample.no_concat_desc
              Sample.threshold 5 ∅ Sample.start)) !! k = Some m.
Proof.
  assert (H : NoDup (tree_keys Sample.tree)).
  { apply (build_tree_keys_distinct "" Sample.paths ∅). vm_compute. reflexivity. }
  split; [exact H|].
  refine (proj1 (proj2 (records_are_written_once Sample.stub_classify_folder
                          Sample.stub_classify_file Sample.stub_get_uuids
                          Sample.stub_update Sample.no_concat_desc
                          Sample.threshold ∅ Sample.tree tt tt 1 5 H _))).
  lia.
Defined.

Lemma counters_add_up_to_the_mappings_witness :
  NoDup (tree_keys Sample.tree)
  ∧ ∃ out, Sample.traversal = Some out
      ∧ files_classified_individually (traversal_result (outcome_state out))
        + files_classified_via_folder (traversal_result (outcome_state out))
        = size (res_mappings (traversal_result (outcome_state out))).
Proof.
  assert (H : NoDup (tree_keys Sample.tree)).
  { apply (build_tree_keys_distinct "" Sample.paths ∅). vm_compute. reflexivity. }
  split; [exact H|].
  exact (counters_add_up_to_the_mappings Sample.stub_classify_folder
           Sample.stub_classify_file Sample.stub_get_uuids Sample.stub_update
           Sample.no_concat_desc Sample.threshold ∅ Sample.tree tt tt H).
Defined.

Lemma low_confidence_descends_witness :
  ∃ s', SampleRuns.misc_visit = Returned s'
    ∧ mappings s' = ∅ ∧ db_log s' = []
    ∧ map item_key (task_queue s')
      = ["misc/sub"; "misc/x.pdf"; "misc/generated.lock"]
    ∧ classifications s'
      = <["misc" := {| cl_path := "misc";
                       cl_category := SUPPORT;
                       cl_confidence := 4 # 10;
                       cl_reason := "by name [descended]";
                       classified_at_level := "folder";
                       parent_folder := None;
                       ancestor_descriptions := [] |}]> ∅
    ∧ ancestor_desc_map s' !! "misc/sub" = Some ["misc"]
    ∧ ancestor_desc_map s' !! "misc" = Some ["misc"]
    ∧ skipped_folders s' = [].
Proof.
  assert (H1 : path SampleRuns.misc_folder ∉ seen (set_task_queue [] Sample.start))
    by apply not_elem_of_empty.
  assert (H2 : consult Sample.stub_classify_folder Sample.stub_classify_file
                 Sample.no_concat_desc ∅ (ItemFolder SampleRuns.misc_folder)
                 (set_task_queue [] Sample.start)
               = Some (tt, Sample.decision SUPPORT (4 # 10) false "misc"))
    by (vm_compute; reflexivity).
  destruct (low_confidence_descends Sample.stub_classify_folder
              Sample.stub_classify_file Sample.stub_get_uuids Sample.stub_update
              Sample.no_concat_desc Sample.threshold ∅ SampleRuns.misc_folder
              (set_task_queue [] Sample.start) tt
              (Sample.decision SUPPORT (4 # 10) false "misc")
              H1 H2 eq_refl) as (s' & Hv & Hm & Hdb & Hq & Hc & Hkids & Hown & Hsk).
  exists s'. split; [exact Hv|]. split; [exact Hm|]. split; [exact Hdb|].
  split; [rewrite Hq; reflexivity|]. split; [exact Hc|].
  split; [|split; [exact Hown|exact Hsk]].
  refine (Hkids "sub" (default SampleRuns.misc_folder
                         (dict_get "sub" (children SampleRuns.misc_folder))) _).
  vm_compute. left.
Defined.

(** ** Classifying a list of files *)

Section BatchProofs.
Context {Oracle : Type}.
Variable classify_file :
  Oracle -> FileMeta -> gmap string FileIndexEntry -> option (list string) ->
  option (list string) -> option (Oracle * ClassificationResult).
Variable file_index : gmap string FileIndexEntry.
Variable ancestor_descriptions : option (list string).

Local Abbreviation loop :=
  (classify_files_loop classify_file).
Local Abbreviation batch :=
  (classify_files classify_file).

Lemma dir_to_names_lookup (files : list FileMeta) (m : gmap string (list string))
    (d : string) :
  default [] (foldl add_name m files !! d)
  = default [] (m !! d)
    ++ map file_name (filter (fun g => folder_path g = d) files).
Proof.
  revert m. induction files as [|f files IH]; intros m; simpl.
  - by rewrite app_nil_r.
  - rewrite IH, filter_cons. unfold add_name.
    destruct (decide (folder_path f = d)) as [->|Hne].
    + rewrite lookup_insert_eq. simpl. by rewrite <- app_assoc.
    + by rewrite lookup_insert_ne.
Qed.

Lemma siblings_other_names (files : list FileMeta) (f : FileMeta) :
  siblings (dir_to_names files) f = other_names files f.
Proof.
  unfold siblings, other_names, dir_to_names.
  by rewrite dir_to_names_lookup, lookup_empty.
Qed.

Lemma classify_files_loop_calls (names : gmap string (list string))
    (files : list FileMeta) :
  ∀ (o : Oracle) (results : gmap string ClassificationResult)
    (calls : list BatchCall),
    let out := loop names file_index ancestor_descriptions files o results calls in
    (∃ done, snd out = calls ++ map (fun f => (f, or_none (siblings names f))) done
             ∧ ∃ todo, files = done ++ todo
                       ∧ (is_Some (fst out) → todo = []))
    ∧ ∀ o' res, fst out = Some (o', res) →
        ∀ k, is_Some (res !! k)
             ↔ is_Some (results !! k) ∨ k ∈ map source_path files.
Proof.
  induction files as [|f files IH]; intros o results calls; cbn zeta; simpl.
  - split.
    + exists []. split; [by rewrite app_nil_r|]. exists []. done.
    + intros o' res [= <- <-] k. split; [by left|].
      intros [?|H]; [done|]. by apply elem_of_nil in H.
  - destruct (classify_file o f file_index ancestor_descriptions
                (or_none (siblings names f))) as [[o1 r]|] eqn:Hc; simpl.
    + specialize (IH o1 (<[source_path f := r]> results)
                    (calls ++ [(f, or_none (siblings names f))])).
      cbn zeta in IH. destruct IH as [(done & Hlog & todo & Hfiles & Hall) Hres].
      split.
      * exists (f :: done). split; [by rewrite Hlog, <- app_assoc|].
        exists todo. split; [by rewrite Hfiles|done].
      * intros o' res Hout k. rewrite (Hres o' res Hout k).
        rewrite elem_of_cons.
        destruct (decide (source_path f = k)) as [<-|Hne].
        -- rewrite lookup_insert_eq. split; [intros _; right; by left|eauto].
        -- rewrite lookup_insert_ne by done. split.
           ++ intros [?|?]; [by left|right; by right].
           ++ intros [?|[?|?]]; [by left|congruence|by right].
    + split; [|done].
      exists [f]. split; [done|]. exists files. split; [done|].
      by intros [? ?].
Qed.

(** X26: the sibling context of [classify_files].  The files are
    classified in the order of the list, one call each, until a call raises;
    the sibling names passed with a file are the names of the files of the
    list that have the same folder path and another name, in the order of
    the list, and nothing ([None]) when there are none; when all calls
    return, the result has an entry for exactly the source paths of the
    list. *)
Theorem classify_files_passes_the_siblings (files : list FileMeta) (o : Oracle) :
  let out := batch files file_index ancestor_descriptions o in
  (∃ done todo, files = done ++ todo
      ∧ snd out = map (fun f => (f, or_none (other_names files f))) done
      ∧ (is_Some (fst out) → todo = []))
  ∧ (∀ f, file_name f ∉ other_names files f)
  ∧ (∀ o' res, fst out = Some (o', res) →
       ∀ k, is_Some (res !! k) ↔ k ∈ map source_path files).
Proof.
  cbn zeta. unfold classify_files.
  destruct (classify_files_loop_calls (dir_to_names files) files o ∅ [])
    as [(done & Hlog & todo & Hfiles & Hall) Hres].
  cbn zeta in Hlog, Hall, Hres. split; [|split].
  - exists done, todo. split; [done|]. split; [|done].
    rewrite Hlog. simpl. apply map_ext. intros f.
    by rewrite siblings_other_names.
  - intros f Hin. unfold other_names in Hin.
    by apply list_elem_of_filter in Hin as [? _].
  - intros o' res Hout k. rewrite (Hres o' res Hout k).
    rewrite lookup_empty. split; [intros [[? ?]|?]; done|by right].
Qed.

End BatchProofs.

(** ** The ancestor context *)

Section ContextProofs.

Context {Oracle DB : Type}.
Variable classify_folder :
  Oracle -> FolderNode -> gmap string FileIndexEntry -> FolderStats ->
  string -> list string -> option (Oracle * ClassificationResult).
Variable classify_file :
  Oracle -> FileMeta -> gmap string FileIndexEntry -> list string ->
  option (Oracle * ClassificationResult).
Variable get_uuids_for_files : DB -> list string -> option (list string).
Variable update_folder_description_bulk :
  DB -> list string -> string -> option (DB * nat).
Variable build_concat_desc :
  list FileMeta -> gmap string FileIndexEntry -> string.
Variable confidence_threshold : Q.
Variable file_index : gmap string FileIndexEntry.

Implicit Type s : @State Oracle DB.

Local Abbreviation visit_item :=
  (visit classify_folder classify_file get_uuids_for_files
     update_folder_description_bulk build_concat_desc confidence_threshold).
Local Abbreviation run :=
  (bfs_run classify_folder classify_file get_uuids_for_files
     update_folder_description_bulk build_concat_desc confidence_threshold).
Local Abbreviation ask :=
  (consult classify_folder classify_file build_concat_desc file_index).
Local Abbreviation cases :=
  (visit_cases classify_folder classify_file get_uuids_for_files
     update_folder_description_bulk build_concat_desc confidence_threshold
     file_index).
Local Abbreviation known :=
  (visit_cases_known classify_folder classify_file get_uuids_for_files
     update_folder_description_bulk build_concat_desc confidence_threshold
     file_index).
Local Abbreviation unknown :=
  (visit_unknown classify_folder classify_file get_uuids_for_files
     update_folder_description_bulk build_concat_desc confidence_threshold
     file_index).
Local Abbreviation registers :=
  (visit_registers classify_folder classify_file get_uuids_for_files
     update_folder_description_bulk build_concat_desc confidence_threshold
     file_index).
Local Abbreviation decision_of :=
  (visit_decision classify_folder classify_file get_uuids_for_files
     update_folder_description_bulk build_concat_desc confidence_threshold
     file_index).
Local Abbreviation frame :=
  (visit_frame classify_folder classify_file get_uuids_for_files
     update_folder_description_bulk build_concat_desc confidence_threshold
     file_index).
Local Abbreviation queue_after :=
  (visit_queue classify_folder classify_file get_uuids_for_files
     update_folder_description_bulk build_concat_desc confidence_threshold
     file_index).
Local Abbreviation all_step :=
  (inv_all_step classify_folder classify_file get_uuids_for_files
     update_folder_description_bulk build_concat_desc confidence_threshold
     file_index).
Local Abbreviation invariant :=
  (loop_invariant classify_folder classify_file get_uuids_for_files
     update_folder_description_bulk build_concat_desc confidence_threshold
     file_index).
Local Abbreviation total :=
  (run_total classify_folder classify_file get_uuids_for_files
     update_folder_description_bulk build_concat_desc confidence_threshold
     file_index).

Lemma foldl_insert_const_notin {V : Type} (v : V) (kids : list FolderNode)
    (m : gmap string V) (k : string) :
  k ∉ map path kids →
  foldl (fun m child => <[path child := v]> m) m kids !! k = m !! k.
Proof.
  revert m. induction kids as [|c kids IH]; intros m Hk; simpl; [done|].
  simpl in Hk. apply not_elem_of_cons in Hk as [Hne Hk].
  rewrite IH by done. by rewrite lookup_insert_ne.
Qed.

Lemma child_path_below (n c : FolderNode) :
  c ∈ dict_values (children n) → path c ∈ tree_keys n.
Proof.
  intros Hc. rewrite tree_keys_eq. unfold closure_keys.
  apply elem_of_flat_map. exists (ItemFolder c). split; [|by left].
  apply elem_of_app. left. apply list_elem_of_fmap. by exists c.
Qed.

Lemma item_below_key (n : FolderNode) (it : Item) :
  it ∈ items_below n → item_key it ∈ tree_keys n.
Proof.
  intros Hit. rewrite tree_keys_eq. unfold closure_keys.
  apply elem_of_flat_map. exists it. split; [done|apply item_key_closure].
Qed.

(** A turn changes the context map only under the keys the visited item
    stands for. *)
Lemma context_frame (item : Item) s (k : string) :
  k ∉ item_closure item →
  ancestor_desc_map (outcome_state (visit_item item file_index s)) !! k
  = ancestor_desc_map s !! k.
Proof.
  intros Hk. destruct (decide (item_key item ∈ seen s)) as [Hin|Hns].
  { unfold visit. by rewrite bool_decide_eq_true_2. }
  pose proof (registers item s Hns) as Hr. cbv beta iota zeta in Hr.
  destruct item as [n|f]; [|by destruct Hr as (_ & _ & ->)].
  destruct (ask (ItemFolder n) s) as [[o' res]|]; simpl fmap in Hr; cbv iota in Hr;
    [|by destruct Hr as (_ & _ & ->)].
  destruct Hr as (_ & _ & ->). destruct (_ && _); [|done].
  simpl in Hk. apply not_elem_of_cons in Hk as [Hne Hk].
  rewrite lookup_insert_ne by done. apply foldl_insert_const_notin.
  intros (c & -> & Hc)%list_elem_of_fmap. by apply Hk, child_path_below.
Qed.

(** The record a turn writes for the visited item holds the context the
    map had for it. *)
Lemma own_record (item : Item) s (c : Classification) :
  item_key item ∉ seen s → NoDup (item_closure item) →
  classifications s !! item_key item = None →
  classifications (outcome_state (visit_item item file_index s)) !! item_key item
  = Some c →
  ancestor_descriptions c = default [] (ancestor_desc_map s !! context_key item).
Proof.
  intros Hns Hnd Hnone.
  destruct item as [n|f];
    [destruct (ask (ItemFolder n) s) as [[o' res]|] eqn:Hask
    |destruct (ask (ItemFile f) s) as [[o' res]|] eqn:Hask];
    try (destruct (unknown _ s Hns Hask) as (_ & -> & _); congruence);
    pose proof (known _ s o' res Hns Hask) as Hk; cbn zeta in Hk; simpl item_key.
  - destruct (confident_skip _ _).
    { destruct Hk as (_ & _ & -> & _). rewrite lookup_insert_eq. by intros [= <-]. }
    destruct (descends _ _).
    { destruct Hk as (_ & _ & -> & _). rewrite lookup_insert_eq. by intros [= <-]. }
    destruct Hk as (_ & _ & _ & _ & [(_ & -> & _)|(_ & -> & _)]).
    { rewrite lookup_insert_eq. by intros [= <-]. }
    unfold assign_classifications. rewrite foldl_insert_notin.
    + rewrite lookup_insert_eq. by intros [= <-].
    + intros Hin%collect_all_files_keys. simpl in Hnd.
      by apply NoDup_cons in Hnd as [? _].
  - destruct Hk as (_ & _ & _ & Hk). destruct (bool_decide (category res = SKIP)).
    + destruct Hk as (-> & _). simpl in Hnone. congruence.
    + destruct Hk as (-> & _). rewrite lookup_insert_eq. by intros [= <-].
Qed.

(** What is owed to an item of the queue is still owed after a turn. *)
Lemma owed_step (item : Item) (rest : list Item) s (it : Item) (ca : list string) :
  inv_frontier s → task_queue s = item :: rest →
  (it ∈ rest → context_key it ∉ item_closure item) →
  owed s it ca →
  owed (outcome_state (visit_item item file_index (set_task_queue rest s))) it ca.
Proof.
  intros Hfr Hq Hctx [Hseen Hwait]. set (s0 := set_task_queue rest s).
  destruct (frontier_head s item rest Hfr Hq) as (Hnd & _ & Hdisj & Hfresh).
  assert (Hns : item_key item ∉ seen s0).
  { apply (Hfresh (item_key item)). left. apply item_key_closure. }
  destruct (cases item s0 Hns) as (Hs' & _).
  destruct (decide (item_key it ∈ seen s)) as [Hin|Hout].
  - split; [|intros Hn; exfalso; apply Hn; rewrite Hs'; set_solver].
    intros _ c Hc. apply (Hseen Hin c).
    destruct (frame item s0 (item_key it)) as [Hsame _].
    { by apply (visited_outside s item rest). }
    change (classifications s0) with (classifications s) in Hsame.
    by rewrite <- Hsame.
  - destruct (Hwait Hout) as [Hqueue Hmap]. rewrite Hq in Hqueue.
    apply elem_of_cons in Hqueue as [->|Hrest].
    + split; [|intros Hn; exfalso; apply Hn; rewrite Hs'; set_solver].
      intros _ c Hc.
      rewrite (own_record item s0 c Hns Hnd) by
        (done || (apply (Hfresh (item_key item)); left; apply item_key_closure)).
      simpl. by rewrite Hmap.
    + assert (Hkey : item_key it ∈ closure_keys rest).
      { unfold closure_keys. apply elem_of_flat_map. exists it.
        split; [done|apply item_key_closure]. }
      assert (Hne : item_key it ≠ item_key item).
      { intros Heq. apply (Hdisj (item_key item)); [apply item_key_closure|].
        by rewrite <- Heq. }
      split; [intros Hin; exfalso; rewrite Hs' in Hin; set_solver|].
      intros _. split.
      * destruct (queue_after item s0 Hns) as [->|(n & res & _ & _ & _ & -> & _)].
        -- done.
        -- apply elem_of_app. by left.
      * rewrite context_frame by auto. done.
Qed.

Lemma tree_ok_child (pos : list string) (n c : FolderNode) :
  tree_ok pos n → c ∈ dict_values (children n) → ∃ pos', tree_ok pos' c.
Proof.
  intros (_ & _ & _ & _ & Hch)%tree_ok_eq ((k & c') & -> & Hin)%list_elem_of_fmap.
  rewrite Forall_forall in Hch. destruct (Hch _ Hin) as [_ Hok]. eauto.
Qed.

Lemma tree_ok_files (pos : list string) (n : FolderNode) (f : FileMeta) :
  tree_ok pos n → f ∈ files n → folder_path f = path n.
Proof.
  intros (_ & Hf & _)%tree_ok_eq Hin. rewrite Forall_forall in Hf. by apply Hf.
Qed.

Lemma inv_context_step (root : FolderNode) (item : Item) (rest : list Item) s :
  inv_visited s → inv_frontier s → task_queue s = item :: rest →
  inv_context confidence_threshold root s →
  inv_context confidence_threshold root
    (outcome_state (visit_item item file_index (set_task_queue rest s))).
Proof.
  intros Hvis Hfr Hq (Htop & Hdesc & Hshape). set (s0 := set_task_queue rest s).
  destruct (frontier_head s item rest Hfr Hq) as (Hnd & _ & Hdisj & Hfresh).
  assert (Hns : item_key item ∉ seen s0).
  { apply (Hfresh (item_key item)). left. apply item_key_closure. }
  assert (Hfolder : ∀ c ca, owed s (ItemFolder c) ca →
            owed (outcome_state (visit_item item file_index s0)) (ItemFolder c) ca).
  { intros c ca. apply (owed_step item rest s); [done|done|].
    intros Hin Hcl. apply (Hdisj _ Hcl). unfold closure_keys.
    apply elem_of_flat_map. exists (ItemFolder c). split; [done|by left]. }
  refine (conj _ (conj _ _)).
  - intros c Hc. by apply Hfolder, Htop.
  - intros n r cn Hlog Hcs Hds Hcn.
    rewrite (decision_of item s0 Hns) in Hlog.
    apply elem_of_app in Hlog as [Hlog|Hnew%list_elem_of_singleton].
    + (* a folder the traversal descended into before *)
      assert (Hn : path n ∈ seen s).
      { change (path n) with (item_key (ItemFolder n)).
        by apply (log_key_seen s (ItemFolder n) (Some r)). }
      destruct (frame item s0 (path n)) as [Hc _].
      { by apply (visited_outside s item rest). }
      rewrite Hc in Hcn. destruct (Hdesc n r cn Hlog Hcs Hds Hcn) as [Hfiles Howed].
      split; [done|]. intros it Hit.
      apply (owed_step item rest s); [done|done| |by apply Howed].
      intros Hin. destruct it as [c|f].
      * intros Hcl. apply (Hdisj _ Hcl). unfold closure_keys.
        apply elem_of_flat_map. exists (ItemFolder c). split; [done|by left].
      * simpl. apply elem_of_app in Hit as [(c & ? & _)%list_elem_of_fmap|Hf];
          [done|].
        apply list_elem_of_fmap in Hf as (f' & [= <-] & Hf).
        rewrite (Hfiles f Hf). by apply (visited_outside s item rest).
    + (* the folder of this turn *)
      injection Hnew as <- Hask.
      destruct (ask (ItemFolder n) s0) as [[o' res]|] eqn:Ha; [|done].
      simpl in Hask. injection Hask as <-.
      pose proof (known (ItemFolder n) s0 o' r Hns Ha) as Hk. cbn zeta in Hk.
      rewrite Hcs, Hds in Hk. destruct Hk as (_ & Hqueue & Hcls & _).
      pose proof (registers (ItemFolder n) s0 Hns) as Hr. cbv beta iota zeta in Hr.
      rewrite Ha in Hr. simpl fmap in Hr. cbv iota in Hr.
      rewrite Hcs, Hds in Hr. simpl negb in Hr. simpl andb in Hr.
      destruct Hr as (_ & _ & Ham).
      rewrite Hcls, lookup_insert_eq in Hcn. injection Hcn as <-.
      simpl ancestor_descriptions.
      destruct (Hshape n) as [pos Hok]; [rewrite Hq; by left|].
      split; [intros f Hf; by apply (tree_ok_files pos)|].
      intros it Hit.
      assert (Hkey : item_key it ∈ tree_keys n) by (by apply item_below_key).
      assert (Hunseen : item_key it
                        ∉ seen (outcome_state (visit_item (ItemFolder n) file_index s0))).
      { destruct (cases (ItemFolder n) s0 Hns) as (-> & _).
        intros [Heq%elem_of_singleton|Hin]%elem_of_union.
        - rewrite Heq in Hkey. simpl in Hnd, Hkey.
          apply NoDup_cons in Hnd as [Hn _]. by apply Hn.
        - apply (Hfresh (item_key it)); [left; by right|done]. }
      split; [done|]. intros _. split.
      * rewrite Hqueue. apply elem_of_app. right. exact Hit.
      * rewrite Ham. apply elem_of_app in Hit as [Hc|Hf].
        -- apply list_elem_of_fmap in Hc as (c & -> & Hc). simpl.
           destruct (decide (path n = path c)) as [->|Hne];
             [by rewrite lookup_insert_eq|].
           rewrite lookup_insert_ne by done. by apply foldl_insert_const_in.
        -- apply list_elem_of_fmap in Hf as (f & -> & Hf). simpl.
           rewrite (tree_ok_files pos n f Hok Hf). by rewrite lookup_insert_eq.
  - intros n Hn.
    destruct (queue_after item s0 Hns) as [Hsame|(m & res & -> & _ & _ & Hmore & _)].
    + rewrite Hsame in Hn. apply Hshape. rewrite Hq. by right.
    + rewrite Hmore in Hn. apply elem_of_app in Hn as [Hn|Hn].
      { apply Hshape. rewrite Hq. by right. }
      destruct (Hshape m) as [pos Hok]; [rewrite Hq; by left|].
      apply elem_of_app in Hn as [(c & [= <-] & Hc)%list_elem_of_fmap
                                 |(f & ? & _)%list_elem_of_fmap]; [|done].
      by apply (tree_ok_child pos m).
Qed.

Lemma inv_context_initial (root : FolderNode) (o : Oracle) (d : DB) :
  tree_ok [] root →
  inv_context confidence_threshold root (initial_state root o d).
Proof.
  intros Hok. refine (conj _ (conj _ _)).
  - intros c Hc. split; [by intros ?%elem_of_empty|]. intros _. split.
    + simpl. apply elem_of_app. left. apply list_elem_of_fmap. by exists c.
    + simpl. by apply foldl_insert_const_in.
  - intros n r cn Hin. by apply elem_of_nil in Hin.
  - intros n Hn. simpl in Hn.
    apply elem_of_app in Hn as [(c & [= <-] & Hc)%list_elem_of_fmap
                               |(f & ? & _)%list_elem_of_fmap]; [|done].
    by apply (tree_ok_child [] root).
Qed.

(** X23: the ancestor context is handed down the tree.  In the traversal
    of a tree of the shape [build_tree] gives, with keys that are all
    different, the record of a folder directly below the root holds the
    empty context; and below a folder the traversal descended into, the
    record of every child folder and of every immediate file holds the
    context of the folder's own record, extended by the description of the
    folder when it has one and the bound is not reached. *)
Theorem context_is_handed_down (root : FolderNode) (o : Oracle) (d : DB) :
  NoDup (tree_keys root) → tree_ok [] root →
  ∃ out, run root file_index o d = Some out
    ∧ (∀ k c cc, (k, c) ∈ children root →
         classifications (outcome_state out) !! path c = Some cc →
         ancestor_descriptions cc = [])
    ∧ (∀ n r cn, (ItemFolder n, Some r) ∈ oracle_log (outcome_state out) →
         confident_skip confidence_threshold r = false →
         descends confidence_threshold r = true →
         classifications (outcome_state out) !! path n = Some cn →
         (∀ k c cc, (k, c) ∈ children n →
            classifications (outcome_state out) !! path c = Some cc →
            ancestor_descriptions cc
            = child_ancestors_of (ancestor_descriptions cn) r)
         ∧ (∀ f cf, f ∈ files n →
              classifications (outcome_state out) !! source_path f = Some cf →
              ancestor_descriptions cf
              = child_ancestors_of (ancestor_descriptions cn) r)).
Proof.
  intros Hnd Hok. destruct (total root o d) as [out Hrun]. exists out.
  split; [done|].
  assert (H : inv_all root confidence_threshold (outcome_state out)
              ∧ inv_context confidence_threshold root (outcome_state out)).
  { refine (invariant
              (fun s => inv_all root confidence_threshold s
                        ∧ inv_context confidence_threshold root s)
              _ _ _ out _ Hrun).
    - intros item rest s [Hall Hctx] Hq. split; [by apply all_step|].
      destruct Hall as (Hvis & Hfr & _). by apply inv_context_step.
    - split; [|by apply inv_context_initial].
      by apply (inv_all_initial classify_folder classify_file get_uuids_for_files
                  update_folder_description_bulk confidence_threshold file_index). }
  destruct H as [(_ & Hfr & _) (Htop & Hdesc & _)].
  set (s := outcome_state out) in *.
  assert (Hpaid : ∀ it ca c, owed s it ca →
            classifications s !! item_key it = Some c →
            ancestor_descriptions c = ca).
  { intros it ca c [Hseen Hwait] Hc.
    destruct (decide (item_key it ∈ seen s)) as [Hin|Hout]; [by apply Hseen|].
    exfalso. destruct (Hwait Hout) as [Hqueue _].
    destruct Hfr as [_ Hfresh].
    destruct (Hfresh (item_key it)) as (_ & Hnone & _); [|congruence].
    unfold closure_keys. apply elem_of_flat_map. exists it.
    split; [done|apply item_key_closure]. }
  split.
  - intros k c cc Hin Hc. apply (Hpaid (ItemFolder c) [] cc); [|done].
    apply Htop. apply list_elem_of_fmap. by exists (k, c).
  - intros n r cn Hlog Hcs Hds Hcn.
    destruct (Hdesc n r cn Hlog Hcs Hds Hcn) as [_ Howed]. split.
    + intros k c cc Hin Hc. apply (Hpaid (ItemFolder c) _ cc); [|done].
      apply Howed. apply elem_of_app. left.
      apply list_elem_of_fmap. exists c. split; [done|].
      apply list_elem_of_fmap. by exists (k, c).
    + intros f cf Hin Hc. apply (Hpaid (ItemFile f) _ cf); [|done].
      apply Howed. apply elem_of_app. right.
      apply list_elem_of_fmap. by exists f.
Qed.

End ContextProofs.

Lemma context_is_handed_down_witness :
  NoDup (tree_keys Sample.tree) ∧ tree_ok [] Sample.tree
  ∧ ∃ out, Sample.traversal = Some out
      ∧ ∀ k c cc, (k, c) ∈ children Sample.tree →
          classifications (outcome_state out) !! path c = Some cc →
          ancestor_descriptions cc = [].
Proof.
  assert (H1 : NoDup (tree_keys Sample.tree)).
  { apply (build_tree_keys_distinct "" Sample.paths ∅). vm_compute. reflexivity. }
  assert (H2 : tree_ok [] Sample.tree) by apply (build_tree_ok "" Sample.paths ∅).
  split; [exact H1|]. split; [exact H2|].
  destruct (context_is_handed_down Sample.stub_classify_folder
              Sample.stub_classify_file Sample.stub_get_uuids Sample.stub_update
              Sample.no_concat_desc Sample.threshold ∅ Sample.tree tt tt H1 H2)
    as (out & Hrun & Htop & _).
  exists out. split; [exact Hrun|exact Htop].
Defined.

(** ** The pipeline *)

Section Pipeline.

Context {Oracle DB : Type}.
Variable classify_folder :
  Oracle -> FolderNode -> gmap string FileIndexEntry -> FolderStats ->
  string -> list string -> option (Oracle * ClassificationResult).
Variable classify_file :
  Oracle -> FileMeta -> gmap string FileIndexEntry -> list string ->
  option (Oracle * ClassificationResult).
Variable get_uuids_for_files : DB -> list string -> option (list string).
Variable update_folder_description_bulk :
  DB -> list string -> string -> option (DB * nat).
Variable build_concat_desc :
  list FileMeta -> gmap string FileIndexEntry -> string.
Variable confidence_threshold : Q.
Variable abspath : string -> string.
Variable isdir : string -> bool.
Variable scan_directory : string -> option nat -> list string.
Variable file_rows : DB -> option (list FileRow).
Variable save_debug_log : Oracle -> option unit.

Implicit Type s : @State Oracle DB.

Local Abbreviation pipeline :=
  (traverse classify_folder classify_file get_uuids_for_files
     update_folder_description_bulk build_concat_desc confidence_threshold
     abspath isdir scan_directory file_rows save_debug_log).
Local Abbreviation run :=
  (bfs_run classify_folder classify_file get_uuids_for_files
     update_folder_description_bulk build_concat_desc confidence_threshold).

(** X24: how the pipeline ends.  [traverse] always ends.  It raises its own
    error exactly when the source is not a directory, and the error of the
    index exactly when the source is a directory and the rows cannot be
    fetched; an exception of the loop, or of the writing of the debug log
    after a loop that returned, leaves it as well.  When it returns, the
    source is a directory, the loop has run to an empty queue on the tree
    built from the scan with the index loaded from the rows, the debug log
    was written, and the result is the one of the loop; if moreover the
    scanned paths are all different and none is also a directory of the
    scan, every scanned path is the key of a mapping that carries it as
    source, or lies below a folder pruned by a confident Skip, or is a file
    the classifier marked Skip. *)
Theorem traverse_accounts_for_the_scan (course_root : string)
    (max_depth : option nat) (o : Oracle) (d : DB) :
  let root_dir := abspath course_root in
  let files_on_disk := scan_directory root_dir max_depth in
  let tree_of rows := build_tree root_dir files_on_disk (load_file_index rows) in
  ∃ out, pipeline course_root max_depth o d = Some out
    ∧ (out = TraverseRaised SourceNotFound ↔ isdir root_dir = false)
    ∧ (out = TraverseRaised IndexNotLoaded
       ↔ isdir root_dir = true ∧ file_rows d = None)
    ∧ (out = TraverseRaised LoopRaised →
       ∃ rows s, file_rows d = Some rows
         ∧ run (tree_of rows) (load_file_index rows) o d = Some (Raised s))
    ∧ (out = TraverseRaised DebugLogNotSaved →
       ∃ rows s, file_rows d = Some rows
         ∧ run (tree_of rows) (load_file_index rows) o d = Some (Returned s)
         ∧ save_debug_log (oracle s) = None)
    ∧ (∀ result s, out = TraverseReturned result s →
         isdir root_dir = true
         ∧ (∃ rows, file_rows d = Some rows
              ∧ run (tree_of rows) (load_file_index rows) o d = Some (Returned s))
         ∧ result = traversal_result s
         ∧ task_queue s = []
         ∧ is_Some (save_debug_log (oracle s))
         ∧ (scan_ok files_on_disk = true → ∀ p, p ∈ files_on_disk →
              (∃ m, res_mappings result !! p = Some m ∧ source_rel m = p)
              ∨ (∃ n r, (ItemFolder n, Some r) ∈ oracle_log s
                        ∧ confident_skip confidence_threshold r = true
                        ∧ p ∈ map source_path (tree_files n))
              ∨ (∃ f r, (ItemFile f, Some r) ∈ oracle_log s
                        ∧ source_path f = p ∧ category r = SKIP))).
Proof.
  cbn zeta. unfold traverse.
  destruct (isdir (abspath course_root)) eqn:Hdir; simpl negb; cbv iota;
    [|eexists; split; [reflexivity|]; naive_solver].
  destruct (file_rows d) as [rows|] eqn:Hrows;
    [|eexists; split; [reflexivity|]; naive_solver].
  set (files_on_disk := scan_directory (abspath course_root) max_depth).
  set (index := load_file_index rows).
  set (root := build_tree (abspath course_root) files_on_disk index).
  destruct (run_total classify_folder classify_file get_uuids_for_files
              update_folder_description_bulk build_concat_desc
              confidence_threshold index root o d) as [end_ Hrun].
  rewrite Hrun. destruct end_ as [s|s];
    [|eexists; split; [reflexivity|]; naive_solver].
  destruct (save_debug_log (oracle s)) as [[]|] eqn:Hsave;
    [|eexists; split; [reflexivity|]; naive_solver].
  eexists. split; [reflexivity|].
  split; [naive_solver|]. split; [naive_solver|]. split; [naive_solver|].
  split; [naive_solver|].
  intros result s' [= <- <-]. split; [done|]. split; [by exists rows|].
  split; [done|]. split.
  { pose proof Hrun as Hloop. unfold bfs_run in Hloop.
    exact (proj2 (loop_invariant_returned classify_folder classify_file
                    get_uuids_for_files update_folder_description_bulk
                    build_concat_desc confidence_threshold index
                    (fun _ => True) (fun _ _ _ _ _ _ _ => I) _ _ _ I Hloop)). }
  split; [by rewrite Hsave|].
  intros Hscan p Hp.
  assert (Hnd : NoDup (tree_keys root)) by (by apply build_tree_keys_distinct).
  destruct (run_invariants classify_folder classify_file get_uuids_for_files
              update_folder_description_bulk build_concat_desc
              confidence_threshold index root o d Hnd)
    as (out & Hrun' & _ & _ & _ & _ & _ & _ & Hmap).
  rewrite Hrun in Hrun'. injection Hrun' as <-. simpl outcome_state in Hmap.
  assert (Hf : ∃ f, f ∈ tree_files root ∧ source_path f = p).
  { rewrite <- (tree_files_build_tree_perm (abspath course_root) files_on_disk
                  index) in Hp.
    apply list_elem_of_fmap in Hp as (f & -> & Hf). eauto. }
  destruct Hf as (f & Hf & <-).
  destruct (covered_run classify_folder classify_file get_uuids_for_files
              update_folder_description_bulk build_concat_desc
              confidence_threshold index root o d s Hnd Hrun) as [_ Hcov].
  destruct (Hcov f Hf) as [[m Hm]|[(n & r & Hl & Hcs & Hn)|(r & Hl & Hcat)]].
  - left. exists m. split; [exact Hm|]. by destruct (Hmap _ _ Hm) as (? & _).
  - right. left. exists n, r. split; [done|]. split; [done|].
    apply list_elem_of_fmap. by exists f.
  - right. right. by exists f, r.
Qed.

End Pipeline.

Lemma traverse_accounts_for_the_scan_witness :
  (∃ result s,
     SamplePipeline.run "course" = Some (TraverseReturned result s)
     ∧ task_queue s = []
     ∧ dest_rel <$> res_mappings result !! "hw/1/a.pdf"
       = Some "practice/hw/1/a.pdf"
     ∧ ∀ p, p ∈ Sample.paths →
         (∃ m, res_mappings result !! p = Some m ∧ source_rel m = p)
         ∨ (∃ n r, (ItemFolder n, Some r) ∈ oracle_log s
                   ∧ confident_skip Sample.threshold r = true
                   ∧ p ∈ map source_path (tree_files n))
         ∨ (∃ f r, (ItemFile f, Some r) ∈ oracle_log s
                   ∧ source_path f = p ∧ category r = SKIP))
  ∧ SamplePipeline.run "elsewhere" = Some (TraverseRaised SourceNotFound).
Proof.
  split.
  - destruct (traverse_accounts_for_the_scan Sample.stub_classify_folder
                Sample.stub_classify_file Sample.stub_get_uuids
                Sample.stub_update Sample.no_concat_desc Sample.threshold
                SamplePipeline.abspath SamplePipeline.isdir
                SamplePipeline.scan_directory SamplePipeline.file_rows
                SamplePipeline.save_debug_log "course" None tt tt)
      as (out & Hout & _ & _ & _ & _ & Hret).
    assert (Hrun : traverse Sample.stub_classify_folder
                     Sample.stub_classify_file Sample.stub_get_uuids
                     Sample.stub_update Sample.no_concat_desc Sample.threshold
                     SamplePipeline.abspath SamplePipeline.isdir
                     SamplePipeline.scan_directory SamplePipeline.file_rows
                     SamplePipeline.save_debug_log "course" None tt tt
                   = Some (TraverseReturned
                             (traversal_result SamplePipeline.final)
                             SamplePipeline.final))
      by (vm_compute; reflexivity).
    rewrite Hrun in Hout. injection Hout as Hout.
    destruct (Hret _ _ (eq_sym Hout)) as (_ & _ & _ & Hq & _ & Hacc).
    exists (traversal_result SamplePipeline.final), SamplePipeline.final.
    split; [exact Hrun|]. split; [exact Hq|].
    split; [vm_compute; reflexivity|].
    apply Hacc. vm_compute. reflexivity.
  - destruct (traverse_accounts_for_the_scan Sample.stub_classify_folder
                Sample.stub_classify_file Sample.stub_get_uuids
                Sample.stub_update Sample.no_concat_desc Sample.threshold
                SamplePipeline.abspath SamplePipeline.isdir
                SamplePipeline.scan_directory SamplePipeline.file_rows
                SamplePipeline.save_debug_log "elsewhere" None tt tt)
      as (out & Hout & Hnf & _).
    rewrite (proj2 Hnf eq_refl) in Hout. exact Hout.
Defined.
